(** * TkoolFaceGenerator: the sheet builder and the archive packager

    A shallow embedding of [process_images], [create_zip_file] and the page
    of [main] of [tkool_face_generator.py].  Python integers are [Z], Python
    floats are IEEE binary64 numbers ([spec_float] at precision 53),
    exceptions are an explicit result type, the Streamlit notices
    ([st.info], [st.warning], [st.error]) are a log threaded through the
    image loop, a Pillow image is its mode, its size and its pixels, and the
    page is the list of what a run of the script has shown, with the
    exception that ended it, if any. *)

From Stdlib Require Import ZArith List String Ascii Bool Lia.
From Stdlib Require Import SpecFloat Decimal DecimalString DecimalN.
From Stdlib.Strings Require Import Byte.
Import ListNotations.

Local Open Scope string_scope.
Local Open Scope list_scope.
Local Open Scope Z_scope.

(** ** Python values, exceptions and floats *)

Module Py.

Inductive exn : Type :=
| ValueError
| ZeroDivisionError
| OverflowError
| MemoryError
| IndexError
| StructError
| OSError
| UnidentifiedImageError.

(** The outcome of evaluating an expression: a value or a raised exception. *)
Inductive result (A : Type) : Type :=
| Ok (a : A)
| Raise (e : exn).
Arguments Ok {A} a.
Arguments Raise {A} e.

Definition rbind {A B} (r : result A) (k : A -> result B) : result B :=
  match r with
  | Ok a => k a
  | Raise e => Raise e
  end.

Declare Scope py_scope.
Delimit Scope py_scope with py.
Notation "x <- r ;; k" := (rbind r (fun x => k))
  (at level 61, r at next level, right associativity) : py_scope.

(** [a // b] and [a % b] on integers: floor division, the remainder takes
    the sign of the divisor, and a zero divisor raises. *)
Definition floordiv (a b : Z) : result Z :=
  if b =? 0 then Raise ZeroDivisionError else Ok (a / b).

Definition mod_ (a b : Z) : result Z :=
  if b =? 0 then Raise ZeroDivisionError else Ok (a mod b).

(** *** binary64 *)

Definition float := spec_float.
Definition prec : Z := 53.
Definition emax : Z := 1024.

(** An integer as an exact, not yet rounded, floating-point datum. *)
Definition exact (a : Z) : float :=
  match a with
  | Z0 => S754_zero false
  | Zpos p => S754_finite false p 0
  | Zneg p => S754_finite true p 0
  end.

Definition is_infinite (x : float) : bool :=
  match x with
  | S754_infinity _ => true
  | _ => false
  end.

(** [a / b] on two integers (true division): the exact quotient rounded
    once to nearest-even; raises on a zero divisor and on overflow. *)
Definition truediv (a b : Z) : result float :=
  if b =? 0 then Raise ZeroDivisionError
  else
    let q := SFdiv prec emax (exact a) (exact b) in
    if is_infinite q then Raise OverflowError else Ok q.

(** [float(a)]: the conversion an arithmetic operator applies to an integer
    operand whose other operand is a float. *)
Definition float_of_int (a : Z) : result float :=
  let x := binary_normalize prec emax a 0 false in
  if is_infinite x then Raise OverflowError else Ok x.

(** [a * x] with [a] an integer and [x] a float. *)
Definition mul_int_float (a : Z) (x : float) : result float :=
  (fa <- float_of_int a ;;
   Ok (SFmul prec emax fa x))%py.

(** [int(x)]: truncation towards zero. *)
Definition int_of_float (x : float) : result Z :=
  match x with
  | S754_zero _ => Ok 0
  | S754_infinity _ => Raise OverflowError
  | S754_nan => Raise ValueError
  | S754_finite s m e =>
      let a := if 0 <=? e then Zpos m * 2 ^ e else Zpos m / 2 ^ (- e) in
      Ok (if s then - a else a)
  end.

(** [math.ceil(x)]. *)
Definition math_ceil (x : float) : result Z :=
  match x with
  | S754_zero _ => Ok 0
  | S754_infinity _ => Raise OverflowError
  | S754_nan => Raise ValueError
  | S754_finite s m e =>
      if 0 <=? e then Ok (if s then - (Zpos m * 2 ^ e) else Zpos m * 2 ^ e)
      else if s then Ok (- (Zpos m / 2 ^ (- e)))
      else Ok (- ((- Zpos m) / 2 ^ (- e)))
  end.

(** *** Sequences *)

Definition len {A} (l : list A) : Z := Z.of_nat (List.length l).

Fixpoint range_up (fuel : nat) (i stop step : Z) : list Z :=
  match fuel with
  | O => []
  | S fuel' =>
      if i <? stop then i :: range_up fuel' (i + step) stop step else []
  end.

Fixpoint range_down (fuel : nat) (i stop step : Z) : list Z :=
  match fuel with
  | O => []
  | S fuel' =>
      if stop <? i then i :: range_down fuel' (i + step) stop step else []
  end.

(** [range(start, stop, step)], as the list of the values it yields.  Each
    value moves by at least one towards [stop], so [|stop - start|] steps
    are enough fuel. *)
Definition range (start stop step : Z) : result (list Z) :=
  if step =? 0 then Raise ValueError
  else if 0 <? step then
    Ok (range_up (Z.to_nat (stop - start)) start stop step)
  else
    Ok (range_down (Z.to_nat (start - stop)) start stop step).

(** A slice bound brought into [0 .. len]: negative bounds count from the
    end, and everything is clamped. *)
Definition slice_index (i n : Z) : Z :=
  if i <? 0 then Z.max (i + n) 0 else Z.min i n.

(** [l[lo:hi]]. *)
Definition slice {A} (l : list A) (lo hi : Z) : list A :=
  let a := slice_index lo (len l) in
  let b := slice_index hi (len l) in
  firstn (Z.to_nat (b - a)) (skipn (Z.to_nat a) l).

(** [enumerate(l)] counting from [i]. *)
Fixpoint enumerate_from {A} (i : Z) (l : list A) : list (Z * A) :=
  match l with
  | [] => []
  | x :: l' => (i, x) :: enumerate_from (i + 1) l'
  end.

Definition enumerate {A} (l : list A) : list (Z * A) := enumerate_from 0 l.

(** *** Formatting *)

Definition digits (n : N) : string := NilEmpty.string_of_uint (N.to_uint n).

Fixpoint zeros (k : nat) : string :=
  match k with
  | O => EmptyString
  | S k' => String "0" (zeros k')
  end.

(** Left padding with zeros up to a minimum width; a longer string is
    left as it is. *)
Definition zfill (width : nat) (s : string) : string :=
  String.append (zeros (width - String.length s)%nat) s.

(** [f"{n:02d}"]: decimal, zero-padded to a minimum width of two, the sign
    of a negative number counted in the width. *)
Definition format_02d (n : Z) : string :=
  match n with
  | Zneg p => String "-" (zfill 1 (digits (Npos p)))
  | _ => zfill 2 (digits (Z.to_N n))
  end.

End Py.

Import Py.

(** ** Images

    A Pillow image is modelled by its mode, its size and its pixels.  Pixels
    are kept in their RGBA reading whatever the mode is, so a conversion to
    ['RGBA'] changes the mode only.  Coordinates outside the size carry no
    meaning. *)

Definition pixel : Type := (Z * Z * Z * Z)%type.

Definition alpha (p : pixel) : Z := snd p.

Record Image : Type := {
  mode : string;
  width : Z;
  height : Z;
  getpixel : Z -> Z -> pixel
}.

Definition size (img : Image) : Z * Z := (width img, height img).

(** Whether [(x, y)] addresses a pixel of [img]. *)
Definition inside (img : Image) (x y : Z) : bool :=
  (0 <=? x) && (x <? width img) && (0 <=? y) && (y <? height img).

(** [img.convert(m)]. *)
Definition Image_convert (img : Image) (m : string) : Image :=
  {| mode := m; width := width img; height := height img;
     getpixel := getpixel img |}.

(** A resampling filter gives the pixels of the scaled image from the source
    image and the requested size. *)
Definition resampling : Type := Image -> Z * Z -> Z -> Z -> pixel.

(** [img.resize(size, resample)]: Pillow refuses a target below one pixel.
    (It returns a plain copy when the size does not change; the pipeline only
    resizes to a strictly smaller width.) *)
Definition Image_resize (img : Image) (sz : Z * Z) (resample : resampling)
  : result Image :=
  let '(w, h) := sz in
  if (w <? 1) || (h <? 1) then Raise ValueError
  else Ok {| mode := mode img; width := w; height := h;
             getpixel := resample img sz |}.

(** [img.crop((x0, y0, x1, y1))]: a box whose right or lower edge lies
    before its left or upper edge is refused; whatever the box shows outside
    the image comes out as zeros. *)
Definition Image_crop (img : Image) (box : Z * Z * Z * Z) : result Image :=
  let '(x0, y0, x1, y1) := box in
  if x1 <? x0 then Raise ValueError
  else if y1 <? y0 then Raise ValueError
  else Ok {| mode := mode img;
             width := x1 - x0;
             height := y1 - y0;
             getpixel := fun x y =>
               if inside img (x0 + x) (y0 + y)
               then getpixel img (x0 + x) (y0 + y)
               else (0, 0, 0, 0) |}.

(** The largest C [int], which Pillow's C core keeps sizes in. *)
Definition INT_MAX : Z := 2 ^ 31 - 1.

(** [Image.new(mode, size, color)]: a negative size is refused by the size
    check, a size beyond the C [int] range by the conversion of the arguments
    ([OverflowError]), and a width beyond [INT_MAX / 4 - 1] by the storage
    ([MemoryError]: a line of four-byte pixels would not fit).  The machine
    is taken to have the memory for every raster that passes these checks. *)
Definition Image_new (m : string) (sz : Z * Z) (color : pixel) : result Image :=
  let '(w, h) := sz in
  if (w <? 0) || (h <? 0) then Raise ValueError
  else if (INT_MAX <? w) || (INT_MAX <? h) then Raise OverflowError
  else if INT_MAX / 4 - 1 <? w then Raise MemoryError
  else Ok {| mode := m; width := w; height := h;
             getpixel := fun _ _ => color |}.

(** Compositing of one pixel under a mask level: mask level, pixel of the
    destination, pixel of the source. *)
Definition compositor : Type := Z -> pixel -> pixel -> pixel.

(** [dst.paste(src, (x, y), mask)]: the source is laid with its upper left
    corner at [(x, y)], clipped to the destination, each pixel composited
    under the alpha of the mask at the same place.  The destination is
    updated in place; here the updated image is returned. *)
Definition Image_paste (composite : compositor) (dst src : Image)
  (pos : Z * Z) (mask : Image) : Image :=
  let '(x, y) := pos in
  {| mode := mode dst; width := width dst; height := height dst;
     getpixel := fun u v =>
       if inside src (u - x) (v - y) && inside dst u v
       then composite (alpha (getpixel mask (u - x) (v - y)))
                      (getpixel dst u v) (getpixel src (u - x) (v - y))
       else getpixel dst u v |}.

(** ** Uploads and notices *)

(** An uploaded file: its display name and what [Image.open] makes of its
    bytes ([None] when they do not decode). *)
Record UploadedFile : Type := {
  name : string;
  content : option Image
}.

Definition Image_open (f : UploadedFile) : result Image :=
  match content f with
  | Some img => Ok img
  | None => Raise UnidentifiedImageError
  end.

(** The three kinds of notice the image loop shows, with the values their
    messages are formatted from. *)
Inductive notice : Type :=
| info_resized (file : string) (w h new_width new_height : Z)
| warning_too_small (file : string) (w h crop_width crop_height : Z)
| error_processing (file : string) (e : exn).

(** Computations that show notices and may raise: the notices shown so far
    are threaded through, and survive an exception. *)
Definition St (A : Type) : Type := list notice -> result A * list notice.

Definition ret {A} (a : A) : St A := fun log => (Ok a, log).

Definition bind {A B} (c : St A) (k : A -> St B) : St B :=
  fun log =>
    match c log with
    | (Ok a, log') => k a log'
    | (Raise e, log') => (Raise e, log')
    end.

Definition lift {A} (r : result A) : St A := fun log => (r, log).

Definition show (n : notice) : St unit := fun log => (Ok tt, log ++ [n]).

(** [try: c  except Exception as e: h e]. *)
Definition try_except {A} (c : St A) (h : exn -> St A) : St A :=
  fun log =>
    match c log with
    | (Ok a, log') => (Ok a, log')
    | (Raise e, log') => h e log'
    end.

Declare Scope st_scope.
Delimit Scope st_scope with st.
Notation "x <- c ;; k" := (bind c (fun x => k))
  (at level 61, c at next level, right associativity) : st_scope.
Notation "' p <- c ;; k" := (bind c (fun x => match x with p => k end))
  (at level 61, p pattern, c at next level, right associativity) : st_scope.
Notation "c ;; k" := (bind c (fun _ => k))
  (at level 61, right associativity) : st_scope.

(** [for x in l: acc = body acc x]. *)
Fixpoint for_each {A S} (l : list A) (body : S -> A -> St S) (acc : S) : St S :=
  match l with
  | [] => ret acc
  | x :: l' => bind (body acc x) (for_each l' body)
  end.

(** The same loop for code that shows no notice. *)
Fixpoint rfold {A S} (l : list A) (body : S -> A -> result S) (acc : S)
  : result S :=
  match l with
  | [] => Ok acc
  | x :: l' => rbind (body acc x) (rfold l' body)
  end.

(** ** The archive packager: [create_zip_file] *)

Definition bytes : Type := list Byte.byte.

(** A [zipfile.ZipFile] opened for writing: the entries written so far, in
    the order they were written (a repeated name is written again, with a
    warning only).  File names are strings of bytes, a Python [str] being
    read as its UTF-8 encoding. *)
Record ZipFile : Type := {
  filelist : list (string * bytes)
}.

Definition ZipFile_new : ZipFile := {| filelist := [] |}.

(** The name [ZipInfo] keeps for an entry: the file name up to its first NUL
    character. *)
Fixpoint arcname (filename : string) : string :=
  match filename with
  | EmptyString => EmptyString
  | String c rest =>
      if Ascii.eqb c "000" then EmptyString else String c (arcname rest)
  end.

(** [zip_file.writestr(filename, data)] on an archive open for writing:
    [writestr] looks at the last character of the name [ZipInfo] kept, which
    raises [IndexError] when nothing is left of it, and the header of the
    entry stores the length of the name in two bytes, which raises
    [struct.error] beyond 65535.  (Path separators are those of POSIX, and
    the clock shows a year the format can store.) *)
Definition writestr (zip_file : ZipFile) (filename : string) (data : bytes)
  : result ZipFile :=
  let kept := arcname filename in
  if String.eqb kept EmptyString then Raise IndexError
  else if 65535 <? Z.of_nat (String.length kept) then Raise StructError
  else Ok {| filelist := filelist zip_file ++ [(kept, data)] |}.

(** The modes of an image the PNG writer of Pillow has an output mode
    for. *)
Definition PNG_modes : list string :=
  ["1"; "L"; "LA"; "I"; "I;16"; "I;16B"; "P"; "RGB"; "RGBA"].

Definition PNG_mode (m : string) : bool := existsb (String.eqb m) PNG_modes.

Section ArchivePackager.

(** The PNG encoding of an image that has pixels. *)
Variable save_PNG : Image -> bytes.

(** The bytes of the buffer behind a closed, deflated archive. *)
Variable getvalue : ZipFile -> bytes.

(** [sheet.save(img_buffer, format='PNG')] followed by
    [img_buffer.getvalue()]: the PNG writer refuses a mode it has no output
    mode for, and Pillow refuses to write an image without pixels. *)
Definition Image_save_PNG (sheet : Image) : result bytes :=
  if negb (PNG_mode (mode sheet)) then Raise OSError
  else if (width sheet <=? 0) || (height sheet <=? 0) then Raise ValueError
  else Ok (save_PNG sheet).

(** Lines 97-100: one turn of the loop. *)
Definition write_sheet (zip_file : ZipFile) (entry : Image * string)
  : result ZipFile :=
  let '(sheet, filename) := entry in
  (data <- Image_save_PNG sheet ;;
   writestr zip_file filename data)%py.

(** Lines 95-100: the archive when the [with] block ends; an exception
    leaves the block at the pair that raised it. *)
Definition zip_sheets (sheets : list (Image * string)) : result ZipFile :=
  rfold sheets write_sheet ZipFile_new.

Definition create_zip_file (sheets : list (Image * string)) : result bytes :=
  (zip_file <- zip_sheets sheets ;;
   Ok (getvalue zip_file))%py.

End ArchivePackager.

(** ** The page

    What [main] puts on the page in the three blocks modelled below: the
    upload column with its preview, the information column, and the run that
    the start button triggers.  Texts are kept as the values they are
    formatted from, and what is shown inside an expander follows it. *)
Inductive widget : Type :=
| st_notice (n : notice)
| st_success_uploaded (count : Z)
| st_columns (count : Z)
| st_image (column : Z) (file : string) (w h : Z) (resize_target : bool)
| st_info_more (count : Z)
| st_metric_total (total_images : Z)
| st_metric_sheets (total_sheets : Z)
| st_metric_per_sheet (images_per_sheet : Z)
| st_warning_large (large_images max_width : Z)
| st_info_split (images_per_sheet : Z)
| st_error_no_images
| st_success_sheets (count : Z)
| st_header_sheets
| st_expander (number : Z) (filename : string) (expanded : bool)
| st_sheet_image (sheet : Image) (caption : string)
| st_download_button (data : bytes) (file_name : string)
| st_divider
| st_subheader_zip
| st_zip_download (data : bytes) (file_name : string)
| st_error_exception (e : exn).

(** ** Sample data

    Stand-ins for the two Pillow primitives and a few uploads, used to run
    the pipeline on concrete batches. *)

(** Nearest-neighbour sampling. *)
Definition nearest : resampling :=
  fun img sz x y =>
    getpixel img (x * width img / fst sz) (y * height img / snd sz).

(** Linear blending of each channel, rounded to the nearest level. *)
Definition mix : compositor :=
  fun m dst src =>
    let ch a b := (a * (255 - m) + b * m + 127) / 255 in
    match dst, src with
    | (r1, g1, b1, a1), (r2, g2, b2, a2) =>
        (ch r1 r2, ch g1 g2, ch b1 b2, ch a1 a2)
    end.

(** A picture of one colour. *)
Definition plain (m : string) (w h : Z) (color : pixel) : Image :=
  {| mode := m; width := w; height := h; getpixel := fun _ _ => color |}.

Definition upload (n : string) (m : string) (w h : Z) : UploadedFile :=
  {| name := n; content := Some (plain m w h (200, 150, 100, 255)) |}.

Definition broken_upload (n : string) : UploadedFile :=
  {| name := n; content := None |}.

(** The list a run returned (empty when it raised). *)
Definition returned {A} (run : result (list A) * list notice) : list A :=
  match fst run with
  | Ok l => l
  | Raise _ => []
  end.

(** ** The sheet builder: [process_images] *)

Section SheetBuilder.

(** The two imaging primitives whose arithmetic lives in Pillow: the
    Lanczos filter of [Image.Resampling.LANCZOS] and the compositing of a
    pixel under a mask. *)
Variable LANCZOS : resampling.
Variable composite : compositor.

(** The keyword arguments of [process_images]. *)
Variables crop_width crop_height columns rows max_width x_offset : Z.

Local Open Scope st_scope.

Definition max_images_per_sheet : Z := columns * rows.

(** Lines 22-37: open, convert to RGBA, resize when wider than [max_width].
    Yields the image together with the [w, h] the code goes on with. *)
Definition load_image (uploaded_file : UploadedFile) : St (Image * Z * Z) :=
  img <- lift (Image_open uploaded_file) ;;
  let img :=
    if String.eqb (mode img) "RGBA" then img else Image_convert img "RGBA" in
  let '(w, h) := size img in
  if w >? max_width then
    ratio <- lift (truediv max_width w) ;;
    let new_width := max_width in
    new_height <- lift (x <- mul_int_float h ratio ;; int_of_float x)%py ;;
    img <- lift (Image_resize img (new_width, new_height) LANCZOS) ;;
    show (info_resized (name uploaded_file) w h new_width new_height) ;;
    ret (img, new_width, new_height)
  else
    ret (img, w, h).

(** Lines 39-43: the crop box for an image [w] wide. *)
Definition crop_box (w : Z) : Z * Z * Z * Z :=
  let center_x := w / 2 in
  let left := center_x - crop_width / 2 + x_offset in
  let upper := 20 in
  let right := left + crop_width in
  let lower := upper + crop_height in
  (left, upper, right, lower).

(** Line 46: the size check. *)
Definition too_small (w h : Z) : bool :=
  let '(x0, _, x1, y1) := crop_box w in
  (x0 <? 0) || (x1 >? w) || (y1 >? h).

(** Lines 22-51, the body of the [try]: [None] stands for the [continue]
    after the warning, [Some cropped] for the tile to append. *)
Definition crop_image (uploaded_file : UploadedFile) : St (option Image) :=
  ' (img, w, h) <- load_image uploaded_file ;;
  if too_small w h then
    show (warning_too_small (name uploaded_file) w h crop_width crop_height) ;;
    ret None
  else
    cropped <- lift (Image_crop img (crop_box w)) ;;
    ret (Some cropped).

(** Lines 21-55: one turn of the image loop. *)
Definition crop_step (cropped_images : list Image)
  (uploaded_file : UploadedFile) : St (list Image) :=
  try_except
    (r <- crop_image uploaded_file ;;
     match r with
     | Some cropped => ret (cropped_images ++ [cropped])
     | None => ret cropped_images
     end)
    (fun e =>
       show (error_processing (name uploaded_file) e) ;;
       ret cropped_images).

(** Lines 17-55. *)
Definition crop_images (uploaded_files : list UploadedFile) : St (list Image) :=
  for_each uploaded_files crop_step [].

(** Lines 73-76: one tile pasted at its grid position. *)
Definition paste_tile (sheet : Image) (entry : Z * Image) : result Image :=
  let '(index, img) := entry in
  (c <- mod_ index columns ;;
   let x := c * crop_width in
   r <- floordiv index columns ;;
   let y := r * crop_height in
   Ok (Image_paste composite sheet img (x, y) img))%py.

(** Lines 79-83. *)
Definition sheet_filename (sheet_number : Z) : string :=
  if sheet_number =? 1 then "Emo_sheet.png"
  else String.append "Emo_sheet_"
         (String.append (format_02d sheet_number) ".png").

(** Lines 62-85: the sheet that starts at [sheet_index]. *)
Definition make_sheet (cropped_images : list Image) (sheet_index : Z)
  : result (Image * string) :=
  let sheet_images :=
    slice cropped_images sheet_index (sheet_index + max_images_per_sheet) in
  (q <- truediv (len sheet_images) columns ;;
   actual_rows <- math_ceil q ;;
   let sheet_width := crop_width * columns in
   let sheet_height := crop_height * actual_rows in
   sheet <- Image_new "RGBA" (sheet_width, sheet_height) (0, 0, 0, 0) ;;
   sheet <- rfold (enumerate sheet_images) paste_tile sheet ;;
   k <- floordiv sheet_index max_images_per_sheet ;;
   let sheet_number := k + 1 in
   Ok (sheet, sheet_filename sheet_number))%py.

(** Lines 58-87. *)
Definition make_sheets (cropped_images : list Image)
  : result (list (Image * string)) :=
  let total_images := len cropped_images in
  (starts <- range 0 total_images max_images_per_sheet ;;
   rfold starts
     (fun sheets sheet_index =>
        s <- make_sheet cropped_images sheet_index ;;
        Ok (sheets ++ [s]))
     [])%py.

Definition process_images (uploaded_files : list UploadedFile)
  : St (list (Image * string)) :=
  cropped_images <- crop_images uploaded_files ;;
  lift (make_sheets cropped_images).


(** ** The page: [main] *)

(** The PNG encoder and the archive serialiser of [create_zip_file], which
    the run uses again for the pictures and the download buttons. *)
Variable save_PNG : Image -> bytes.
Variable getvalue : ZipFile -> bytes.

(** Lines 118-169: the values the number inputs of the sidebar accept. *)
Definition sidebar_values : Prop :=
  50 <= crop_width <= 500 /\ 50 <= crop_height <= 500 /\
  1 <= columns <= 10 /\ 1 <= rows <= 10 /\
  -200 <= x_offset <= 200 /\ 200 <= max_width <= 1000.

(** Lines 194-200: the pictures of the preview, one per column.  An upload
    that does not decode raises here; what was shown before stays. *)
Fixpoint preview_images (entries : list (Z * UploadedFile))
  : list widget * result unit :=
  match entries with
  | [] => ([], Ok tt)
  | (i, file) :: rest =>
      match Image_open file with
      | Raise e => ([], Raise e)
      | Ok img =>
          let '(w, h) := size img in
          let resize_info := w >? max_width in
          let '(shown, r) := preview_images rest in
          (st_image i (name file) w h resize_info :: shown, r)
      end
  end.

(** Lines 188-203: the upload column; [show_preview] is the state of the
    check box. *)
Definition upload_column (show_preview : bool)
  (uploaded_files : list UploadedFile) : list widget * result unit :=
  match uploaded_files with
  | [] => ([], Ok tt)
  | _ =>
      let uploaded := st_success_uploaded (len uploaded_files) in
      if show_preview then
        let preview_cols := st_columns (Z.min 4 (len uploaded_files)) in
        let '(shown, r) :=
          preview_images (enumerate (slice uploaded_files 0 4)) in
        match r with
        | Raise e => (uploaded :: preview_cols :: shown, Raise e)
        | Ok _ =>
            (uploaded :: preview_cols :: shown ++
               (if len uploaded_files >? 4
                then [st_info_more (len uploaded_files - 4)] else []),
             Ok tt)
        end
      else ([uploaded], Ok tt)
  end.

(** Lines 213-220: the uploads wider than [max_width]; one that does not
    decode is passed over. *)
Definition count_large (uploaded_files : list UploadedFile) : Z :=
  fold_left
    (fun large_images file =>
       match Image_open file with
       | Ok img => if fst (size img) >? max_width then large_images + 1
                   else large_images
       | Raise _ => large_images
       end)
    uploaded_files 0.

(** Lines 207-230: the information column.  The division of line 210 comes
    before anything is shown. *)
Definition info_column (uploaded_files : list UploadedFile)
  : result (list widget) :=
  match uploaded_files with
  | [] => Ok []
  | _ =>
      let total_images := len uploaded_files in
      let images_per_sheet := columns * rows in
      (q <- truediv total_images images_per_sheet ;;
       total_sheets <- math_ceil q ;;
       let large_images := count_large uploaded_files in
       Ok ([st_metric_total total_images;
            st_metric_sheets total_sheets;
            st_metric_per_sheet images_per_sheet]
           ++ (if large_images >? 0
               then [st_warning_large large_images max_width] else [])
           ++ (if total_sheets >? 1
               then [st_info_split images_per_sheet] else [])))%py
  end.

(** Lines 256-274: one expander per sheet, with its picture and the button
    that downloads its PNG bytes under its file name.  Streamlit encodes the
    picture it is given, so [st.image] raises where [save] does; what was
    shown before an exception stays. *)
Fixpoint sheet_expanders (entries : list (Z * (Image * string)))
  : list widget * result unit :=
  match entries with
  | [] => ([], Ok tt)
  | (i, (sheet, filename)) :: rest =>
      let opened := st_expander (i + 1) filename (i =? 0) in
      match Image_save_PNG save_PNG sheet with
      | Raise e => ([opened], Raise e)
      | Ok _ =>
          let picture := st_sheet_image sheet filename in
          match Image_save_PNG save_PNG sheet with
          | Raise e => ([opened; picture], Raise e)
          | Ok data =>
              let '(shown, r) := sheet_expanders rest in
              (opened :: picture :: st_download_button data filename :: shown,
               r)
          end
      end
  end.

(** Lines 246-287: what the run shows for the sheets it got, and the
    exception that ended it, if any. *)
Definition show_sheets (sheets : list (Image * string))
  : list widget * result unit :=
  match sheets with
  | [] => ([st_error_no_images], Ok tt)
  | _ =>
      let '(shown, r) := sheet_expanders (enumerate sheets) in
      let results := st_success_sheets (len sheets) :: st_header_sheets :: shown in
      match r with
      | Raise e => (results, Raise e)
      | Ok _ =>
          if len sheets >? 1 then
            match create_zip_file save_PNG getvalue sheets with
            | Raise e => (results ++ [st_divider; st_subheader_zip], Raise e)
            | Ok zip_data =>
                (results ++ [st_divider; st_subheader_zip;
                             st_zip_download zip_data "emo_sheets.zip"],
                 Ok tt)
            end
          else (results, Ok tt)
      end
  end.

(** Lines 235-290: the body of the [if] of the start button.  Whatever
    [process_images] or the display of the sheets raises is caught and
    reported after what was shown before. *)
Definition create_sheets (uploaded_files : list UploadedFile) : list widget :=
  let '(r, shown) := process_images uploaded_files [] in
  map st_notice shown ++
  match r with
  | Raise e => [st_error_exception e]
  | Ok sheets =>
      let '(results, r') := show_sheets sheets in
      match r' with
      | Raise e => results ++ [st_error_exception e]
      | Ok _ => results
      end
  end.

(** Line 233: the run needs uploads and a click. *)
Definition start_button (clicked : bool) (uploaded_files : list UploadedFile)
  : list widget :=
  match uploaded_files with
  | [] => []
  | _ => if clicked then create_sheets uploaded_files else []
  end.

(** Lines 176-290: the page of one run of the script, for the states of the
    check box and of the start button: the upload column, the information
    column, then the block of the start button.  An exception of the two
    columns is not caught: it ends the script where it is raised, after what
    was shown before. *)
Definition main (show_preview clicked : bool)
  (uploaded_files : list UploadedFile) : list widget * result unit :=
  let '(uploads, r) := upload_column show_preview uploaded_files in
  match r with
  | Raise e => (uploads, Raise e)
  | Ok _ =>
      match info_column uploaded_files with
      | Raise e => (uploads, Raise e)
      | Ok information =>
          (uploads ++ information ++ start_button clicked uploaded_files,
           Ok tt)
      end
  end.


(** *** Notions the statements below are written with *)

(** The ceiling of [a / b], for a positive [b]. *)
Definition ceil_div (a b : Z) : Z := - ((- a) / b).

(** The position of the exact value between two mantissas after one more
    bit [Z.odd q] of the mantissa [q] has been shifted out. *)
Definition shifted_loc (q : Z) (l : location) : location :=
  match Z.odd q, l with
  | false, loc_Exact => loc_Exact
  | false, _ => loc_Inexact Lt
  | true, loc_Exact => loc_Inexact Eq
  | true, _ => loc_Inexact Gt
  end.

(** Where lines 74-75 put the tile with group-local number [index]. *)
Definition tile_origin (index : Z) : Z * Z :=
  (index mod columns * crop_width, index / columns * crop_height).

(** The pastes of lines 73-76 when none of them raises. *)
Definition paste_all (sheet : Image) (entries : list (Z * Image)) : Image :=
  fold_left
    (fun sh entry =>
       Image_paste composite sh (snd entry) (tile_origin (fst entry))
         (snd entry))
    entries sheet.

(** The tiles of the sheet with 0-based number [k]. *)
Definition sheet_tiles (cropped_images : list Image) (k : Z) : list Image :=
  firstn (Z.to_nat max_images_per_sheet)
    (skipn (Z.to_nat (k * max_images_per_sheet)) cropped_images).

(** A transparent canvas wide enough for [columns] tiles and high enough for
    the rows that [n] tiles fill. *)
Definition canvas (n : Z) : Image :=
  {| mode := "RGBA";
     width := crop_width * columns;
     height := crop_height * ceil_div n columns;
     getpixel := fun _ _ => (0, 0, 0, 0) |}.

(** The largest canvas the sheet loop can ask for passes the checks of
    [Image.new]. *)
Definition canvas_fits : Prop :=
  crop_width * columns <= INT_MAX / 4 - 1 /\ crop_height * rows <= INT_MAX.

(** The sheet with 0-based number [k] and its file name. *)
Definition sheet_of (cropped_images : list Image) (k : Z) : Image * string :=
  let sheet_images := sheet_tiles cropped_images k in
  (paste_all (canvas (len sheet_images)) (enumerate sheet_images),
   sheet_filename (k + 1)).

(** What every tile of [cropped_images] satisfies. *)
Definition well_cropped (t : Image) : Prop :=
  width t = crop_width /\ height t = crop_height /\
  0 <= crop_width /\ 0 <= crop_height.

(** The character of a decimal digit, and the two-digit numeral of a number
    below one hundred. *)
Definition digit_char (d : Z) : ascii := ascii_of_nat (48 + Z.to_nat d).

Definition two_digits (n : Z) : string :=
  String (digit_char (n / 10)) (String (digit_char (n mod 10)) EmptyString).

(** Reading a decimal numeral back; leading zeros do not count. *)
Definition parse_decimal (s : string) : option N :=
  option_map N.of_uint (NilEmpty.uint_of_string s).

(** A computation that only adds notices, the same ones and with the same
    outcome whatever was shown before. *)
Definition appends {A} (c : St A) : Prop :=
  forall log, c log = (fst (c []), log ++ snd (c [])).

(** What one upload adds to [cropped_images], and the notices it causes. *)
Definition new_tiles (uploaded_file : UploadedFile) : list Image :=
  match fst (crop_image uploaded_file []) with
  | Ok (Some cropped) => [cropped]
  | _ => []
  end.

Definition notices_of (uploaded_file : UploadedFile) : list notice :=
  match crop_image uploaded_file [] with
  | (Raise e, shown) => shown ++ [error_processing (name uploaded_file) e]
  | (Ok _, shown) => shown
  end.

Definition is_warning (n : notice) : bool :=
  match n with
  | warning_too_small _ _ _ _ _ => true
  | _ => false
  end.

Definition is_error (n : notice) : bool :=
  match n with
  | error_processing _ _ => true
  | _ => false
  end.

Definition is_info (n : notice) : bool :=
  match n with
  | info_resized _ _ _ _ _ => true
  | _ => false
  end.

(** The (file name, bytes) pairs behind the download buttons of the sheets,
    and the archives offered, among the widgets of a page. *)
Definition downloads_of (page : list widget) : list (string * bytes) :=
  flat_map
    (fun w => match w with
              | st_download_button data file_name => [(file_name, data)]
              | _ => []
              end)
    page.

Definition archives_of (page : list widget) : list (bytes * string) :=
  flat_map
    (fun w => match w with
              | st_zip_download data file_name => [(data, file_name)]
              | _ => []
              end)
    page.

Definition is_preview (w : widget) : bool :=
  match w with
  | st_image _ _ _ _ _ => true
  | _ => false
  end.

(** What the expander of a sheet is made of. *)
Definition is_sheet_widget (w : widget) : bool :=
  match w with
  | st_expander _ _ _ | st_sheet_image _ _ | st_download_button _ _ => true
  | _ => false
  end.

(** An image the PNG writer takes: it has pixels, in a mode the writer
    knows. *)
Definition encodable (img : Image) : Prop :=
  0 < width img /\ 0 < height img /\ PNG_mode (mode img) = true.

(** A pair [create_zip_file] can write: the sheet can be encoded, and what
    [ZipInfo] keeps of the file name is not empty and not longer than the
    header of an entry can tell. *)
Definition writable (entry : Image * string) : Prop :=
  encodable (fst entry) /\
  arcname (snd entry) <> EmptyString /\
  Z.of_nat (String.length (arcname (snd entry))) <= 65535.

(** ** Properties *)

(** A conjunction of integer comparisons, as [inside] is, holds when each
    comparison does. *)
Ltac split_comparisons :=
  repeat (apply andb_true_intro; split); rewrite ?Z.leb_le, ?Z.ltb_lt.

Create HintDb appends.

(** *** binary64: the ceiling of a quotient of two integers *)

Lemma digits2_pos_size p : digits2_pos p = Pos.size p.
Proof. induction p; simpl; congruence. Qed.

Lemma digits2_bounds p :
  2 ^ (Zpos (digits2_pos p) - 1) <= Zpos p < 2 ^ Zpos (digits2_pos p).
Proof.
  rewrite digits2_pos_size. split.
  - pose proof (Pos.size_le p) as H.
    assert (H' : 2 ^ Zpos (Pos.size p) <= 2 * Zpos p).
    { change 2 with (Zpos 2) at 1. rewrite <- Pos2Z.inj_pow. 
      change (2 * Zpos p) with (Zpos (p~0)). apply Pos2Z.pos_le_pos. exact H. }
    replace (Zpos (Pos.size p)) with (Zpos (Pos.size p) - 1 + 1) in H' by lia.
    rewrite Z.pow_add_r in H' by lia. lia.
  - pose proof (Pos.size_gt p) as H.
    change 2 with (Zpos 2). rewrite <- Pos2Z.inj_pow. apply Pos2Z.pos_lt_pos. exact H.
Qed.

Lemma digits2_unique p k :
  2 ^ (k - 1) <= Zpos p < 2 ^ k -> Zpos (digits2_pos p) = k.
Proof.
  intros [Hl Hu]. pose proof (digits2_bounds p) as [Hl' Hu'].
  set (d := Zpos (digits2_pos p)) in *.
  assert (0 < d) by (subst d; lia).
  destruct (Z_lt_le_dec k 1) as [Hk|Hk].
  { assert (2 ^ k <= 2 ^ 0) by (destruct (Z_lt_le_dec k 0); [rewrite Z.pow_neg_r by lia; lia | apply Z.pow_le_mono_r; lia]).
    simpl in *. lia. }
  destruct (Z.lt_trichotomy d k) as [Hlt|[Heq|Hgt]]; [ | assumption | ].
  - assert (2 ^ d <= 2 ^ (k - 1)) by (apply Z.pow_le_mono_r; lia). lia.
  - assert (2 ^ k <= 2 ^ (d - 1)) by (apply Z.pow_le_mono_r; lia). lia.
Qed.

Lemma fexp_normal k : -1021 <= k -> fexp prec emax k = k - 53.
Proof. intros H. unfold fexp, emin, prec, emax. lia. Qed.

Lemma loc_of_shr_record_of_loc m l :
  loc_of_shr_record (shr_record_of_loc m l) = l /\
  shr_m (shr_record_of_loc m l) = m.
Proof. destruct l as [|[]]; split; reflexivity. Qed.

(** The last step of rounding: renormalise a rounded mantissa. *)
Lemma round_finish s q e :
  2 ^ 52 <= q <= 2 ^ 53 -> -1074 <= e <= 969 ->
  (let '(mrs, e') := shr_fexp prec emax q e loc_Exact in
   match shr_m mrs with
   | Z0 => S754_zero s
   | Zpos m => if e' <=? emax - prec then S754_finite s m e' else S754_infinity s
   | Zneg _ => S754_nan
   end) =
  if q <? 2 ^ 53 then S754_finite s (Z.to_pos q) e
  else S754_finite s (Z.to_pos (2 ^ 52)) (e + 1).
Proof.
  intros Hq He.
  destruct (Z.ltb_spec q (2 ^ 53)) as [Hlt|Hge].
  - destruct q as [|p|p]; try lia.
    unfold shr_fexp. cbn [Zdigits2].
    rewrite (digits2_unique p 53) by (change (53 - 1) with 52; lia).
    rewrite fexp_normal by lia.
    replace (53 + e - 53 - e) with 0 by lia.
    cbn [shr shr_record_of_loc shr_m].
    replace (e <=? emax - prec) with true; [reflexivity|].
    symmetry. apply Z.leb_le. unfold emax, prec. lia.
  - assert (q = 2 ^ 53) by lia. subst q.
    unfold shr_fexp.
    change (Zdigits2 (2 ^ 53)) with 54.
    rewrite fexp_normal by lia.
    replace (54 + e - 53 - e) with 1 by lia.
    cbn.
    destruct (Z.leb_spec (e + 1) 971); [reflexivity | lia].
Qed.

Lemma round_nearest_even_bounds m l :
  m <= round_nearest_even m l <= m + 1.
Proof. destruct l as [|[]]; cbn; try destruct (Z.even m); lia. Qed.

Lemma binary_round_aux_53 s q e l :
  2 ^ 52 <= q < 2 ^ 53 -> -1074 <= e <= 969 ->
  binary_round_aux prec emax s q e l =
  let q' := round_nearest_even q l in
  if q' <? 2 ^ 53 then S754_finite s (Z.to_pos q') e
  else S754_finite s (Z.to_pos (2 ^ 52)) (e + 1).
Proof.
  intros Hq He. unfold binary_round_aux.
  assert (H1 : shr_fexp prec emax q e l = (shr_record_of_loc q l, e)).
  { destruct q as [|p|p]; try lia.
    unfold shr_fexp. cbn [Zdigits2].
    rewrite (digits2_unique p 53) by (change (53 - 1) with 52; lia).
    rewrite fexp_normal by lia.
    replace (53 + e - 53 - e) with 0 by lia. reflexivity. }
  rewrite H1.
  destruct (loc_of_shr_record_of_loc q l) as [-> ->].
  pose proof (round_nearest_even_bounds q l).
  apply round_finish; lia.
Qed.

Lemma shr_1_of_loc p l :
  let mrs := shr_1 (shr_record_of_loc (Zpos p~0) l) in
  shr_m mrs = Zpos p /\ loc_of_shr_record mrs = shifted_loc (Zpos p~0) l.
Proof. destruct l as [|[]]; split; reflexivity. Qed.

Lemma shr_1_of_loc' p l :
  let mrs := shr_1 (shr_record_of_loc (Zpos p~1) l) in
  shr_m mrs = Zpos p /\ loc_of_shr_record mrs = shifted_loc (Zpos p~1) l.
Proof. destruct l as [|[]]; split; reflexivity. Qed.

Lemma binary_round_aux_54 s q e l :
  2 ^ 53 <= q < 2 ^ 54 -> -1074 <= e <= 968 ->
  binary_round_aux prec emax s q e l =
  let q' := round_nearest_even (q / 2) (shifted_loc q l) in
  if q' <? 2 ^ 53 then S754_finite s (Z.to_pos q') (e + 1)
  else S754_finite s (Z.to_pos (2 ^ 52)) (e + 2).
Proof.
  intros Hq He. unfold binary_round_aux.
  assert (H1 : shr_fexp prec emax q e l = (shr_1 (shr_record_of_loc q l), e + 1)).
  { destruct q as [|p|p]; try lia.
    unfold shr_fexp. cbn [Zdigits2].
    rewrite (digits2_unique p 54) by (change (54 - 1) with 53; lia).
    rewrite fexp_normal by lia.
    replace (54 + e - 53 - e) with 1 by lia. reflexivity. }
  rewrite H1.
  assert (H2 : shr_m (shr_1 (shr_record_of_loc q l)) = q / 2 /\
               loc_of_shr_record (shr_1 (shr_record_of_loc q l)) = shifted_loc q l).
  { destruct q as [|[p|p|]|p]; try lia.
    - destruct (shr_1_of_loc' p l) as [-> ->]. split; [|reflexivity].
      apply (Z.div_unique _ _ _ 1); lia.
    - destruct (shr_1_of_loc p l) as [-> ->]. split; [|reflexivity].
      apply (Z.div_unique _ _ _ 0); lia.
  }
  destruct H2 as [-> ->].
  pose proof (round_nearest_even_bounds (q / 2) (shifted_loc q l)).
  assert (2 ^ 52 <= q / 2 < 2 ^ 53).
  { change (2 ^ 54) with (2 * 2 ^ 53) in Hq. change (2 ^ 53) with (2 * 2 ^ 52) in Hq at 1.
    split; [apply Z.div_le_lower_bound | apply Z.div_lt_upper_bound]; lia. }
  replace (e + 2) with (e + 1 + 1) by lia.
  apply round_finish; lia.
Qed.

Lemma new_location_spec c r :
  0 < c -> 0 <= r < c ->
  match new_location c r with
  | loc_Exact => r = 0
  | loc_Inexact Lt => 0 < 2 * r < c
  | loc_Inexact Eq => 2 * r = c
  | loc_Inexact Gt => c < 2 * r
  end.
Proof.
  intros Hc Hr. unfold new_location, new_location_even, new_location_odd.
  destruct (Z.even c) eqn:Hev; destruct (Z.eqb_spec r 0) as [|Hr0]; try assumption.
  - destruct (Z.compare_spec (2 * r) c); lia.
  - assert (Hodd : Z.odd c = true) by (rewrite <- Z.negb_even, Hev; reflexivity).
    apply Z.odd_spec in Hodd. destruct Hodd as [k Hk].
    destruct (Z.compare_spec (2 * r + 1) c); lia.
Qed.

(** Rounding a truncated quotient to nearest-even lands on an integer
    nearest to the exact quotient. *)
Lemma round_nearest_53 a c q r :
  0 < c -> a = q * c + r -> 0 <= r < c ->
  let q' := round_nearest_even q (new_location c r) in
  2 * Z.abs (q' * c - a) <= c.
Proof.
  intros Hc Ha Hr q'. subst q'.
  pose proof (new_location_spec c r Hc Hr) as Hl.
  destruct (new_location c r) as [|[]]; cbn [round_nearest_even];
    try destruct (Z.even q); nia.
Qed.

Lemma round_nearest_54 a c q r :
  0 < c -> 2 * a = q * c + r -> 0 <= r < c ->
  let q' := round_nearest_even (q / 2) (shifted_loc q (new_location c r)) in
  2 * Z.abs (q' * c - a) <= c.
Proof.
  intros Hc Ha Hr q'. subst q'.
  pose proof (new_location_spec c r Hc Hr) as Hl.
  pose proof (Z.div_mod q 2 ltac:(lia)) as Hq.
  rewrite Zmod_odd in Hq. unfold shifted_loc.
  destruct (Z.odd q); destruct (new_location c r) as [|[]];
    cbn [round_nearest_even]; try destruct (Z.even (q / 2)); nia.
Qed.

(** An integer nearest to [a / c * 2 ^ t], when [2 ^ t] is fine enough
    against [c], has the ceiling of [a / c] once scaled back. *)
Lemma ceil_of_nearest a c t q' :
  0 < c -> 0 <= t -> c < 2 ^ (t + 1) ->
  2 * Z.abs (q' * c - a * 2 ^ t) <= c ->
  - ((- q') / 2 ^ t) = ceil_div a c.
Proof.
  intros Hc Ht Hfine Hn. unfold ceil_div.
  rewrite Z.pow_add_r in Hfine by lia. change (2 ^ 1) with 2 in Hfine.
  assert (Hp : 0 < 2 ^ t) by (apply Z.pow_pos_nonneg; lia).
  set (P := 2 ^ t) in *.
  set (k := - (- a / c)).
  assert (Hk : (k - 1) * c < a <= k * c).
  { subst k. pose proof (Z.div_mod (- a) c ltac:(lia)).
    pose proof (Z.mod_pos_bound (- a) c Hc). nia. }
  enough (He : - k = - q' / P) by lia.
  apply (Z.div_unique _ _ _ (k * P - q')); [| lia].
  left. split; [| ].
  - (* q' <= k * P *)
    assert (q' * c <= k * P * c + c / 2) by (pose proof (Z.div_mod c 2 ltac:(lia)); pose proof (Z.mod_pos_bound c 2 ltac:(lia)); nia).
    assert (q' * c < (k * P + 1) * c) by (pose proof (Z.div_mod c 2 ltac:(lia)); pose proof (Z.mod_pos_bound c 2 ltac:(lia)); nia).
    assert (q' < k * P + 1) by nia. lia.
  - (* (k - 1) * P < q' *)
    enough ((k - 1) * P < q') by lia.
    assert (Ha : (k - 1) * c + 1 <= a) by lia.
    assert (2 * (q' * c) >= 2 * (a * P) - c) by lia.
    assert (2 * (a * P) >= 2 * ((k - 1) * c * P) + 2 * P) by nia.
    assert (2 * (q' * c) > 2 * ((k - 1) * P * c)) by nia.
    assert ((k - 1) * P < q') by nia. lia.
Qed.

Lemma math_ceil_rounded q' t :
  2 ^ 52 <= q' <= 2 ^ 53 -> 0 <= t ->
  let x := if q' <? 2 ^ 53 then S754_finite false (Z.to_pos q') (- t)
           else S754_finite false (Z.to_pos (2 ^ 52)) (- t + 1) in
  is_infinite x = false /\ math_ceil x = Ok (- ((- q') / 2 ^ t)).
Proof.
  intros Hq Ht x. subst x.
  destruct (Z.ltb_spec q' (2 ^ 53)) as [Hlt|Hge]; (split; [reflexivity|]).
  - cbn [math_ceil]. rewrite Z2Pos.id by lia.
    destruct (Z.leb_spec 0 (- t)).
    + assert (t = 0) by lia. subst t. change (- 0) with 0.
      rewrite Z.pow_0_r, Z.div_1_r, Z.mul_1_r. f_equal. lia.
    + rewrite Z.opp_involutive. reflexivity.
  - assert (q' = 2 ^ 53) by lia. subst q'.
    cbn [math_ceil]. rewrite Z2Pos.id by lia.
    destruct (Z.leb_spec 0 (- t + 1)).
    + assert (Ht' : t = 0 \/ t = 1) by lia. destruct Ht' as [-> | ->]; reflexivity.
    + f_equal. f_equal.
      replace (- (- t + 1)) with (t - 1) by lia.
      replace (2 ^ t) with (2 * 2 ^ (t - 1)).
      2:{ rewrite <- Z.pow_succ_r by lia. f_equal. lia. }
      change (- 2 ^ 53) with (2 * - 2 ^ 52).
      rewrite Z.div_mul_cancel_l; [reflexivity| |lia].
      apply Z.pow_nonzero; lia.
Qed.

Theorem math_ceil_truediv n c :
  0 <= n < 2 ^ 53 -> 0 < c < 2 ^ 53 ->
  rbind (truediv n c) math_ceil = Ok (ceil_div n c).
Proof.
  intros Hn Hc. unfold truediv.
  destruct (Z.eqb_spec c 0) as [|_]; [lia|].
  destruct c as [|my|my]; try lia.
  destruct n as [|mx|mx]; try lia.
  { reflexivity. }
  cbn [exact SFdiv xorb].
  pose proof (digits2_bounds mx) as [Hx1 Hx2].
  pose proof (digits2_bounds my) as [Hy1 Hy2].
  unfold SFdiv_core_binary. cbn [Zdigits2].
  set (d1 := Zpos (digits2_pos mx)) in *.
  set (d2 := Zpos (digits2_pos my)) in *.
  assert (Hd1 : 1 <= d1 <= 53).
  { split; [subst d1; lia|].
    destruct (Z_le_gt_dec d1 53); [assumption|].
    assert (2 ^ 53 <= 2 ^ (d1 - 1)) by (apply Z.pow_le_mono_r; lia). lia. }
  assert (Hd2 : 1 <= d2 <= 53).
  { split; [subst d2; lia|].
    destruct (Z_le_gt_dec d2 53); [assumption|].
    assert (2 ^ 53 <= 2 ^ (d2 - 1)) by (apply Z.pow_le_mono_r; lia). lia. }
  rewrite fexp_normal by lia.
  set (s := 53 + d2 - d1).
  replace (Z.min (d1 + 0 - (d2 + 0) - 53) (0 - 0)) with (- s) by (subst s; lia).
  replace (0 - 0 - - s) with s by lia.
  assert (Hs : 1 <= s <= 105) by (subst s; lia).
  destruct s as [|ps|ps] eqn:Es; try lia. rewrite <- Es in *.
  rewrite Z.shiftl_mul_pow2 by lia.
  pose proof (Z_div_mod (Zpos mx * 2 ^ s) (Zpos my) ltac:(lia)) as Hdm.
  destruct (Z.div_eucl (Zpos mx * 2 ^ s) (Zpos my)) as [q r].
  destruct Hdm as [Hqr Hr].
  (* the quotient has 53 or 54 bits *)
  assert (Hpow : 2 ^ (d1 - 1) * 2 ^ s = 2 ^ 52 * (2 * 2 ^ (d2 - 1))).
  { rewrite <- Z.pow_add_r by lia. rewrite <- (Z.pow_succ_r 2 (d2 - 1)) by lia.
    rewrite <- Z.pow_add_r by lia. f_equal. subst s. lia. }
  assert (Hd2' : 2 ^ d2 = 2 * 2 ^ (d2 - 1)).
  { rewrite <- Z.pow_succ_r by lia. f_equal. lia. }
  assert (Hd1' : 2 ^ d1 = 2 * 2 ^ (d1 - 1)).
  { rewrite <- Z.pow_succ_r by lia. f_equal. lia. }
  assert (HS : 0 < 2 ^ s) by (apply Z.pow_pos_nonneg; lia).
  assert (HA : 0 < 2 ^ (d1 - 1)) by (apply Z.pow_pos_nonneg; lia).
  assert (HB : 0 < 2 ^ (d2 - 1)) by (apply Z.pow_pos_nonneg; lia).
  assert (Hq : 2 ^ 52 <= q < 2 ^ 54).
  { change (2 ^ 54) with (2 ^ 52 * 4).
    set (A := 2 ^ (d1 - 1)) in *. set (B := 2 ^ (d2 - 1)) in *.
    set (S := 2 ^ s) in *. set (T := 2 ^ 52) in *.
    assert (0 < T) by (subst T; lia).
    split.
    - assert (T * Zpos my < Zpos mx * S) by nia.
      assert (T - 1 < q) by nia. lia.
    - assert (Zpos mx * S < T * 4 * Zpos my) by nia.
      nia. }
  assert (Hfine : Zpos my < 2 ^ s).
  { assert (2 ^ d2 <= 2 ^ s) by (apply Z.pow_le_mono_r; subst s; lia). lia. }
  destruct (Z_lt_le_dec q (2 ^ 53)) as [Hq53|Hq54].
  - rewrite binary_round_aux_53 by lia. cbv zeta.
    pose proof (round_nearest_even_bounds q (new_location (Zpos my) r)) as Hb.
    destruct (math_ceil_rounded
                (round_nearest_even q (new_location (Zpos my) r)) s
                ltac:(lia) ltac:(lia)) as [Hinf Hceil].
    rewrite Hinf. cbn [rbind]. rewrite Hceil. f_equal.
    apply ceil_of_nearest; try lia.
    + rewrite Z.pow_add_r by lia. change (2 ^ 1) with 2. lia.
    + apply (round_nearest_53 _ _ q r); lia.
  - rewrite binary_round_aux_54 by lia. cbv zeta.
    set (l := shifted_loc q (new_location (Zpos my) r)).
    pose proof (round_nearest_even_bounds (q / 2) l) as Hb.
    assert (2 ^ 52 <= q / 2 < 2 ^ 53).
    { change (2 ^ 54) with (2 * 2 ^ 53) in Hq.
      change (2 ^ 53) with (2 * 2 ^ 52) in Hq54.
      split; [apply Z.div_le_lower_bound | apply Z.div_lt_upper_bound]; lia. }
    destruct (math_ceil_rounded (round_nearest_even (q / 2) l) (s - 1)
                ltac:(lia) ltac:(lia)) as [Hinf Hceil].
    replace (- (s - 1)) with (- s + 1) in Hinf, Hceil by lia.
    replace (- s + 1 + 1) with (- s + 2) in Hinf, Hceil by lia.
    rewrite Hinf. cbn [rbind]. rewrite Hceil. f_equal.
    apply ceil_of_nearest; try lia.
    + replace (s - 1 + 1) with s by lia. lia.
    + apply (round_nearest_54 _ _ q r); try lia.
      replace (2 ^ s) with (2 * 2 ^ (s - 1)) in Hqr.
      2:{ rewrite <- Z.pow_succ_r by lia. f_equal. lia. }
      lia.
Qed.

(** *** Ceilings, ranges, slices and loops *)

Lemma ceil_div_step a b : 0 < b -> ceil_div a b = ceil_div (a - b) b + 1.
Proof.
  intros Hb. unfold ceil_div.
  replace (- (a - b)) with (- a + 1 * b) by lia.
  rewrite Z.div_add by lia. lia.
Qed.

Lemma ceil_div_nonpos a b : 0 < b -> a <= 0 -> ceil_div a b <= 0.
Proof.
  intros Hb Ha. unfold ceil_div.
  assert (0 <= - a / b) by (apply Z.div_pos; lia). lia.
Qed.

Lemma ceil_div_pos a b : 0 < b -> 0 < a -> 0 < ceil_div a b.
Proof.
  intros Hb Ha. unfold ceil_div.
  assert (- a / b < 0) by (apply Z.div_lt_upper_bound; lia). lia.
Qed.

Lemma ceil_div_bounds a b :
  0 < b -> (ceil_div a b - 1) * b < a <= ceil_div a b * b.
Proof.
  intros Hb. unfold ceil_div.
  pose proof (Z.div_mod (- a) b ltac:(lia)).
  pose proof (Z.mod_pos_bound (- a) b Hb). nia.
Qed.

Lemma ceil_div_unique a b k :
  0 < b -> (k - 1) * b < a <= k * b -> ceil_div a b = k.
Proof.
  intros Hb Hk. pose proof (ceil_div_bounds a b Hb). nia.
Qed.

Lemma range_up_eq stop step fuel : forall i,
  0 < step -> (Z.to_nat (stop - i) <= fuel)%nat ->
  range_up fuel i stop step =
  map (fun k => i + Z.of_nat k * step)
      (seq 0 (Z.to_nat (ceil_div (stop - i) step))).
Proof.
  induction fuel as [|fuel IH]; intros i Hstep Hfuel.
  - pose proof (ceil_div_nonpos (stop - i) step Hstep ltac:(lia)).
    replace (Z.to_nat (ceil_div (stop - i) step)) with 0%nat by lia.
    reflexivity.
  - cbn [range_up]. destruct (Z.ltb_spec i stop) as [Hlt|Hge].
    + rewrite IH by lia.
      rewrite (ceil_div_step (stop - i) step Hstep).
      pose proof (ceil_div_pos (stop - i) step Hstep ltac:(lia)) as Hp.
      rewrite (ceil_div_step (stop - i) step Hstep) in Hp.
      replace (stop - (i + step)) with (stop - i - step) by lia.
      set (n := ceil_div (stop - i - step) step) in *.
      replace (Z.to_nat (n + 1)) with (S (Z.to_nat n)) by lia.
      cbn [seq map]. f_equal; [lia|].
      rewrite <- seq_shift, map_map. apply map_ext. intros k. lia.
    + pose proof (ceil_div_nonpos (stop - i) step Hstep ltac:(lia)).
      replace (Z.to_nat (ceil_div (stop - i) step)) with 0%nat by lia.
      reflexivity.
Qed.

(** The sheet loop starts a sheet at every multiple of the capacity below
    the number of tiles. *)
Lemma range_starts n step :
  0 < step ->
  range 0 n step =
  Ok (map (fun k => Z.of_nat k * step) (seq 0 (Z.to_nat (ceil_div n step)))).
Proof.
  intros Hstep. unfold range.
  destruct (Z.eqb_spec step 0); [lia|].
  destruct (Z.ltb_spec 0 step); [|lia].
  rewrite range_up_eq by lia. rewrite Z.sub_0_r. reflexivity.
Qed.

Lemma range_nonpos_step n step : 0 <= n -> step < 0 -> range 0 n step = Ok [].
Proof.
  intros Hn Hstep. unfold range.
  destruct (Z.eqb_spec step 0); [lia|].
  destruct (Z.ltb_spec 0 step); [lia|].
  replace (Z.to_nat (0 - n)) with 0%nat by lia. reflexivity.
Qed.

Lemma firstn_min_length {A} (l : list A) k :
  firstn (Nat.min k (List.length l)) l = firstn k l.
Proof.
  destruct (Nat.le_gt_cases k (List.length l)).
  - rewrite Nat.min_l by assumption. reflexivity.
  - rewrite Nat.min_r by lia. rewrite firstn_all. symmetry.
    apply firstn_all2. lia.
Qed.

Lemma slice_window {A} (l : list A) a c :
  0 <= a <= len l -> 0 <= c ->
  slice l a (a + c) = firstn (Z.to_nat c) (skipn (Z.to_nat a) l).
Proof.
  intros Ha Hc. unfold slice, slice_index.
  destruct (Z.ltb_spec a 0); [lia|].
  destruct (Z.ltb_spec (a + c) 0); [lia|].
  rewrite (Z.min_l a) by lia.
  rewrite <- (firstn_min_length (skipn (Z.to_nat a) l) (Z.to_nat c)).
  f_equal. rewrite length_skipn. unfold len in *. lia.
Qed.

Lemma rfold_collect_inv {A B} (f : A -> result B) l : forall acc res,
  rfold l (fun acc x => rbind (f x) (fun s => Ok (acc ++ [s]))) acc = Ok res ->
  exists ys, res = acc ++ ys /\ Forall2 (fun x y => f x = Ok y) l ys.
Proof.
  induction l as [|x l IH]; intros acc res H; cbn [rfold] in H.
  - injection H as <-. exists []. rewrite app_nil_r. split; constructor.
  - destruct (f x) as [y|e] eqn:Hx; cbn [rbind] in H; [|discriminate].
    apply IH in H. destruct H as (ys & -> & HF).
    exists (y :: ys). rewrite <- app_assoc. split; [reflexivity|].
    constructor; assumption.
Qed.

Lemma rfold_collect {A B} (f : A -> result B) l ys : forall acc,
  Forall2 (fun x y => f x = Ok y) l ys ->
  rfold l (fun acc x => rbind (f x) (fun s => Ok (acc ++ [s]))) acc =
  Ok (acc ++ ys).
Proof.
  intros acc HF. revert acc.
  induction HF as [|x y l ys Hx HF IH]; intros acc; cbn [rfold].
  - rewrite app_nil_r. reflexivity.
  - rewrite Hx. cbn [rbind]. rewrite IH, <- app_assoc. reflexivity.
Qed.

(** *** Pasting tiles on a sheet *)

Lemma paste_tiles_ok entries : forall sheet,
  columns <> 0 ->
  rfold entries paste_tile sheet = Ok (paste_all sheet entries).
Proof.
  induction entries as [|[index img] entries IH]; intros sheet Hc; [reflexivity|].
  cbn [rfold paste_tile]. unfold mod_, floordiv.
  destruct (Z.eqb_spec columns 0); [contradiction|].
  cbn [rbind]. rewrite IH by assumption. reflexivity.
Qed.

Lemma paste_all_size entries : forall sheet,
  width (paste_all sheet entries) = width sheet /\
  height (paste_all sheet entries) = height sheet /\
  mode (paste_all sheet entries) = mode sheet.
Proof.
  induction entries as [|e entries IH]; intros sheet; [repeat split|].
  cbn [paste_all fold_left]. fold (paste_all
    (Image_paste composite sheet (snd e) (tile_origin (fst e)) (snd e)) entries).
  destruct (IH (Image_paste composite sheet (snd e) (tile_origin (fst e)) (snd e)))
    as (-> & -> & ->).
  unfold Image_paste. destruct (tile_origin (fst e)). repeat split.
Qed.

Lemma paste_pixel_outside sheet img x y X Y :
  inside img (X - x) (Y - y) = false ->
  getpixel (Image_paste composite sheet img (x, y) img) X Y = getpixel sheet X Y.
Proof. intros H. cbn. rewrite H. reflexivity. Qed.

Lemma paste_pixel_inside sheet img x y X Y :
  inside img (X - x) (Y - y) = true -> inside sheet X Y = true ->
  getpixel (Image_paste composite sheet img (x, y) img) X Y =
  composite (alpha (getpixel img (X - x) (Y - y))) (getpixel sheet X Y)
    (getpixel img (X - x) (Y - y)).
Proof. intros H1 H2. cbn. rewrite H1, H2. reflexivity. Qed.

Lemma inside_paste sheet img pos X Y :
  inside (Image_paste composite sheet img pos img) X Y = inside sheet X Y.
Proof. destruct pos. reflexivity. Qed.

(** Two tiles of the grid do not overlap: a pixel of the cell of tile [j] is
    outside the cell of any other tile [i]. *)
Lemma grid_cells_disjoint (img : Image) i j u v :
  0 < columns ->
  width img = crop_width -> height img = crop_height ->
  0 <= u < crop_width -> 0 <= v < crop_height ->
  i <> j ->
  inside img (fst (tile_origin j) + u - fst (tile_origin i))
             (snd (tile_origin j) + v - snd (tile_origin i)) = false.
Proof.
  intros Hc Hw Hh Hu Hv Hij. unfold inside, tile_origin. cbn [fst snd].
  rewrite Hw, Hh.
  apply not_true_is_false. intros H.
  repeat (apply andb_prop in H; destruct H as [H ?]).
  rewrite ?Z.leb_le, ?Z.ltb_lt in *.
  pose proof (Z.div_mod i columns ltac:(lia)).
  pose proof (Z.div_mod j columns ltac:(lia)).
  assert (j mod columns = i mod columns) by nia.
  assert (j / columns = i / columns) by nia.
  apply Hij. congruence.
Qed.

Lemma paste_all_untouched entries X Y : forall sheet,
  (forall e, In e entries ->
     inside (snd e) (X - fst (tile_origin (fst e)))
                    (Y - snd (tile_origin (fst e))) = false) ->
  getpixel (paste_all sheet entries) X Y = getpixel sheet X Y.
Proof.
  induction entries as [|e entries IH]; intros sheet H; [reflexivity|].
  cbn [paste_all fold_left].
  fold (paste_all
    (Image_paste composite sheet (snd e) (tile_origin (fst e)) (snd e)) entries).
  rewrite IH by (intros e' He'; apply H; right; assumption).
  destruct (tile_origin (fst e)) as [x y] eqn:E.
  apply paste_pixel_outside.
  specialize (H e (or_introl eq_refl)). rewrite E in H. exact H.
Qed.

(** The pixel of a grid cell after all pastes: the pixel of the tile of that
    cell composited once over what the sheet had there. *)
Lemma paste_all_pixel entries j img u v : forall sheet,
  0 < columns ->
  Forall (fun e => width (snd e) = crop_width /\ height (snd e) = crop_height)
    entries ->
  NoDup (map fst entries) ->
  In (j, img) entries ->
  0 <= u < crop_width -> 0 <= v < crop_height ->
  inside sheet (fst (tile_origin j) + u) (snd (tile_origin j) + v) = true ->
  getpixel (paste_all sheet entries)
    (fst (tile_origin j) + u) (snd (tile_origin j) + v) =
  composite (alpha (getpixel img u v))
    (getpixel sheet (fst (tile_origin j) + u) (snd (tile_origin j) + v))
    (getpixel img u v).
Proof.
  induction entries as [|e entries IH];
    intros sheet Hc Hdims Hnd Hin Hu Hv Hins; [contradiction|].
  inversion Hdims as [|? ? [Hw Hh] Hdims']; subst.
  cbn [map] in Hnd. inversion Hnd as [|? ? Hnotin Hnd']; subst.
  cbn [paste_all fold_left].
  fold (paste_all
    (Image_paste composite sheet (snd e) (tile_origin (fst e)) (snd e)) entries).
  destruct Hin as [He|Hin].
  - subst e. cbn [fst snd] in *.
    rewrite paste_all_untouched.
    + destruct (tile_origin j) as [x y] eqn:E. cbn [fst snd] in *.
      rewrite paste_pixel_inside; try assumption.
      * replace (x + u - x) with u by lia. replace (y + v - y) with v by lia.
        reflexivity.
      * replace (x + u - x) with u by lia. replace (y + v - y) with v by lia.
        unfold inside. rewrite Hw, Hh.
        split_comparisons; lia.
    + intros e' He'.
      rewrite Forall_forall in Hdims'. destruct (Hdims' e' He') as [Hw' Hh'].
      apply grid_cells_disjoint; try assumption.
      intros Heq. apply Hnotin. apply in_map_iff.
      exists e'. split; [exact Heq | assumption].
  - rewrite IH; try assumption.
    f_equal.
    destruct (tile_origin (fst e)) as [x y] eqn:E.
    apply paste_pixel_outside.
    pose proof (grid_cells_disjoint (snd e) (fst e) j u v Hc Hw Hh Hu Hv) as Hd.
    rewrite E in Hd. cbn [fst snd] in Hd. apply Hd.
    intros Heq. apply Hnotin. apply in_map_iff.
    exists (j, img). split; [symmetry; exact Heq | assumption].
Qed.

Lemma enumerate_from_fst {A} (l : list A) : forall a,
  map fst (enumerate_from a l) =
  map (fun k => a + Z.of_nat k) (seq 0 (List.length l)).
Proof.
  induction l as [|x l IH]; intros a; [reflexivity|].
  cbn [enumerate_from map List.length seq fst]. f_equal; [lia|].
  rewrite IH, <- seq_shift, map_map. apply map_ext. intros k. lia.
Qed.

Lemma enumerate_from_snd {A} (l : list A) : forall a,
  map snd (enumerate_from a l) = l.
Proof.
  induction l as [|x l IH]; intros a; [reflexivity|].
  cbn [enumerate_from map]. rewrite IH. reflexivity.
Qed.

Lemma NoDup_map_injective {A B} (f : A -> B) (l : list A) :
  (forall x y, In x l -> In y l -> f x = f y -> x = y) ->
  NoDup l -> NoDup (map f l).
Proof.
  intros Hinj Hnd. induction Hnd as [|x l Hx Hnd IH]; cbn [map]; constructor.
  - intros Hin. apply in_map_iff in Hin. destruct Hin as (y & Hy & Hin).
    apply Hx. rewrite (Hinj x y); [assumption|left; reflexivity|right; assumption|].
    symmetry. assumption.
  - apply IH. intros a b Ha Hb. apply Hinj; right; assumption.
Qed.

Lemma enumerate_NoDup {A} (l : list A) a : NoDup (map fst (enumerate_from a l)).
Proof.
  rewrite enumerate_from_fst.
  apply NoDup_map_injective; [|apply seq_NoDup].
  intros x y _ _. lia.
Qed.

Lemma enumerate_nth {A} (l : list A) : forall a k x,
  nth_error l k = Some x -> In (a + Z.of_nat k, x) (enumerate_from a l).
Proof.
  induction l as [|y l IH]; intros a k x H; [destruct k; discriminate|].
  destruct k as [|k]; cbn [nth_error] in H.
  - injection H as ->. left. f_equal. lia.
  - right. replace (a + Z.of_nat (S k)) with (a + 1 + Z.of_nat k) by lia.
    apply IH. assumption.
Qed.

Lemma enumerate_In {A} (l : list A) : forall a e,
  In e (enumerate_from a l) -> a <= fst e < a + len l /\ In (snd e) l.
Proof.
  induction l as [|x l IH]; intros a e H; [contradiction|].
  unfold len in *. cbn [enumerate_from List.length] in *.
  destruct H as [<- | H].
  - cbn [fst snd]. split; [lia | left; reflexivity].
  - apply IH in H. destruct H as [Hi Hin]. split; [lia | right; assumption].
Qed.

(** *** The sheets of a list of tiles *)

Lemma truediv_ceil_ok n c :
  0 <= n < 2 ^ 53 -> 0 < c < 2 ^ 53 ->
  exists q, truediv n c = Ok q /\ math_ceil q = Ok (ceil_div n c).
Proof.
  intros Hn Hc. pose proof (math_ceil_truediv n c Hn Hc) as H.
  destruct (truediv n c) as [q|e]; cbn [rbind] in H; [|discriminate].
  exists q. split; [reflexivity|assumption].
Qed.

Lemma sheet_tiles_length cropped_images k :
  0 <= k -> 0 < max_images_per_sheet ->
  k * max_images_per_sheet < len cropped_images ->
  len (sheet_tiles cropped_images k) =
  Z.min max_images_per_sheet (len cropped_images - k * max_images_per_sheet).
Proof.
  intros Hk HC Hlt. unfold sheet_tiles, len in *.
  rewrite length_firstn, length_skipn. lia.
Qed.

Lemma In_firstn {A} (l : list A) n x : In x (firstn n l) -> In x l.
Proof.
  intros H. rewrite <- (firstn_skipn n l). apply in_or_app. left. assumption.
Qed.

Lemma In_skipn {A} (l : list A) n x : In x (skipn n l) -> In x l.
Proof.
  intros H. rewrite <- (firstn_skipn n l). apply in_or_app. right. assumption.
Qed.

Lemma sheet_tiles_well_cropped cropped_images k :
  Forall well_cropped cropped_images ->
  Forall well_cropped (sheet_tiles cropped_images k).
Proof.
  intros H. rewrite Forall_forall in *. intros t Ht. apply H.
  unfold sheet_tiles in Ht. apply In_firstn in Ht.
  eapply In_skipn. exact Ht.
Qed.

Lemma Image_new_inv m w h color blank :
  Image_new m (w, h) color = Ok blank ->
  blank = {| mode := m; width := w; height := h;
             getpixel := fun _ _ => color |}.
Proof.
  unfold Image_new. destruct (_ || _); [discriminate|].
  destruct (_ || _); [discriminate|]. destruct (_ <? _); [discriminate|].
  intros H. injection H as <-. reflexivity.
Qed.

Lemma Image_new_canvas n blank :
  Image_new "RGBA"
    (crop_width * columns, crop_height * ceil_div n columns) (0, 0, 0, 0)
  = Ok blank ->
  blank = canvas n.
Proof.
  intros H. apply Image_new_inv in H. exact H.
Qed.

Lemma Image_new_canvas_ok n :
  0 <= crop_width * columns <= INT_MAX / 4 - 1 ->
  0 <= crop_height * ceil_div n columns <= INT_MAX ->
  Image_new "RGBA"
    (crop_width * columns, crop_height * ceil_div n columns) (0, 0, 0, 0)
  = Ok (canvas n).
Proof.
  intros Hw Hh. unfold Image_new.
  assert (Hquarter : INT_MAX / 4 - 1 <= INT_MAX) by (vm_compute; discriminate).
  destruct (Z.ltb_spec (crop_width * columns) 0); [lia|].
  destruct (Z.ltb_spec (crop_height * ceil_div n columns) 0); [lia|].
  destruct (Z.ltb_spec INT_MAX (crop_width * columns)); [lia|].
  destruct (Z.ltb_spec INT_MAX (crop_height * ceil_div n columns)); [lia|].
  destruct (Z.ltb_spec (INT_MAX / 4 - 1) (crop_width * columns)); [lia|].
  reflexivity.
Qed.

(** One turn of the sheet loop, up to what [Image.new] answers. *)
Lemma make_sheet_eq cropped_images k :
  0 < columns -> 0 < rows -> max_images_per_sheet < 2 ^ 53 ->
  0 <= k -> k * max_images_per_sheet < len cropped_images ->
  make_sheet cropped_images (k * max_images_per_sheet) =
  rbind
    (Image_new "RGBA"
       (crop_width * columns,
        crop_height * ceil_div (len (sheet_tiles cropped_images k)) columns)
       (0, 0, 0, 0))
    (fun blank =>
       Ok (paste_all blank (enumerate (sheet_tiles cropped_images k)),
           sheet_filename (k + 1))).
Proof.
  intros Hc Hr Hcap Hk Hlt.
  assert (HC : 0 < max_images_per_sheet) by (unfold max_images_per_sheet; nia).
  assert (Hcols : columns <= max_images_per_sheet)
    by (unfold max_images_per_sheet; nia).
  unfold make_sheet.
  rewrite slice_window by lia. fold (sheet_tiles cropped_images k).
  pose proof (sheet_tiles_length cropped_images k Hk HC Hlt) as Hlen.
  set (sheet_images := sheet_tiles cropped_images k) in *.
  destruct (truediv_ceil_ok (len sheet_images) columns) as (q & -> & Hq);
    [lia | lia |].
  cbn [rbind]. rewrite Hq. cbn [rbind].
  destruct (Image_new _ _ _) as [blank|e]; [|reflexivity].
  cbn [rbind]. rewrite paste_tiles_ok by lia. cbn [rbind].
  unfold floordiv. destruct (Z.eqb_spec max_images_per_sheet 0); [lia|].
  cbn [rbind]. rewrite Z.div_mul by lia. reflexivity.
Qed.

Lemma make_sheet_ok cropped_images k :
  0 < columns -> 0 < rows -> max_images_per_sheet < 2 ^ 53 ->
  canvas_fits ->
  Forall well_cropped cropped_images ->
  0 <= k -> k * max_images_per_sheet < len cropped_images ->
  make_sheet cropped_images (k * max_images_per_sheet) =
  Ok (sheet_of cropped_images k).
Proof.
  intros Hc Hr Hcap [Hfw Hfh] Hwc Hk Hlt.
  assert (HC : 0 < max_images_per_sheet) by (unfold max_images_per_sheet; nia).
  rewrite make_sheet_eq by assumption.
  pose proof (sheet_tiles_length cropped_images k Hk HC Hlt) as Hlen.
  unfold sheet_of. set (sheet_images := sheet_tiles cropped_images k) in *.
  assert (Hdims : 0 <= crop_width /\ 0 <= crop_height).
  { destruct cropped_images as [|t ?]; [cbn in Hlt; lia|].
    inversion Hwc as [|? ? (_ & _ & ? & ?) _]. split; assumption. }
  pose proof (ceil_div_pos (len sheet_images) columns Hc ltac:(lia)) as Hpos.
  pose proof (ceil_div_bounds (len sheet_images) columns Hc) as Hb.
  assert (Hle : ceil_div (len sheet_images) columns <= rows).
  { assert (Hlt' : (ceil_div (len sheet_images) columns - 1) * columns
                   < rows * columns)
      by (unfold max_images_per_sheet in *; lia).
    apply Z.mul_lt_mono_pos_r in Hlt'; lia. }
  rewrite Image_new_canvas_ok by nia. reflexivity.
Qed.

Lemma make_sheet_inv cropped_images k s :
  0 < columns -> 0 < rows -> max_images_per_sheet < 2 ^ 53 ->
  0 <= k -> k * max_images_per_sheet < len cropped_images ->
  make_sheet cropped_images (k * max_images_per_sheet) = Ok s ->
  s = sheet_of cropped_images k /\
  let n := len (sheet_tiles cropped_images k) in
  Image_new "RGBA"
    (crop_width * columns, crop_height * ceil_div n columns) (0, 0, 0, 0)
  = Ok (canvas n).
Proof.
  intros Hc Hr Hcap Hk Hlt H. rewrite make_sheet_eq in H by assumption.
  cbv zeta.
  destruct (Image_new _ _ _) as [blank|e] eqn:Hnew; [|discriminate].
  apply Image_new_canvas in Hnew. subst blank.
  cbn [rbind] in H. injection H as <-. split; reflexivity.
Qed.

Lemma Forall2_map_both {A B C} (P : B -> C -> Prop) (f : A -> B) (g : A -> C) l :
  (forall x, In x l -> P (f x) (g x)) -> Forall2 P (map f l) (map g l).
Proof.
  induction l as [|x l IH]; intros H; cbn [map]; constructor.
  - apply H. left. reflexivity.
  - apply IH. intros y Hy. apply H. right. assumption.
Qed.

(** With positive [columns] and [rows] and canvases that fit, the sheet loop
    succeeds and yields the sheets number 0, 1, ... in this order. *)
Lemma make_sheets_ok cropped_images :
  0 < columns -> 0 < rows -> max_images_per_sheet < 2 ^ 53 ->
  canvas_fits ->
  Forall well_cropped cropped_images ->
  make_sheets cropped_images =
  Ok (map (fun k => sheet_of cropped_images (Z.of_nat k))
        (seq 0 (Z.to_nat
                  (ceil_div (len cropped_images) max_images_per_sheet)))).
Proof.
  intros Hc Hr Hcap Hfit Hwc.
  assert (HC : 0 < max_images_per_sheet) by (unfold max_images_per_sheet; nia).
  unfold make_sheets. rewrite range_starts by assumption. cbn [rbind].
  apply (rfold_collect (make_sheet cropped_images) _ _ []).
  apply Forall2_map_both. intros k Hk. apply in_seq in Hk.
  apply make_sheet_ok; try assumption; [lia|].
  pose proof (ceil_div_bounds (len cropped_images) max_images_per_sheet HC).
  nia.
Qed.

(** Whenever the sheet loop returns, with positive [columns] and [rows], it
    returns the sheets number 0, 1, ... in this order, and [Image.new] has
    handed out the canvas of each. *)
Lemma make_sheets_inv cropped_images sheets :
  0 < columns -> 0 < rows -> max_images_per_sheet < 2 ^ 53 ->
  make_sheets cropped_images = Ok sheets ->
  let n := Z.to_nat (ceil_div (len cropped_images) max_images_per_sheet) in
  sheets = map (fun k => sheet_of cropped_images (Z.of_nat k)) (seq 0 n) /\
  forall k, (k < n)%nat ->
    let m := len (sheet_tiles cropped_images (Z.of_nat k)) in
    Image_new "RGBA"
      (crop_width * columns, crop_height * ceil_div m columns) (0, 0, 0, 0)
    = Ok (canvas m).
Proof.
  intros Hc Hr Hcap H.
  assert (HC : 0 < max_images_per_sheet) by (unfold max_images_per_sheet; nia).
  unfold make_sheets in H. rewrite range_starts in H by assumption.
  cbn [rbind] in H. apply rfold_collect_inv in H.
  destruct H as (ys & -> & HF). rewrite app_nil_l. cbv zeta.
  pose proof (ceil_div_bounds (len cropped_images) max_images_per_sheet HC)
    as Hb.
  set (n := Z.to_nat (ceil_div (len cropped_images) max_images_per_sheet))
    in *.
  assert (Hn : forall k, In k (seq 0 n) ->
                 Z.of_nat k * max_images_per_sheet < len cropped_images).
  { intros k Hk. apply in_seq in Hk. nia. }
  assert (Hall : ys = map (fun k => sheet_of cropped_images (Z.of_nat k))
                        (seq 0 n) /\
                 forall k, In k (seq 0 n) ->
                   Image_new "RGBA"
                     (crop_width * columns,
                      crop_height *
                      ceil_div (len (sheet_tiles cropped_images (Z.of_nat k)))
                        columns) (0, 0, 0, 0)
                   = Ok (canvas (len (sheet_tiles cropped_images
                                        (Z.of_nat k))))).
  { clear Hb. revert ys HF Hn. generalize (seq 0 n) as ks.
    induction ks as [|k ks IH]; intros ys HF Hn; inversion HF; subst.
    - split; [reflexivity|]. intros k [].
    - destruct (IH _ H3) as [-> Hnew].
      { intros j Hj. apply Hn. right. assumption. }
      destruct (make_sheet_inv cropped_images (Z.of_nat k) y Hc Hr Hcap)
        as [-> Hk]; [lia | apply Hn; left; reflexivity | assumption |].
      split; [reflexivity|].
      intros j [<-|Hj]; [exact Hk | apply Hnew; assumption]. }
  destruct Hall as [-> Hnew]. split; [reflexivity|].
  intros k Hk. apply Hnew. apply in_seq. lia.
Qed.

(** Whatever the parameters, a sheet that was made carries the name of its
    number. *)
Lemma make_sheet_filename cropped_images sheet_index s :
  make_sheet cropped_images sheet_index = Ok s ->
  max_images_per_sheet <> 0 /\
  snd s = sheet_filename (sheet_index / max_images_per_sheet + 1).
Proof.
  unfold make_sheet. intros H.
  destruct (truediv _ columns); cbn [rbind] in H; [|discriminate].
  destruct (math_ceil _); cbn [rbind] in H; [|discriminate].
  destruct (Image_new _ _ _); cbn [rbind] in H; [|discriminate].
  destruct (rfold _ _ _); cbn [rbind] in H; [|discriminate].
  unfold floordiv in H.
  destruct (Z.eqb_spec max_images_per_sheet 0); cbn [rbind] in H;
    [discriminate|].
  injection H as <-. split; [assumption|reflexivity].
Qed.

Lemma Forall2_length_eq {A B} (P : A -> B -> Prop) l l' :
  Forall2 P l l' -> List.length l = List.length l'.
Proof. induction 1; cbn; congruence. Qed.

Lemma Forall2_map_snd {A B C} (f : A -> C) (l : list A) (l' : list (B * C)) :
  Forall2 (fun x y => snd y = f x) l l' -> map snd l' = map f l.
Proof. induction 1; cbn [map]; congruence. Qed.

(** The names of the sheets of any run that returns: sheet number [k]
    (counting from 0) is named after [k + 1]. *)
Lemma make_sheets_filenames cropped_images sheets :
  make_sheets cropped_images = Ok sheets ->
  map snd sheets =
  map (fun k => sheet_filename (Z.of_nat k + 1)) (seq 0 (List.length sheets)).
Proof.
  unfold make_sheets. intros H.
  destruct (Z_lt_le_dec 0 max_images_per_sheet) as [HC|HC].
  - rewrite range_starts in H by assumption. cbn [rbind] in H.
    apply rfold_collect_inv in H. destruct H as (ys & -> & HF).
    rewrite !app_nil_l. pose proof (Forall2_length_eq _ _ _ HF) as Hlen.
    rewrite length_map, length_seq in Hlen. rewrite <- Hlen.
    rewrite (Forall2_map_snd
               (fun i => sheet_filename (i / max_images_per_sheet + 1))
               (map (fun k => Z.of_nat k * max_images_per_sheet)
                    (seq 0 (Z.to_nat (ceil_div (len cropped_images)
                                        max_images_per_sheet)))) ys).
    + rewrite map_map. apply map_ext. intros k.
      rewrite Z.div_mul by lia. reflexivity.
    + eapply Forall2_impl; [|exact HF].
      intros i s Hs. apply make_sheet_filename in Hs. apply Hs.
  - destruct (Z.eq_dec max_images_per_sheet 0) as [H0|H0].
    + unfold range in H. rewrite H0 in H. discriminate.
    + rewrite range_nonpos_step in H by (unfold len; lia).
      injection H as <-. reflexivity.
Qed.

(** *** The image loop *)

Lemma appends_ret {A} (a : A) : appends (ret a).
Proof. intros log. cbn. rewrite app_nil_r. reflexivity. Qed.

Lemma appends_lift {A} (r : result A) : appends (lift r).
Proof. intros log. cbn. rewrite app_nil_r. reflexivity. Qed.

Lemma appends_show n : appends (show n).
Proof. intros log. reflexivity. Qed.

Lemma appends_bind {A B} (c : St A) (k : A -> St B) :
  appends c -> (forall a, appends (k a)) -> appends (bind c k).
Proof.
  intros Hc Hk log. unfold bind. rewrite (Hc log).
  destruct (c []) as [[a|e] shown]; cbn [fst snd].
  - rewrite (Hk a (log ++ shown)), (Hk a shown). cbn [fst snd].
    rewrite app_assoc. reflexivity.
  - reflexivity.
Qed.

Lemma appends_try_except {A} (c : St A) (h : exn -> St A) :
  appends c -> (forall e, appends (h e)) -> appends (try_except c h).
Proof.
  intros Hc Hh log. unfold try_except. rewrite (Hc log).
  destruct (c []) as [[a|e] shown]; cbn [fst snd].
  - reflexivity.
  - rewrite (Hh e (log ++ shown)), (Hh e shown). cbn [fst snd].
    rewrite app_assoc. reflexivity.
Qed.

#[local] Hint Resolve appends_ret appends_lift appends_show : appends.
#[local] Hint Extern 2 (appends (bind _ _)) =>
  (apply appends_bind; [|intro]) : appends.

Lemma appends_load_image f : appends (load_image f).
Proof.
  unfold load_image.
  apply appends_bind; [auto with appends|]. intros img.
  cbv zeta. unfold size.
  destruct (_ >? max_width); auto 10 with appends.
Qed.

#[local] Hint Resolve appends_load_image : appends.

Lemma appends_crop_image f : appends (crop_image f).
Proof.
  unfold crop_image.
  apply appends_bind; [auto with appends|]. intros [[img w] h].
  destruct (too_small w h); auto with appends.
Qed.

(** One turn of the loop never raises: it appends the tile of the upload,
    if it has one, and shows its notices. *)
Lemma crop_step_eq cropped_images f log :
  crop_step cropped_images f log =
  (Ok (cropped_images ++ new_tiles f), log ++ notices_of f).
Proof.
  unfold crop_step, try_except, bind, new_tiles, notices_of.
  rewrite (appends_crop_image f log).
  destruct (crop_image f []) as [[[t|]|e] shown]; cbn [fst snd ret show].
  - reflexivity.
  - rewrite app_nil_r. reflexivity.
  - rewrite app_nil_r, app_assoc. reflexivity.
Qed.

Lemma for_each_crop_step files : forall cropped_images log,
  for_each files crop_step cropped_images log =
  (Ok (cropped_images ++ flat_map new_tiles files),
   log ++ flat_map notices_of files).
Proof.
  induction files as [|f files IH]; intros cropped_images log.
  - cbn. rewrite !app_nil_r. reflexivity.
  - cbn [for_each flat_map]. unfold bind. rewrite crop_step_eq, IH.
    rewrite <- !app_assoc. reflexivity.
Qed.

(** The image loop never raises. *)
Lemma crop_images_eq files log :
  crop_images files log =
  (Ok (flat_map new_tiles files), log ++ flat_map notices_of files).
Proof. unfold crop_images. rewrite for_each_crop_step. reflexivity. Qed.

Lemma process_images_eq files log :
  process_images files log =
  (make_sheets (flat_map new_tiles files), log ++ flat_map notices_of files).
Proof.
  unfold process_images, bind. rewrite crop_images_eq. reflexivity.
Qed.

(** What [load_image] returns: the image with its own size, after at most
    one notice, which tells of a resize. *)
Lemma load_image_inv f log img w h log' :
  load_image f log = (Ok (img, w, h), log') ->
  w = width img /\ h = height img /\
  (log' = log \/
   exists w0 h0, log' = log ++ [info_resized (name f) w0 h0 w h]).
Proof.
  unfold load_image, bind, lift, ret, show.
  destruct (Image_open f) as [img0|]; [|discriminate].
  cbv zeta. unfold size.
  set (img1 := if String.eqb (mode img0) "RGBA" then img0
               else Image_convert img0 "RGBA").
  destruct (width img1 >? max_width).
  - destruct (truediv max_width (width img1)) as [ratio|]; [|discriminate].
    destruct (rbind (mul_int_float (height img1) ratio) int_of_float)
      as [new_height|]; [|discriminate].
    unfold Image_resize.
    destruct ((max_width <? 1) || (new_height <? 1)); [discriminate|].
    intros H. injection H as <- <- <- <-.
    repeat split. right. eauto.
  - intros H. injection H as <- <- <- <-. repeat split. left. reflexivity.
Qed.

Lemma crop_box_eq w :
  crop_box w =
  (w / 2 - crop_width / 2 + x_offset, 20,
   w / 2 - crop_width / 2 + x_offset + crop_width, 20 + crop_height).
Proof. reflexivity. Qed.

Lemma too_small_false w h :
  too_small w h = false <->
  0 <= w / 2 - crop_width / 2 + x_offset /\
  w / 2 - crop_width / 2 + x_offset + crop_width <= w /\
  20 + crop_height <= h.
Proof.
  unfold too_small. rewrite crop_box_eq.
  rewrite !orb_false_iff, Z.ltb_ge, !Z.gtb_ltb, !Z.ltb_ge. tauto.
Qed.

(** What [crop_image] went through when it hands out a tile. *)
Lemma crop_image_inv f log t log' :
  crop_image f log = (Ok (Some t), log') ->
  exists img,
    load_image f log = (Ok (img, width img, height img), log') /\
    too_small (width img) (height img) = false /\
    Image_crop img (crop_box (width img)) = Ok t.
Proof.
  unfold crop_image, bind at 1.
  destruct (load_image f log) as [[[[img w] h]|e] log1] eqn:Hload;
    [|discriminate].
  destruct (load_image_inv _ _ _ _ _ _ Hload) as (-> & -> & _).
  destruct (too_small (width img) (height img)) eqn:Hsmall.
  - cbn. discriminate.
  - unfold bind, lift, ret.
    destruct (Image_crop img (crop_box (width img))) as [t'|] eqn:Hcrop;
      [|discriminate].
    intros H. injection H as <- <-. exists img. repeat split; assumption.
Qed.

Lemma Image_crop_inv img x0 y0 x1 y1 t :
  Image_crop img (x0, y0, x1, y1) = Ok t ->
  x0 <= x1 /\ y0 <= y1 /\
  width t = x1 - x0 /\ height t = y1 - y0 /\
  forall x y,
    getpixel t x y =
    if inside img (x0 + x) (y0 + y) then getpixel img (x0 + x) (y0 + y)
    else (0, 0, 0, 0).
Proof.
  unfold Image_crop.
  destruct (Z.ltb_spec x1 x0); [discriminate|].
  destruct (Z.ltb_spec y1 y0); [discriminate|].
  intros Heq. injection Heq as <-. repeat split; assumption.
Qed.

Lemma crop_well_cropped img w t :
  Image_crop img (crop_box w) = Ok t -> well_cropped t.
Proof.
  rewrite crop_box_eq. intros H. apply Image_crop_inv in H.
  destruct H as (H1 & H2 & Hw & Hh & _). unfold well_cropped.
  rewrite Hw, Hh. repeat split; lia.
Qed.

Lemma new_tiles_well_cropped f : Forall well_cropped (new_tiles f).
Proof.
  unfold new_tiles.
  destruct (crop_image f []) as [[[t|]|e] shown] eqn:H; cbn [fst];
    constructor; [|constructor].
  apply crop_image_inv in H. destruct H as (img & _ & _ & Hcrop).
  eapply crop_well_cropped. exact Hcrop.
Qed.

Lemma cropped_images_well_cropped files :
  Forall well_cropped (flat_map new_tiles files).
Proof.
  induction files as [|f files IH]; cbn [flat_map]; [constructor|].
  apply Forall_app. split; [apply new_tiles_well_cropped | assumption].
Qed.

(** ** The claims about the image loop *)

(** C1. An upload that is neither skipped nor failing hands out one tile, and
    that tile is the rectangle of its effective image with
    [left = width / 2 - crop_width / 2 + x_offset] (both divisions rounding
    down), [top = 20], [right = left + crop_width] and
    [bottom = top + crop_height]: it is [crop_width] wide, [crop_height] high,
    and its pixel [(x, y)] is the pixel [(left + x, top + y)] of the image.
    The loop appends exactly this tile. *)
Theorem tile_is_crop_rectangle f cropped_images log t log' :
  crop_image f log = (Ok (Some t), log') ->
  exists img,
    load_image f log = (Ok (img, width img, height img), log') /\
    crop_step cropped_images f log = (Ok (cropped_images ++ [t]), log') /\
    let left := width img / 2 - crop_width / 2 + x_offset in
    let top := 20 in
    let right := left + crop_width in
    let bottom := top + crop_height in
    Image_crop img (left, top, right, bottom) = Ok t /\
    width t = crop_width /\ height t = crop_height /\
    forall x y, 0 <= x < crop_width -> 0 <= y < crop_height ->
      getpixel t x y = getpixel img (left + x) (top + y).
Proof.
  intros H. destruct (crop_image_inv _ _ _ _ H) as (img & Hload & Hsmall & Hcrop).
  exists img. split; [assumption|]. split.
  { unfold crop_step, try_except, bind at 1. rewrite H. reflexivity. }
  cbv zeta. rewrite crop_box_eq in Hcrop. split; [assumption|].
  apply too_small_false in Hsmall. destruct Hsmall as (Hl & Hr & Hb).
  apply Image_crop_inv in Hcrop.
  destruct Hcrop as (_ & _ & Hw & Hh & Hpix).
  split; [lia|]. split; [lia|].
  intros x y Hx Hy. rewrite Hpix.
  replace (inside img _ _) with true; [reflexivity|].
  symmetry. unfold inside.
  split_comparisons; lia.
Qed.

(** C9. For an image that passes the size check, with a positive crop
    width and height, the crop box lies inside the image:
    [0 <= left], [right <= width], [0 <= top = 20 < bottom <= height],
    although the check never looks at the top edge.  So every pixel the crop
    reads is a pixel of the image, and the zero filling of [Image_crop] is
    never used. *)
Theorem crop_box_inside_image img x0 y0 x1 y1 :
  0 < crop_width -> 0 < crop_height ->
  too_small (width img) (height img) = false ->
  crop_box (width img) = (x0, y0, x1, y1) ->
  0 <= x0 /\ x1 <= width img /\
  0 <= y0 /\ y0 = 20 /\ y0 < y1 /\ y1 <= height img /\
  forall x y, 0 <= x < x1 - x0 -> 0 <= y < y1 - y0 ->
    inside img (x0 + x) (y0 + y) = true /\
    forall t, Image_crop img (x0, y0, x1, y1) = Ok t ->
      getpixel t x y = getpixel img (x0 + x) (y0 + y).
Proof.
  intros Hw Hh Hsmall Hbox.
  apply too_small_false in Hsmall. destruct Hsmall as (Hl & Hr & Hb).
  rewrite crop_box_eq in Hbox.
  set (left := width img / 2 - crop_width / 2 + x_offset) in *.
  assert (Hx0 : x0 = left) by congruence.
  assert (Hy0 : y0 = 20) by congruence.
  assert (Hx1 : x1 = left + crop_width) by congruence.
  assert (Hy1 : y1 = 20 + crop_height) by congruence.
  clear Hbox.
  do 6 (split; [lia|]).
  intros x y Hx Hy.
  assert (Hin : inside img (x0 + x) (y0 + y) = true).
  { unfold inside.
    split_comparisons; lia. }
  split; [assumption|].
  intros t Ht. apply Image_crop_inv in Ht.
  destruct Ht as (_ & _ & _ & _ & Hpix). rewrite Hpix, Hin. reflexivity.
Qed.

Lemma load_image_notices f img w h shown :
  load_image f [] = (Ok (img, w, h), shown) ->
  filter is_warning shown = [].
Proof.
  intros H. apply load_image_inv in H.
  destruct H as (_ & _ & [-> | (w0 & h0 & ->)]); reflexivity.
Qed.

Lemma process_images_without f pre post log :
  new_tiles f = [] ->
  fst (process_images (pre ++ f :: post) log) =
  fst (process_images (pre ++ post) log) /\
  snd (process_images (pre ++ f :: post) log) =
  snd (crop_images pre log) ++ notices_of f ++ snd (crop_images post []) /\
  exists cropped_images,
    fst (crop_images (pre ++ f :: post) log) = Ok cropped_images.
Proof.
  intros Hnone. rewrite !process_images_eq, !crop_images_eq. cbn [fst snd].
  rewrite !flat_map_app. cbn [flat_map]. rewrite Hnone. cbn [app].
  repeat split.
  - rewrite <- !app_assoc. reflexivity.
  - eexists. reflexivity.
Qed.

(** C3. An upload whose effective size fails the check
    [left >= 0 /\ right <= width /\ bottom <= height] adds no tile: the
    sheets are those of the batch without it, the notices of the batch are
    those of the uploads before it, then its own, then those of the uploads
    after it, and its own contain exactly one warning, which carries its
    name.  An upload whose processing raises is caught the same way, with one
    error notice carrying its name.  In both cases the image loop goes
    through all uploads and returns. *)
Theorem skipped_and_failed_uploads pre f post log :
  (forall img w h shown,
      load_image f [] = (Ok (img, w, h), shown) ->
      too_small w h = true ->
      let warning :=
        warning_too_small (name f) w h crop_width crop_height in
      fst (process_images (pre ++ f :: post) log) =
      fst (process_images (pre ++ post) log) /\
      snd (process_images (pre ++ f :: post) log) =
      snd (crop_images pre log) ++ (shown ++ [warning])
        ++ snd (crop_images post []) /\
      filter is_warning (shown ++ [warning]) = [warning] /\
      exists cropped_images,
        fst (crop_images (pre ++ f :: post) log) = Ok cropped_images) /\
  (forall e shown,
      crop_image f [] = (Raise e, shown) ->
      let error := error_processing (name f) e in
      fst (process_images (pre ++ f :: post) log) =
      fst (process_images (pre ++ post) log) /\
      snd (process_images (pre ++ f :: post) log) =
      snd (crop_images pre log) ++ (shown ++ [error])
        ++ snd (crop_images post []) /\
      exists cropped_images,
        fst (crop_images (pre ++ f :: post) log) = Ok cropped_images).
Proof.
  split.
  - intros img w h shown Hload Hsmall warning.
    assert (Hcrop : crop_image f [] = (Ok None, shown ++ [warning])).
    { unfold crop_image, bind at 1. rewrite Hload, Hsmall. reflexivity. }
    assert (Hnone : new_tiles f = []) by (unfold new_tiles; rewrite Hcrop; reflexivity).
    assert (Hnot : notices_of f = shown ++ [warning])
      by (unfold notices_of; rewrite Hcrop; reflexivity).
    destruct (process_images_without f pre post log Hnone) as (H1 & H2 & H3).
    rewrite Hnot in H2. repeat split; try assumption.
    rewrite filter_app, (load_image_notices _ _ _ _ _ Hload). reflexivity.
  - intros e shown Hcrop error.
    assert (Hnone : new_tiles f = []) by (unfold new_tiles; rewrite Hcrop; reflexivity).
    assert (Hnot : notices_of f = shown ++ [error])
      by (unfold notices_of; rewrite Hcrop; reflexivity).
    destruct (process_images_without f pre post log Hnone) as (H1 & H2 & H3).
    rewrite Hnot in H2. repeat split; assumption.
Qed.

(** ** The claims about the sheets *)

Lemma process_images_sheets files log :
  0 < columns -> 0 < rows -> max_images_per_sheet < 2 ^ 53 ->
  canvas_fits ->
  exists cropped_images log',
    crop_images files log = (Ok cropped_images, log') /\
    Forall well_cropped cropped_images /\
    process_images files log =
    (Ok (map (fun k => sheet_of cropped_images (Z.of_nat k))
           (seq 0 (Z.to_nat (ceil_div (len cropped_images)
                               max_images_per_sheet)))), log').
Proof.
  intros Hc Hr Hcap Hfit.
  exists (flat_map new_tiles files), (log ++ flat_map notices_of files).
  split; [apply crop_images_eq|].
  split; [apply cropped_images_well_cropped|].
  rewrite process_images_eq, make_sheets_ok; try assumption.
  - reflexivity.
  - apply cropped_images_well_cropped.
Qed.

(** What a run that returned has returned. *)
Lemma process_images_inv files log sheets log' :
  0 < columns -> 0 < rows -> max_images_per_sheet < 2 ^ 53 ->
  process_images files log = (Ok sheets, log') ->
  exists cropped_images,
    let n := Z.to_nat (ceil_div (len cropped_images) max_images_per_sheet) in
    crop_images files log = (Ok cropped_images, log') /\
    Forall well_cropped cropped_images /\
    sheets = map (fun k => sheet_of cropped_images (Z.of_nat k)) (seq 0 n) /\
    forall k, (k < n)%nat ->
      let m := len (sheet_tiles cropped_images (Z.of_nat k)) in
      Image_new "RGBA"
        (crop_width * columns, crop_height * ceil_div m columns) (0, 0, 0, 0)
      = Ok (canvas m).
Proof.
  intros Hc Hr Hcap Hrun. rewrite process_images_eq in Hrun.
  injection Hrun as Hmake <-.
  exists (flat_map new_tiles files). cbv zeta.
  split; [apply crop_images_eq|].
  split; [apply cropped_images_well_cropped|].
  apply make_sheets_inv; assumption.
Qed.

Lemma sheets_length cropped_images :
  0 < max_images_per_sheet ->
  len (map (fun k => sheet_of cropped_images (Z.of_nat k))
         (seq 0 (Z.to_nat (ceil_div (len cropped_images)
                             max_images_per_sheet))))
  = ceil_div (len cropped_images) max_images_per_sheet.
Proof.
  intros HC.
  assert (Hn : 0 <= ceil_div (len cropped_images) max_images_per_sheet).
  { destruct (Z.eq_dec (len cropped_images) 0) as [->|].
    - unfold ceil_div. cbn. lia.
    - pose proof (ceil_div_pos (len cropped_images) max_images_per_sheet HC
                    ltac:(unfold len in *; lia)). lia. }
  unfold len at 1. rewrite length_map, length_seq. lia.
Qed.

Lemma process_images_length files log cropped_images log' :
  0 < columns -> 0 < rows -> max_images_per_sheet < 2 ^ 53 ->
  canvas_fits ->
  crop_images files log = (Ok cropped_images, log') ->
  exists sheets,
    process_images files log = (Ok sheets, log') /\
    len sheets = ceil_div (len cropped_images) max_images_per_sheet.
Proof.
  intros Hc Hr Hcap Hfit Hcrop.
  destruct (process_images_sheets files log Hc Hr Hcap Hfit)
    as (tiles & log1 & Hcrop' & _ & Hrun).
  rewrite Hcrop in Hcrop'. injection Hcrop' as <- <-.
  assert (HC : 0 < max_images_per_sheet) by (unfold max_images_per_sheet; nia).
  eexists. split; [exact Hrun|]. apply sheets_length. assumption.
Qed.

(** The length of what a run that returned has returned. *)
Lemma process_images_returned_length files log cropped_images log' sheets log'' :
  0 < columns -> 0 < rows -> max_images_per_sheet < 2 ^ 53 ->
  crop_images files log = (Ok cropped_images, log') ->
  process_images files log = (Ok sheets, log'') ->
  log'' = log' /\
  len sheets = ceil_div (len cropped_images) max_images_per_sheet.
Proof.
  intros Hc Hr Hcap Hcrop Hrun.
  destruct (process_images_inv _ _ _ _ Hc Hr Hcap Hrun)
    as (tiles & Hcrop' & _ & -> & _).
  rewrite Hcrop in Hcrop'. injection Hcrop' as <- <-.
  split; [reflexivity|]. apply sheets_length.
  unfold max_images_per_sheet. nia.
Qed.

(** No tile, no sheet: the sheet loop has no turn, whatever the sizes. *)
Lemma process_images_no_tile files log cropped_images log' :
  max_images_per_sheet <> 0 ->
  crop_images files log = (Ok cropped_images, log') ->
  len cropped_images = 0 ->
  process_images files log = (Ok [], log').
Proof.
  intros HC Hcrop H0.
  assert (cropped_images = []) by (destruct cropped_images;
    [reflexivity | unfold len in H0; cbn in H0; lia]).
  subst cropped_images.
  rewrite crop_images_eq in Hcrop. injection Hcrop as Htiles <-.
  rewrite process_images_eq, Htiles.
  unfold make_sheets, range. cbn [len List.length Z.of_nat].
  destruct (Z.eqb_spec max_images_per_sheet 0); [contradiction|].
  destruct (0 <? max_images_per_sheet); reflexivity.
Qed.

(** Within the ranges of the sidebar every canvas fits. *)
Lemma sidebar_fits :
  sidebar_values ->
  0 < columns /\ 0 < rows /\ max_images_per_sheet < 2 ^ 53 /\ canvas_fits /\
  0 < crop_width /\ 0 < crop_height.
Proof.
  intros (Hw & Hh & Hc & Hr & _ & _).
  split; [lia|]. split; [lia|]. split; [|split; [|lia]].
  - unfold max_images_per_sheet.
    apply Z.le_lt_trans with (10 * 10); [|reflexivity].
    apply Z.mul_le_mono_nonneg; lia.
  - unfold canvas_fits. split.
    + apply Z.le_trans with (500 * 10); [|vm_compute; discriminate].
      apply Z.mul_le_mono_nonneg; lia.
    + apply Z.le_trans with (500 * 10); [|vm_compute; discriminate].
      apply Z.mul_le_mono_nonneg; lia.
Qed.

(** C2. With [N] tiles out of the image loop and the capacity
    [C = columns * rows], whenever [process_images] returns it returns
    exactly [ceil (N / C)] sheets; without a tile - for no upload at all, or
    when every upload is skipped or fails - it returns, and returns none;
    and within the ranges of the configuration layer it returns whatever the
    uploads are.  ([columns] and [rows] are positive; the capacity is below
    [2 ^ 53], where the binary64 quotient behind [math.ceil] still has the
    exact ceiling.  [Image.new] raises for a canvas beyond its limits, so
    the sheet loop does not return for every size.) *)
Theorem sheet_count files log cropped_images log' :
  0 < columns -> 0 < rows -> max_images_per_sheet < 2 ^ 53 ->
  crop_images files log = (Ok cropped_images, log') ->
  (forall sheets log'',
      process_images files log = (Ok sheets, log'') ->
      log'' = log' /\
      len sheets = ceil_div (len cropped_images) max_images_per_sheet /\
      (0 < len cropped_images ->
       (len sheets - 1) * max_images_per_sheet < len cropped_images
         <= len sheets * max_images_per_sheet)) /\
  (len cropped_images = 0 -> process_images files log = (Ok [], log')) /\
  ((forall f t shown, In f files ->
      crop_image f [] <> (Ok (Some t), shown)) ->
   process_images files log = (Ok [], log')) /\
  (sidebar_values ->
   exists sheets, process_images files log = (Ok sheets, log')).
Proof.
  intros Hc Hr Hcap Hcrop.
  assert (HC : 0 < max_images_per_sheet) by (unfold max_images_per_sheet; nia).
  split; [|split; [|split]].
  - intros sheets log'' Hrun.
    destruct (process_images_returned_length _ _ _ _ _ _ Hc Hr Hcap Hcrop Hrun)
      as [-> Hlen].
    split; [reflexivity|]. split; [exact Hlen|].
    intros Hpos. rewrite Hlen. apply ceil_div_bounds. assumption.
  - apply (process_images_no_tile _ _ cropped_images); [lia | assumption].
  - intros Hall.
    apply (process_images_no_tile _ _ cropped_images); [lia | assumption |].
    rewrite crop_images_eq in Hcrop. injection Hcrop as <- _.
    replace (flat_map new_tiles files) with (@nil Image); [reflexivity|].
    symmetry. clear - Hall. induction files as [|f files IH]; [reflexivity|].
    cbn [flat_map]. rewrite IH by (intros; apply Hall; right; assumption).
    rewrite app_nil_r. unfold new_tiles.
    destruct (crop_image f []) as [[[t|]|e] shown] eqn:E; cbn [fst];
      try reflexivity.
    exfalso. apply (Hall f t shown); [left; reflexivity | exact E].
  - intros Hside. destruct (sidebar_fits Hside) as (_ & _ & _ & Hfit & _).
    destruct (process_images_length files log _ _ Hc Hr Hcap Hfit Hcrop)
      as (sheets & Hrun & _).
    exists sheets. exact Hrun.
Qed.

Lemma nth_error_sheet_tiles cropped_images k i :
  0 <= k -> 0 <= i < max_images_per_sheet ->
  nth_error (sheet_tiles cropped_images k) (Z.to_nat i) =
  nth_error cropped_images (Z.to_nat (k * max_images_per_sheet + i)).
Proof.
  intros Hk Hi. unfold sheet_tiles.
  rewrite nth_error_firstn.
  destruct (Nat.ltb_spec (Z.to_nat i) (Z.to_nat max_images_per_sheet)); [|lia].
  rewrite nth_error_skipn. f_equal. nia.
Qed.

Lemma nth_error_sheets cropped_images n k s :
  nth_error (map (fun k => sheet_of cropped_images (Z.of_nat k)) (seq 0 n)) k
  = Some s ->
  (k < n)%nat /\ s = sheet_of cropped_images (Z.of_nat k).
Proof.
  rewrite nth_error_map, nth_error_seq.
  destruct (Nat.ltb_spec k n); cbn [option_map]; [|discriminate].
  intros Heq. injection Heq as <-. split; [assumption|reflexivity].
Qed.

(** C5. In a run that returned, in the sheet with number [k] (from 0), the
    tile with group-local index [i] - the tile number [k * C + i] of the
    image loop, so the tiles fill the grid left to right, top to bottom, in
    input order - sits at [x = (i mod columns) * crop_width],
    [y = (i div columns) * crop_height]: every pixel [(u, v)] of the tile is
    found at [(x + u, y + v)] of the sheet, composited once, under its own
    alpha, over the transparent background. *)
Theorem tile_placement files log cropped_images log' sheets log'' k i tile :
  0 < columns -> 0 < rows -> max_images_per_sheet < 2 ^ 53 ->
  crop_images files log = (Ok cropped_images, log') ->
  process_images files log = (Ok sheets, log'') ->
  0 <= k -> 0 <= i < max_images_per_sheet ->
  nth_error cropped_images (Z.to_nat (k * max_images_per_sheet + i))
    = Some tile ->
  exists sheet filename,
    nth_error sheets (Z.to_nat k) = Some (sheet, filename) /\
    let x := i mod columns * crop_width in
    let y := i / columns * crop_height in
    forall u v, 0 <= u < crop_width -> 0 <= v < crop_height ->
      getpixel sheet (x + u) (y + v) =
      composite (alpha (getpixel tile u v)) (0, 0, 0, 0) (getpixel tile u v).
Proof.
  intros Hc Hr Hcap Hcrop Hrun Hk Hi Hnth.
  destruct (process_images_inv _ _ _ _ Hc Hr Hcap Hrun)
    as (tiles & Hcrop' & Hwc & -> & _).
  rewrite Hcrop in Hcrop'. injection Hcrop' as <- _.
  assert (HC : 0 < max_images_per_sheet) by (unfold max_images_per_sheet; nia).
  assert (Hlt : k * max_images_per_sheet + i < len cropped_images).
  { assert (Hsome : nth_error cropped_images
                      (Z.to_nat (k * max_images_per_sheet + i)) <> None)
      by congruence.
    apply nth_error_Some in Hsome. unfold len. nia. }
  pose proof (ceil_div_bounds (len cropped_images) max_images_per_sheet HC)
    as Hceil.
  assert (Hksheets : k < ceil_div (len cropped_images) max_images_per_sheet)
    by nia.
  set (sheet_images := sheet_tiles cropped_images k).
  exists (paste_all (canvas (len sheet_images)) (enumerate sheet_images)),
    (sheet_filename (k + 1)).
  split.
  { rewrite nth_error_map, nth_error_seq.
    destruct (Nat.ltb_spec (Z.to_nat k)
                (Z.to_nat (ceil_div (len cropped_images) max_images_per_sheet)));
      [|lia].
    cbn [option_map Nat.add]. rewrite Z2Nat.id by lia. reflexivity. }
  cbv zeta. intros u v Hu Hv.
  assert (Hin : nth_error sheet_images (Z.to_nat i) = Some tile).
  { subst sheet_images. rewrite nth_error_sheet_tiles by lia. assumption. }
  assert (Hlen : i < len sheet_images).
  { assert (Hsome : nth_error sheet_images (Z.to_nat i) <> None) by congruence.
    apply nth_error_Some in Hsome. unfold len. lia. }
  pose proof (paste_all_pixel (enumerate sheet_images) i tile u v
                (canvas (len sheet_images)) Hc) as Hpix.
  unfold tile_origin in Hpix. cbn [fst snd] in Hpix.
  rewrite Hpix; try assumption.
  - reflexivity.
  - apply Forall_forall. intros e He.
    pose proof (sheet_tiles_well_cropped cropped_images k Hwc) as Hall.
    rewrite Forall_forall in Hall.
    destruct (Hall (snd e)) as (Hw & Hh & _).
    + change (In (snd e) sheet_images).
      unfold enumerate in He.
      rewrite <- (enumerate_from_snd sheet_images 0).
      apply in_map. assumption.
    + split; assumption.
  - apply enumerate_NoDup.
  - unfold enumerate.
    replace i with (0 + Z.of_nat (Z.to_nat i)) at 1 by lia.
    apply enumerate_nth. assumption.
  - unfold inside, canvas. cbn [width height].
    pose proof (Z.mod_pos_bound i columns Hc).
    pose proof (Z.div_mod i columns ltac:(lia)).
    pose proof (ceil_div_bounds (len sheet_images) columns Hc).
    assert (0 <= i / columns) by (apply Z.div_pos; lia).
    assert (i / columns < ceil_div (len sheet_images) columns) by nia.
    split_comparisons; nia.
Qed.

(** C6. Every sheet of a run that returned is [crop_width * columns] wide
    and [crop_height * ceil (n / columns)] high, [n] being the number of its
    tiles, and it is what the pastes of its tiles make of a canvas of that
    size that [Image.new] has handed out with every pixel fully transparent;
    a pixel in the grid cell of none of the [n] tiles is still transparent
    in the sheet. *)
Theorem sheet_dimensions files log cropped_images log' sheets log'' :
  0 < columns -> 0 < rows -> max_images_per_sheet < 2 ^ 53 ->
  crop_images files log = (Ok cropped_images, log') ->
  process_images files log = (Ok sheets, log'') ->
  forall k sheet filename,
    nth_error sheets k = Some (sheet, filename) ->
    let sheet_images := sheet_tiles cropped_images (Z.of_nat k) in
    let n := len sheet_images in
    0 < n <= max_images_per_sheet /\
    n = Z.min max_images_per_sheet
          (len cropped_images - Z.of_nat k * max_images_per_sheet) /\
    width sheet = crop_width * columns /\
    height sheet = crop_height * ceil_div n columns /\
    exists blank,
      Image_new "RGBA" (crop_width * columns, crop_height * ceil_div n columns)
        (0, 0, 0, 0) = Ok blank /\
      (forall x y, getpixel blank x y = (0, 0, 0, 0)) /\
      rfold (enumerate sheet_images) paste_tile blank = Ok sheet /\
      forall x y,
        (forall i, 0 <= i < n ->
           ~ (i mod columns * crop_width <= x
                < i mod columns * crop_width + crop_width /\
              i / columns * crop_height <= y
                < i / columns * crop_height + crop_height)) ->
        getpixel sheet x y = (0, 0, 0, 0).
Proof.
  intros Hc Hr Hcap Hcrop Hrun.
  destruct (process_images_inv _ _ _ _ Hc Hr Hcap Hrun)
    as (tiles & Hcrop' & Hwc & -> & Hnew).
  rewrite Hcrop in Hcrop'. injection Hcrop' as <- _.
  assert (HC : 0 < max_images_per_sheet) by (unfold max_images_per_sheet; nia).
  intros k sheet filename Hnth. apply nth_error_sheets in Hnth.
  destruct Hnth as [Hk Hs]. unfold sheet_of in Hs. injection Hs as -> ->.
  specialize (Hnew k Hk). cbv zeta in Hnew |- *.
  pose proof (ceil_div_bounds (len cropped_images) max_images_per_sheet HC)
    as Hceil.
  assert (Hlt : Z.of_nat k * max_images_per_sheet < len cropped_images) by nia.
  pose proof (sheet_tiles_length cropped_images (Z.of_nat k)
                ltac:(lia) HC Hlt) as Hlen.
  set (sheet_images := sheet_tiles cropped_images (Z.of_nat k)) in *.
  split; [lia|]. split; [exact Hlen|].
  destruct (paste_all_size (enumerate sheet_images) (canvas (len sheet_images)))
    as (Hw & Hh & _).
  split; [rewrite Hw; reflexivity|]. split; [rewrite Hh; reflexivity|].
  exists (canvas (len sheet_images)).
  split; [exact Hnew|]. split; [|split].
  - reflexivity.
  - apply paste_tiles_ok. lia.
  - intros x y Hfree. rewrite paste_all_untouched; [reflexivity|].
    intros e He. apply enumerate_In in He. destruct He as [Hi Hin].
    pose proof (sheet_tiles_well_cropped cropped_images (Z.of_nat k) Hwc)
      as Hall.
    rewrite Forall_forall in Hall. destruct (Hall (snd e) Hin) as (Hw' & Hh' & _).
    specialize (Hfree (fst e) ltac:(lia)).
    unfold inside, tile_origin. cbn [fst snd]. rewrite Hw', Hh'.
    apply not_true_is_false. intros Hcov. apply Hfree.
    repeat (apply andb_prop in Hcov; destruct Hcov as [Hcov ?]).
    rewrite ?Z.leb_le, ?Z.ltb_lt in *. lia.
Qed.

(** ** The claims about the file names *)

Lemma format_02d_two_digits n :
  0 <= n <= 99 -> format_02d n = two_digits n.
Proof.
  intros Hn.
  assert (Hall : forallb
            (fun k => String.eqb (format_02d (Z.of_nat k))
                        (two_digits (Z.of_nat k)))
            (seq 0 100) = true) by (vm_compute; reflexivity).
  rewrite forallb_forall in Hall.
  specialize (Hall (Z.to_nat n)). rewrite Z2Nat.id in Hall by lia.
  apply String.eqb_eq. apply Hall. apply in_seq. lia.
Qed.

Lemma short_numeral_small d :
  (String.length (NilEmpty.string_of_uint d) <= 2)%nat ->
  (N.of_uint d < 100)%N.
Proof.
  intros H.
  destruct d as [|d|d|d|d|d|d|d|d|d|d]; try (cbn; lia);
    (destruct d as [|d|d|d|d|d|d|d|d|d|d]; try (cbn; lia));
    destruct d as [|d|d|d|d|d|d|d|d|d|d]; try (cbn; lia);
    cbn in H; lia.
Qed.

Lemma digits_length n : (100 <= n)%N -> (3 <= String.length (digits n))%nat.
Proof.
  intros Hn. unfold digits.
  destruct (Nat.le_gt_cases 3 (String.length
              (NilEmpty.string_of_uint (N.to_uint n)))) as [|Hshort];
    [assumption|].
  pose proof (short_numeral_small (N.to_uint n) ltac:(lia)) as H.
  rewrite DecimalN.Unsigned.of_to in H. lia.
Qed.

Lemma zfill_long width s :
  (width <= String.length s)%nat -> zfill width s = s.
Proof.
  intros H. unfold zfill.
  replace (width - String.length s)%nat with 0%nat by lia. reflexivity.
Qed.

Lemma format_02d_long n : 100 <= n -> format_02d n = digits (Z.to_N n).
Proof.
  intros Hn. destruct n as [|p|p]; try lia. unfold format_02d.
  apply zfill_long. pose proof (digits_length (Z.to_N (Zpos p)) ltac:(lia)). lia.
Qed.

Lemma nth_error_filename cropped_images sheets k sheet filename :
  make_sheets cropped_images = Ok sheets ->
  nth_error sheets k = Some (sheet, filename) ->
  filename = sheet_filename (Z.of_nat k + 1).
Proof.
  intros Hrun Hnth. apply make_sheets_filenames in Hrun.
  assert (H : nth_error (map snd sheets) k = Some filename)
    by (rewrite nth_error_map, Hnth; reflexivity).
  rewrite Hrun, nth_error_map, nth_error_seq in H.
  destruct (Nat.ltb_spec k (List.length sheets)); cbn [option_map Nat.add] in H;
    [|discriminate].
  congruence.
Qed.

(** C7, as amended.  The first sheet is named ["Emo_sheet.png"]; the sheet
    with number [k] from 2 to 99 is named ["Emo_sheet_"], the two decimal
    digits of [k] (the first a zero below ten), then [".png"]; from the
    hundredth sheet on the suffix is the plain decimal numeral of [k], which
    has three digits or more. *)
Theorem sheet_names files log sheets log' k sheet filename :
  process_images files log = (Ok sheets, log') ->
  nth_error sheets k = Some (sheet, filename) ->
  let number := Z.of_nat k + 1 in
  (number = 1 -> filename = "Emo_sheet.png") /\
  (2 <= number <= 99 ->
   filename =
   String.append "Emo_sheet_" (String.append (two_digits number) ".png")) /\
  (100 <= number ->
   filename =
   String.append "Emo_sheet_"
     (String.append (digits (Z.to_N number)) ".png") /\
   (3 <= String.length (digits (Z.to_N number)))%nat).
Proof.
  intros Hrun Hnth number.
  rewrite process_images_eq in Hrun. injection Hrun as Hrun _.
  pose proof (nth_error_filename _ _ _ _ _ Hrun Hnth) as Hname.
  fold number in Hname. unfold sheet_filename in Hname.
  repeat split.
  - intros H1. rewrite H1 in Hname. exact Hname.
  - intros H2. destruct (Z.eqb_spec number 1); [lia|].
    rewrite format_02d_two_digits in Hname by lia. exact Hname.
  - destruct (Z.eqb_spec number 1); [lia|].
    rewrite format_02d_long in Hname by lia. exact Hname.
  - apply digits_length. lia.
Qed.

Lemma length_append s1 s2 :
  String.length (String.append s1 s2) =
  (String.length s1 + String.length s2)%nat.
Proof. induction s1 as [|a s1 IH]; cbn; [reflexivity|]. rewrite IH. reflexivity. Qed.

Lemma append_cancel_r s1 : forall s2 t,
  String.append s1 t = String.append s2 t -> s1 = s2.
Proof.
  induction s1 as [|a s1 IH]; intros [|b s2] t H.
  - reflexivity.
  - apply (f_equal String.length) in H. cbn in H. rewrite length_append in H. lia.
  - apply (f_equal String.length) in H. cbn in H. rewrite length_append in H. lia.
  - cbn in H. injection H as -> H. f_equal. eapply IH. exact H.
Qed.

Lemma parse_decimal_digits n : parse_decimal (digits n) = Some n.
Proof.
  unfold parse_decimal, digits. rewrite NilEmpty.usu. cbn [option_map].
  rewrite DecimalN.Unsigned.of_to. reflexivity.
Qed.

Lemma parse_decimal_zeros k s :
  parse_decimal (String.append (zeros k) s) = parse_decimal s.
Proof.
  induction k as [|k IH]; [reflexivity|].
  cbn [zeros String.append]. rewrite <- IH. unfold parse_decimal.
  cbn [NilEmpty.uint_of_string]. unfold uint_of_char.
  destruct (NilEmpty.uint_of_string (String.append (zeros k) s)) as [d|];
    reflexivity.
Qed.

Lemma format_02d_inj a b :
  0 <= a -> 0 <= b -> format_02d a = format_02d b -> a = b.
Proof.
  intros Ha Hb H.
  assert (Hp : forall n, 0 <= n ->
            parse_decimal (format_02d n) = Some (Z.to_N n)).
  { intros n Hn. destruct n as [|p|p]; try lia; unfold format_02d, zfill;
      rewrite parse_decimal_zeros; apply parse_decimal_digits. }
  pose proof (Hp a Ha) as H1. rewrite H, (Hp b Hb) in H1.
  injection H1 as H1. lia.
Qed.

Lemma sheet_filename_inj a b :
  1 <= a -> 1 <= b -> sheet_filename a = sheet_filename b -> a = b.
Proof.
  intros Ha Hb. unfold sheet_filename.
  destruct (Z.eqb_spec a 1) as [->|Ha1]; destruct (Z.eqb_spec b 1) as [->|Hb1];
    cbn [String.append]; intros H.
  - reflexivity.
  - discriminate.
  - discriminate.
  - injection H as H. apply append_cancel_r in H.
    apply format_02d_inj; [lia | lia | assumption].
Qed.

(** C10. The file names of the sheets that [process_images] returns are
    pairwise distinct. *)
Theorem sheet_names_distinct files log sheets log' :
  process_images files log = (Ok sheets, log') ->
  NoDup (map snd sheets).
Proof.
  intros Hrun. rewrite process_images_eq in Hrun. injection Hrun as Hrun _.
  rewrite (make_sheets_filenames _ _ Hrun).
  apply NoDup_map_injective; [|apply seq_NoDup].
  intros a b _ _ H. apply sheet_filename_inj in H; lia.
Qed.

(** ** Resizing *)

(** An upload is resized exactly when it is wider than [max_width]; the new
    width is [max_width] and the new height is [int (h * (max_width / w))]
    evaluated in binary64. *)
Lemma resize_when_wider f img0 log :
  Image_open f = Ok img0 ->
  let img1 := if String.eqb (mode img0) "RGBA" then img0
              else Image_convert img0 "RGBA" in
  (width img0 <= max_width ->
   load_image f log = (Ok (img1, width img0, height img0), log)) /\
  (max_width < width img0 ->
   forall img w h log',
     load_image f log = (Ok (img, w, h), log') ->
     w = max_width /\ width img = max_width /\ height img = h /\
     rbind (rbind (truediv max_width (width img0))
              (mul_int_float (height img0))) int_of_float = Ok h /\
     log' = log ++ [info_resized (name f) (width img0) (height img0)
                      max_width h]).
Proof.
  intros Hopen img1.
  assert (Hw : width img1 = width img0)
    by (subst img1; destruct (String.eqb _ _); reflexivity).
  assert (Hh : height img1 = height img0)
    by (subst img1; destruct (String.eqb _ _); reflexivity).
  unfold load_image, bind, lift, ret, show. rewrite Hopen.
  cbv zeta. unfold size. fold img1. rewrite Hw, Hh.
  split.
  - intros Hle. destruct (Z.gtb_spec (width img0) max_width); [lia|].
    reflexivity.
  - intros Hlt img w h log'.
    destruct (Z.gtb_spec (width img0) max_width); [|lia].
    destruct (truediv max_width (width img0)) as [ratio|]; [|discriminate].
    cbn [rbind].
    destruct (rbind (mul_int_float (height img0) ratio) int_of_float)
      as [new_height|]; [|discriminate].
    unfold Image_resize.
    destruct ((max_width <? 1) || (new_height <? 1)); [discriminate|].
    intros Heq. injection Heq as <- <- <- <-. repeat split.
Qed.

(** ** Further properties of [process_images] *)

(** X1. Lines 65 and 210: for a count and a divisor below [2 ^ 53] the
    division in binary64 followed by [math.ceil] does not raise and gives
    the exact ceiling [k] of the quotient, [(k - 1) * c < n <= k * c]. *)
Theorem ceil_of_float_quotient n c :
  0 <= n < 2 ^ 53 -> 0 < c < 2 ^ 53 ->
  exists q k,
    truediv n c = Ok q /\ math_ceil q = Ok k /\
    (k - 1) * c < n <= k * c.
Proof.
  intros Hn Hc. destruct (truediv_ceil_ok n c Hn Hc) as (q & Hq & Hk).
  exists q, (ceil_div n c). split; [exact Hq|]. split; [exact Hk|].
  apply ceil_div_bounds. lia.
Qed.

(** X2. Lines 39-46: the crop box is [crop_width] wide, its right margin
    exceeds its left margin by [w mod 2 - crop_width mod 2 - 2 * x_offset],
    so without offset it is centred within one pixel, and without offset an
    image passes the size check exactly when it is at least [crop_width]
    wide and [20 + crop_height] high. *)
Theorem crop_box_centring w h x0 y0 x1 y1 :
  crop_box w = (x0, y0, x1, y1) ->
  x1 - x0 = crop_width /\
  (w - x1) - x0 = w mod 2 - crop_width mod 2 - 2 * x_offset /\
  (x_offset = 0 ->
   -1 <= (w - x1) - x0 <= 1 /\
   (too_small w h = false <-> crop_width <= w /\ 20 + crop_height <= h)).
Proof.
  intros Hbox. rewrite crop_box_eq in Hbox.
  pose proof (Z.div_mod w 2 ltac:(lia)) as Hw.
  pose proof (Z.div_mod crop_width 2 ltac:(lia)) as Hc.
  pose proof (Z.mod_pos_bound w 2 ltac:(lia)) as Hw2.
  pose proof (Z.mod_pos_bound crop_width 2 ltac:(lia)) as Hc2.
  set (a := w / 2) in *. set (b := crop_width / 2) in *.
  assert (Hx0 : x0 = a - b + x_offset) by congruence.
  assert (Hx1 : x1 = a - b + x_offset + crop_width) by congruence.
  clear Hbox. split; [lia|]. split; [lia|].
  intros H0. split; [lia|].
  rewrite too_small_false. fold a b. lia.
Qed.

(** The image [load_image] hands out: its own size, never wider than
    [max_width], in mode RGBA. *)
Lemma load_image_effective f log img w h log' :
  load_image f log = (Ok (img, w, h), log') ->
  w = width img /\ h = height img /\ w <= max_width /\ mode img = "RGBA".
Proof.
  unfold load_image, bind, lift, ret, show.
  destruct (Image_open f) as [img0|]; [|discriminate].
  cbv zeta. unfold size.
  set (img1 := if String.eqb (mode img0) "RGBA" then img0
               else Image_convert img0 "RGBA").
  assert (Hmode : mode img1 = "RGBA").
  { subst img1. destruct (String.eqb_spec (mode img0) "RGBA");
      [assumption | reflexivity]. }
  destruct (Z.gtb_spec (width img1) max_width).
  - destruct (truediv max_width (width img1)) as [ratio|]; [|discriminate].
    destruct (rbind (mul_int_float (height img1) ratio) _)
      as [new_height|]; [|discriminate].
    unfold Image_resize.
    destruct ((max_width <? 1) || (new_height <? 1)); [discriminate|].
    intros Heq. injection Heq as <- <- <- <-.
    repeat split; [lia | exact Hmode].
  - intros Heq. injection Heq as <- <- <- <-.
    repeat split; [lia | exact Hmode].
Qed.

(** X3. Lines 22-37: the image that goes on to the crop has the size the
    code keeps in [w, h], is never wider than [max_width], and is in mode
    RGBA whatever the mode of the upload. *)
Theorem effective_image f log img w h log' :
  load_image f log = (Ok (img, w, h), log') ->
  w = width img /\ h = height img /\ width img <= max_width /\
  mode img = "RGBA".
Proof.
  intros H. destruct (load_image_effective _ _ _ _ _ _ H) as (-> & -> & ? & ?).
  repeat split; assumption.
Qed.

Lemma narrow_no_tile f :
  max_width < crop_width -> new_tiles f = [].
Proof.
  intros Hnarrow. unfold new_tiles.
  destruct (crop_image f []) as [[[t|]|e] shown] eqn:E; cbn [fst];
    try reflexivity.
  exfalso. apply crop_image_inv in E.
  destruct E as (img & Hload & Hsmall & _).
  apply load_image_effective in Hload. destruct Hload as (_ & _ & Hw & _).
  apply too_small_false in Hsmall. lia.
Qed.

Lemma flat_map_nil {A B} (f : A -> list B) (l : list A) :
  (forall x, In x l -> f x = []) -> flat_map f l = [].
Proof.
  intros H. induction l as [|x l IH]; [reflexivity|].
  cbn [flat_map]. rewrite (H x) by (left; reflexivity).
  apply IH. intros y Hy. apply H. right. assumption.
Qed.

Lemma make_sheets_nil : max_images_per_sheet <> 0 -> make_sheets [] = Ok [].
Proof.
  intros HC. unfold make_sheets, range. cbn [len List.length Z.of_nat].
  destruct (Z.eqb_spec max_images_per_sheet 0); [contradiction|].
  destruct (0 <? max_images_per_sheet); reflexivity.
Qed.

(** X4. With [max_width] below [crop_width] no upload can give a tile,
    whatever its size and whatever the offset: an image wider than
    [max_width] is shrunk to [max_width] first, and no image that narrow
    holds the crop box.  The run returns no sheet (for a non-zero
    capacity). *)
Theorem narrow_max_width files log :
  max_width < crop_width ->
  max_images_per_sheet <> 0 ->
  fst (crop_images files log) = Ok [] /\
  fst (process_images files log) = Ok [] /\
  snd (process_images files log) = snd (crop_images files log).
Proof.
  intros Hnarrow HC.
  rewrite process_images_eq, crop_images_eq. cbn [fst snd].
  rewrite flat_map_nil by (intros; apply narrow_no_tile; assumption).
  rewrite make_sheets_nil by assumption. repeat split.
Qed.

Lemma Image_crop_mode img box t :
  Image_crop img box = Ok t -> mode t = mode img.
Proof.
  destruct box as [[[x0 y0] x1] y1]. unfold Image_crop.
  destruct (x1 <? x0); [discriminate|]. destruct (y1 <? y0); [discriminate|].
  intros Heq. injection Heq as <-. reflexivity.
Qed.

Lemma new_tiles_mode f : Forall (fun t => mode t = "RGBA") (new_tiles f).
Proof.
  unfold new_tiles.
  destruct (crop_image f []) as [[[t|]|e] shown] eqn:E; cbn [fst];
    constructor; [|constructor].
  apply crop_image_inv in E. destruct E as (img & Hload & _ & Hcrop).
  apply load_image_effective in Hload. destruct Hload as (_ & _ & _ & Hmode).
  rewrite (Image_crop_mode _ _ _ Hcrop). exact Hmode.
Qed.

Lemma paste_tiles_mode entries : forall sheet sheet',
  rfold entries paste_tile sheet = Ok sheet' -> mode sheet' = mode sheet.
Proof.
  induction entries as [|[index img] entries IH]; intros sheet sheet' H.
  - cbn in H. injection H as <-. reflexivity.
  - cbn [rfold paste_tile] in H. unfold mod_, floordiv in H.
    destruct (columns =? 0); [discriminate|]. cbn [rbind] in H.
    apply IH in H. rewrite H. reflexivity.
Qed.

Lemma make_sheet_mode cropped_images sheet_index s :
  make_sheet cropped_images sheet_index = Ok s -> mode (fst s) = "RGBA".
Proof.
  unfold make_sheet. intros H.
  destruct (truediv _ columns); cbn [rbind] in H; [|discriminate].
  destruct (math_ceil _); cbn [rbind] in H; [|discriminate].
  destruct (Image_new _ _ _) as [blank|] eqn:Hnew; cbn [rbind] in H;
    [|discriminate].
  destruct (rfold _ _ _) as [sheet|] eqn:Hpaste; cbn [rbind] in H;
    [|discriminate].
  destruct (floordiv _ _); cbn [rbind] in H; [|discriminate].
  injection H as <-. cbn [fst].
  rewrite (paste_tiles_mode _ _ _ Hpaste).
  apply Image_new_inv in Hnew. rewrite Hnew. reflexivity.
Qed.

Lemma make_sheets_each cropped_images sheets :
  make_sheets cropped_images = Ok sheets ->
  Forall (fun s => exists sheet_index,
            make_sheet cropped_images sheet_index = Ok s) sheets.
Proof.
  unfold make_sheets. intros H.
  destruct (range _ _ _) as [starts|]; cbn [rbind] in H; [|discriminate].
  apply rfold_collect_inv in H. destruct H as (ys & -> & HF).
  rewrite app_nil_l. clear - HF.
  induction HF as [|i s starts ys Hs HF IH]; constructor; eauto.
Qed.

(** X5. Lines 24-25, 50 and 70-76: every tile of the image loop and every
    sheet returned is in mode RGBA, whatever the modes of the uploads. *)
Theorem rgba_throughout files log sheets log' :
  process_images files log = (Ok sheets, log') ->
  Forall (fun s => mode (fst s) = "RGBA") sheets /\
  exists cropped_images,
    crop_images files log = (Ok cropped_images, log') /\
    Forall (fun t => mode t = "RGBA") cropped_images.
Proof.
  intros Hrun. rewrite process_images_eq in Hrun. injection Hrun as Hrun <-.
  split.
  - apply make_sheets_each in Hrun.
    eapply Forall_impl; [|exact Hrun].
    intros s (i & Hs). eapply make_sheet_mode. exact Hs.
  - exists (flat_map new_tiles files). split; [apply crop_images_eq|].
    clear Hrun. induction files as [|f files IH]; cbn [flat_map]; [constructor|].
    apply Forall_app. split; [apply new_tiles_mode | exact IH].
Qed.

Lemma load_image_shown f r shown :
  load_image f [] = (r, shown) ->
  filter is_warning shown = [] /\ filter is_error shown = [] /\
  (List.length (filter is_info shown) <= 1)%nat.
Proof.
  unfold load_image, bind, lift, ret, show.
  destruct (Image_open f) as [img0|].
  2:{ intros Heq. injection Heq as <- <-. repeat split. cbn. lia. }
  cbv zeta. unfold size.
  destruct (_ >? max_width).
  - destruct (truediv _ _); [|intros Heq; injection Heq as <- <-; cbn; auto].
    destruct (rbind _ _); [|intros Heq; injection Heq as <- <-; cbn; auto].
    destruct (Image_resize _ _ _);
      [|intros Heq; injection Heq as <- <-; cbn; auto].
    intros Heq. injection Heq as <- <-. cbn. auto.
  - intros Heq. injection Heq as <- <-. cbn. auto.
Qed.

(** The three ways the body of the [try] can end. *)
Lemma crop_image_outcome f :
  exists r shown,
    crop_image f [] = (r, shown) /\
    filter is_error shown = [] /\
    match r with
    | Ok None => List.length (filter is_warning shown) = 1%nat
    | _ => filter is_warning shown = []
    end.
Proof.
  unfold crop_image, bind at 1.
  destruct (load_image f []) as [[[[img w] h]|e] shown] eqn:Hload;
    destruct (load_image_shown _ _ _ Hload) as (Hw & He & _).
  - destruct (too_small w h).
    + cbv [bind show ret]. do 2 eexists. split; [reflexivity|].
      rewrite !filter_app, Hw, He. split; reflexivity.
    + cbv [bind lift ret].
      destruct (Image_crop img (crop_box w)); do 2 eexists;
        (split; [reflexivity|]); split; assumption.
  - do 2 eexists. split; [reflexivity|]. split; assumption.
Qed.

(** Each upload ends in exactly one of: a tile, a warning, an error. *)
Lemma upload_outcome f :
  (List.length (new_tiles f)
   + List.length (filter is_warning (notices_of f))
   + List.length (filter is_error (notices_of f)) = 1)%nat.
Proof.
  unfold new_tiles, notices_of.
  destruct (crop_image_outcome f) as (r & shown & -> & He & Hw).
  destruct r as [[t|]|e]; cbn [fst].
  - rewrite Hw, He. reflexivity.
  - rewrite Hw, He. reflexivity.
  - rewrite !filter_app, Hw, He. reflexivity.
Qed.

(** X6. Lines 20-55: the image loop accounts for every upload exactly once:
    the number of uploads is the number of tiles plus the number of warnings
    plus the number of error notices it adds. *)
Theorem uploads_accounted files log cropped_images log' :
  crop_images files log = (Ok cropped_images, log') ->
  exists added,
    log' = log ++ added /\
    len files =
    len cropped_images + len (filter is_warning added)
      + len (filter is_error added).
Proof.
  intros H. rewrite crop_images_eq in H. injection H as <- <-.
  exists (flat_map notices_of files). split; [reflexivity|].
  unfold len. induction files as [|f files IH]; [reflexivity|].
  cbn [flat_map List.length]. rewrite !filter_app, !length_app.
  pose proof (upload_outcome f). lia.
Qed.

(** X7. Lines 17-55: the image loop composes over batches: the tiles and
    the notices of a batch followed by another are those of the first
    followed by those of the second, so tiles keep the order of the
    uploads. *)
Theorem crop_images_app files1 files2 log tiles1 log1 tiles2 shown2 :
  crop_images files1 log = (Ok tiles1, log1) ->
  crop_images files2 [] = (Ok tiles2, shown2) ->
  crop_images (files1 ++ files2) log = (Ok (tiles1 ++ tiles2), log1 ++ shown2).
Proof.
  rewrite !crop_images_eq. intros H1 H2.
  injection H1 as <- <-. injection H2 as <- <-.
  rewrite !flat_map_app, ?app_nil_l, ?app_assoc. reflexivity.
Qed.

Lemma chunks_concat {A} (c : nat) : forall n (l : list A),
  (List.length l <= n * c)%nat ->
  List.concat (map (fun k => firstn c (skipn (k * c)%nat l)) (seq 0 n)) = l.
Proof.
  induction n as [|n IH]; intros l Hlen.
  - destruct l; [reflexivity | cbn in Hlen; lia].
  - cbn [seq map List.concat]. rewrite <- seq_shift, map_map.
    cbn [Nat.mul Nat.add skipn].
    transitivity (firstn c l ++ skipn c l); [|apply firstn_skipn].
    f_equal.
    rewrite <- (IH (skipn c l)) at 1 by (rewrite length_skipn; lia).
    f_equal. apply map_ext. intros k. rewrite skipn_skipn.
    do 2 f_equal. lia.
Qed.

(** X8. Lines 61-62: the sheet loop cuts the tiles into consecutive groups
    that lose and repeat nothing: put end to end, the slices of the sheets
    are the list of tiles again, and every slice holds between one tile and
    [columns * rows] tiles. *)
Theorem sheets_partition_tiles (cropped_images : list Image) :
  0 < max_images_per_sheet ->
  exists starts,
    range 0 (len cropped_images) max_images_per_sheet = Ok starts /\
    List.concat (map (fun sheet_index =>
                   slice cropped_images sheet_index
                     (sheet_index + max_images_per_sheet)) starts)
    = cropped_images /\
    Forall (fun sheet_index =>
              1 <= len (slice cropped_images sheet_index
                          (sheet_index + max_images_per_sheet))
                <= max_images_per_sheet) starts.
Proof.
  intros HC. eexists. split; [apply range_starts; assumption|].
  set (n := Z.to_nat (ceil_div (len cropped_images) max_images_per_sheet)).
  pose proof (ceil_div_bounds (len cropped_images) max_images_per_sheet HC)
    as Hceil.
  assert (Hn : Z.of_nat n = Z.max 0 (ceil_div (len cropped_images)
                                      max_images_per_sheet)) by lia.
  assert (Hslice : forall k, In k (seq 0 n) ->
            slice cropped_images (Z.of_nat k * max_images_per_sheet)
              (Z.of_nat k * max_images_per_sheet + max_images_per_sheet)
            = sheet_tiles cropped_images (Z.of_nat k) /\
            Z.of_nat k * max_images_per_sheet < len cropped_images).
  { intros k Hk. apply in_seq in Hk.
    assert (Z.of_nat k * max_images_per_sheet < len cropped_images) by nia.
    split; [|assumption]. apply slice_window; lia. }
  split.
  - rewrite map_map.
    rewrite (map_ext_in _ (fun k => sheet_tiles cropped_images (Z.of_nat k)))
      by (intros k Hk; apply Hslice; assumption).
    unfold sheet_tiles.
    rewrite (map_ext _ (fun k => firstn (Z.to_nat max_images_per_sheet)
                         (skipn (k * Z.to_nat max_images_per_sheet)%nat
                            cropped_images)))
      by (intros k; do 2 f_equal; nia).
    apply chunks_concat. unfold len in *. nia.
  - apply Forall_forall. intros i Hi. apply in_map_iff in Hi.
    destruct Hi as (k & <- & Hk). destruct (Hslice k Hk) as [-> Hlt].
    rewrite sheet_tiles_length by lia. lia.
Qed.

(** X9. Lines 65-70: no sheet is higher than [rows] rows of tiles or lower
    than one row, and every sheet but the last has exactly [rows] rows. *)
Theorem sheet_height_bound files log sheets log' k sheet filename :
  0 < columns -> 0 < rows -> max_images_per_sheet < 2 ^ 53 ->
  process_images files log = (Ok sheets, log') ->
  nth_error sheets k = Some (sheet, filename) ->
  0 <= crop_height /\
  crop_height <= height sheet <= crop_height * rows /\
  ((S k < List.length sheets)%nat -> height sheet = crop_height * rows).
Proof.
  intros Hc Hr Hcap Hrun Hnth.
  destruct (process_images_inv _ _ _ _ Hc Hr Hcap Hrun)
    as (tiles & _ & Hwc & -> & _).
  assert (HC : 0 < max_images_per_sheet) by (unfold max_images_per_sheet; nia).
  rewrite length_map, length_seq.
  apply nth_error_sheets in Hnth. destruct Hnth as [Hk Hs].
  unfold sheet_of in Hs. injection Hs as -> _.
  pose proof (ceil_div_bounds (len tiles) max_images_per_sheet HC) as Hceil.
  assert (Hlt : Z.of_nat k * max_images_per_sheet < len tiles) by nia.
  pose proof (sheet_tiles_length tiles (Z.of_nat k) ltac:(lia) HC Hlt) as Hlen.
  destruct (paste_all_size (enumerate (sheet_tiles tiles (Z.of_nat k)))
              (canvas (len (sheet_tiles tiles (Z.of_nat k)))))
    as (_ & -> & _).
  cbn [height canvas].
  set (n := len (sheet_tiles tiles (Z.of_nat k))) in *.
  assert (Hdims : 0 <= crop_height).
  { destruct tiles as [|t ?]; [cbn in Hlt; lia|].
    inversion Hwc as [|? ? (_ & _ & _ & ?) _]. assumption. }
  pose proof (ceil_div_bounds n columns Hc) as Hrows.
  pose proof (ceil_div_pos n columns Hc ltac:(lia)) as Hpos.
  assert (Hle : ceil_div n columns <= rows)
    by (unfold max_images_per_sheet in *; nia).
  split; [assumption|]. split; [nia|].
  intros Hlast.
  assert (Hfull : n = max_images_per_sheet) by nia.
  rewrite Hfull. f_equal. apply ceil_div_unique; [assumption|].
  unfold max_images_per_sheet. nia.
Qed.

(** X10. Lines 16, 61 and 205-233: a capacity of zero makes [range] raise
    [ValueError] after the image loop, even for an empty batch; but [main]
    does not get to the run with such a capacity: with uploads, the division
    of the information column raises [ZeroDivisionError] first, uncaught
    (unless the preview has raised before), and without uploads the block of
    the start button does not run.  A negative capacity leaves the sheet
    loop without a turn, so [process_images] returns no sheet whatever the
    tiles, and when [main] gets to the run it reports, after the notices,
    that no image could be processed. *)
Theorem nonpositive_capacity files log :
  (max_images_per_sheet = 0 ->
   process_images files log = (Raise ValueError, snd (crop_images files log)) /\
   forall show_preview clicked,
     (files = [] -> main show_preview clicked files = ([], Ok tt)) /\
     (files <> [] ->
      fst (main show_preview clicked files)
      = fst (upload_column show_preview files) /\
      snd (main show_preview clicked files)
      = match snd (upload_column show_preview files) with
        | Raise e => Raise e
        | Ok _ => Raise ZeroDivisionError
        end))
  /\
  (max_images_per_sheet < 0 ->
   process_images files log = (Ok [], snd (crop_images files log)) /\
   forall show_preview information,
     files <> [] ->
     snd (upload_column show_preview files) = Ok tt ->
     info_column files = Ok information ->
     main show_preview true files =
     (fst (upload_column show_preview files) ++ information
      ++ map st_notice (snd (crop_images files []))
      ++ [st_error_no_images], Ok tt)).
Proof.
  split; intros HC.
  - assert (H : forall l, make_sheets l = Raise ValueError).
    { intros l. unfold make_sheets, range. rewrite HC. reflexivity. }
    rewrite !process_images_eq, !crop_images_eq, !H.
    split; [reflexivity|].
    intros show_preview clicked. split.
    + intros ->. reflexivity.
    + intros Hne. unfold main.
      destruct (upload_column show_preview files) as [uploads [[]|e]];
        cbn [fst snd]; [|split; reflexivity].
      assert (Hinfo : info_column files = Raise ZeroDivisionError).
      { unfold info_column. destruct files as [|f files']; [contradiction|].
        unfold truediv. unfold max_images_per_sheet in HC. rewrite HC.
        reflexivity. }
      rewrite Hinfo. split; reflexivity.
  - assert (H : forall l, make_sheets l = Ok []).
    { intros l. unfold make_sheets.
      rewrite range_nonpos_step by (unfold len; lia). reflexivity. }
    rewrite !process_images_eq, !crop_images_eq, !H.
    split; [reflexivity|].
    intros show_preview information Hne Hup Hinfo. unfold main.
    destruct (upload_column show_preview files) as [uploads r].
    cbn [fst snd] in *. subst r. rewrite Hinfo.
    unfold start_button. destruct files as [|f files']; [contradiction|].
    unfold create_sheets.
    rewrite process_images_eq, H. reflexivity.
Qed.

(** ** Properties of the page *)

Lemma new_tiles_length f : (List.length (new_tiles f) <= 1)%nat.
Proof. pose proof (upload_outcome f). lia. Qed.

Lemma cropped_images_length files :
  len (flat_map new_tiles files) <= len files.
Proof.
  unfold len. induction files as [|f files IH]; [reflexivity|].
  cbn [flat_map List.length]. rewrite length_app.
  pose proof (new_tiles_length f). lia.
Qed.

Lemma cropped_images_all files :
  (forall f, In f files ->
     exists t shown, crop_image f [] = (Ok (Some t), shown)) ->
  len (flat_map new_tiles files) = len files.
Proof.
  unfold len. induction files as [|f files IH]; intros H; [reflexivity|].
  cbn [flat_map List.length]. rewrite length_app.
  rewrite Nat2Z.inj_add, IH by (intros; apply H; right; assumption).
  destruct (H f (or_introl eq_refl)) as (t & shown & Hf).
  unfold new_tiles. rewrite Hf. cbn [fst List.length]. lia.
Qed.

Lemma ceil_div_mono a b c : 0 < c -> a <= b -> ceil_div a c <= ceil_div b c.
Proof.
  intros Hc Hab. unfold ceil_div.
  assert (- b / c <= - a / c) by (apply Z.div_le_mono; lia). lia.
Qed.

(** X11. Lines 207-210 and 222-230: for a batch that is not empty the
    information column announces [ceil (n / C)] sheets for [n] uploads, and
    tells of several sheets exactly when [n] exceeds the capacity.  A run
    that returns never has more sheets than announced, and has exactly as
    many when every upload gives a tile. *)
Theorem predicted_sheet_count files log :
  files <> [] ->
  0 < columns -> 0 < rows -> max_images_per_sheet < 2 ^ 53 ->
  len files < 2 ^ 53 ->
  let announced := ceil_div (len files) (columns * rows) in
  exists more,
    info_column files =
    Ok (st_metric_total (len files) :: st_metric_sheets announced
          :: st_metric_per_sheet (columns * rows) :: more) /\
    (In (st_info_split (columns * rows)) more <-> columns * rows < len files) /\
    forall sheets log',
      process_images files log = (Ok sheets, log') ->
      len sheets <= announced /\
      ((forall f, In f files ->
          exists t shown, crop_image f [] = (Ok (Some t), shown)) ->
       len sheets = announced).
Proof.
  intros Hne Hc Hr Hcap Hn announced.
  assert (HC : 0 < columns * rows) by nia.
  assert (Hlen : 0 < len files).
  { destruct files; [contradiction | unfold len; cbn; lia]. }
  destruct (truediv_ceil_ok (len files) (columns * rows)) as (q & Hq & Hk);
    [lia | unfold max_images_per_sheet in Hcap; lia |].
  eexists.
  split.
  { unfold info_column. destruct files as [|f files']; [contradiction|].
    rewrite Hq. cbn [rbind]. rewrite Hk. cbn [rbind app]. reflexivity. }
  pose proof (ceil_div_bounds (len files) (columns * rows) HC) as Hceil.
  fold announced in Hceil.
  split.
  - rewrite in_app_iff. unfold announced in *. split.
    + intros [H|H].
      * destruct (count_large _ >? 0); simpl in H;
          [destruct H as [H|H]; [discriminate | destruct H] | destruct H].
      * destruct (Z.gtb_spec (ceil_div (len files) (columns * rows)) 1);
          simpl in H; [nia | destruct H].
    + intros Hmany. right.
      destruct (Z.gtb_spec (ceil_div (len files) (columns * rows)) 1);
        [left; reflexivity | nia].
  - intros sheets log' Hrun.
    destruct (process_images_returned_length _ _ _ _ _ _ Hc Hr Hcap
                (crop_images_eq files log) Hrun) as [_ Hsheets].
    unfold max_images_per_sheet in Hsheets. split.
    + rewrite Hsheets. apply ceil_div_mono; [assumption|].
      apply cropped_images_length.
    + intros Hall. rewrite Hsheets.
      rewrite cropped_images_all by assumption. reflexivity.
Qed.

Lemma load_image_info f r shown :
  load_image f [] = (r, shown) ->
  let large := match Image_open f with
               | Ok img => if fst (size img) >? max_width then 1 else 0
               | Raise _ => 0
               end in
  0 <= large <= 1 /\
  len (filter is_info shown) <= large /\
  (forall x, r = Ok x -> len (filter is_info shown) = large).
Proof.
  unfold load_image, bind, lift, ret, show, len.
  destruct (Image_open f) as [img0|].
  2:{ intros Heq. injection Heq as <- <-. cbn. repeat split; try lia;
      discriminate. }
  cbv zeta. unfold size. cbn [fst].
  set (img1 := if String.eqb (mode img0) "RGBA" then img0
               else Image_convert img0 "RGBA").
  assert (Hw : width img1 = width img0)
    by (subst img1; destruct (String.eqb _ _); reflexivity).
  rewrite Hw.
  destruct (width img0 >? max_width).
  - destruct (truediv _ _);
      [|intros Heq; injection Heq as <- <-; cbn; repeat split; try lia;
        try discriminate].
    destruct (rbind _ _);
      [|intros Heq; injection Heq as <- <-; cbn; repeat split; try lia;
        try discriminate].
    destruct (Image_resize _ _ _);
      [|intros Heq; injection Heq as <- <-; cbn; repeat split; try lia;
        try discriminate].
    intros Heq. injection Heq as <- <-. cbn. repeat split; lia.
  - intros Heq. injection Heq as <- <-. cbn. repeat split; lia.
Qed.

Lemma load_image_large f :
  let large := match Image_open f with
               | Ok img => if fst (size img) >? max_width then 1 else 0
               | Raise _ => 0
               end in
  0 <= large <= 1 /\
  len (filter is_info (notices_of f)) <= large /\
  (filter is_error (notices_of f) = [] ->
   len (filter is_info (notices_of f)) = large).
Proof.
  assert (Hc : crop_image f [] =
               match load_image f [] with
               | (Ok (img, w, h), s) =>
                   if too_small w h
                   then (Ok None,
                         s ++ [warning_too_small (name f) w h
                                 crop_width crop_height])
                   else match Image_crop img (crop_box w) with
                        | Ok c => (Ok (Some c), s)
                        | Raise e => (Raise e, s)
                        end
               | (Raise e, s) => (Raise e, s)
               end).
  { unfold crop_image, bind.
    destruct (load_image f []) as [[[[img w] h]|e] s]; [|reflexivity].
    destruct (too_small w h); cbv [show ret bind lift]; [reflexivity|].
    destruct (Image_crop _ _); reflexivity. }
  unfold notices_of. rewrite Hc. clear Hc.
  destruct (load_image f []) as [[[[img w] h]|e] shown] eqn:Hload;
    destruct (load_image_info _ _ _ Hload) as (Hl & Hle & Heq);
    cbv zeta in *;
    set (large := match Image_open f with Ok _ => _ | Raise _ => _ end) in *;
    (split; [exact Hl|]); unfold len in *.
  - specialize (Heq _ eq_refl).
    destruct (too_small w h).
    + rewrite filter_app, length_app.
      change (filter is_info [warning_too_small (name f) w h
                                crop_width crop_height]) with (@nil notice).
      cbn [List.length]. split; [lia|intros _; lia].
    + destruct (Image_crop img (crop_box w)).
      * split; [lia|intros _; lia].
      * rewrite !filter_app, length_app.
        change (filter is_info [error_processing (name f) e])
          with (@nil notice).
        cbn [List.length].
        split; [lia|]. intros E. apply app_eq_nil in E.
        destruct E as [_ E]. discriminate.
  - rewrite !filter_app, length_app.
    change (filter is_info [error_processing (name f) e]) with (@nil notice).
    cbn [List.length].
    split; [lia|]. intros E. apply app_eq_nil in E.
    destruct E as [_ E]. discriminate.
Qed.

Lemma count_large_notices files : forall a,
  let large_images :=
    fold_left
      (fun large_images file =>
         match Image_open file with
         | Ok img => if fst (size img) >? max_width then large_images + 1
                     else large_images
         | Raise _ => large_images
         end) files a in
  a <= large_images <= a + len files /\
  a + len (filter is_info (flat_map notices_of files)) <= large_images /\
  (filter is_error (flat_map notices_of files) = [] ->
   a + len (filter is_info (flat_map notices_of files)) = large_images).
Proof.
  unfold len.
  induction files as [|f files IH]; intros a; cbv zeta.
  - cbn. repeat split; lia.
  - cbn [fold_left flat_map List.length]. rewrite !filter_app, !length_app.
    pose proof (load_image_large f) as Hf. cbv zeta in Hf. unfold len in Hf.
    destruct Hf as (Hl & Hinfo & Heq).
    destruct (Image_open f) as [img|].
    + destruct (fst (size img) >? max_width);
        [destruct (IH (a + 1)) as (Hr & Hle & Hex)
        |destruct (IH a) as (Hr & Hle & Hex)];
        cbv zeta in Hr, Hle, Hex;
        (split; [lia|]); (split; [lia|]);
        intros Herr; apply app_eq_nil in Herr; destruct Herr as [E1 E2];
        specialize (Heq E1); specialize (Hex E2); lia.
    + destruct (IH a) as (Hr & Hle & Hex). cbv zeta in Hr, Hle, Hex.
      (split; [lia|]); (split; [lia|]).
      intros Herr; apply app_eq_nil in Herr; destruct Herr as [E1 E2].
      specialize (Heq E1); specialize (Hex E2); lia.
Qed.

(** X12. Lines 213-220 and 30-36: the number of uploads that the
    information column counts as wider than [max_width] bounds the number of
    resize notices of the run, and equals it when the run shows no error
    notice: an upload counted as wide either is resized, with its notice,
    or fails with an error notice. *)
Theorem large_images_and_resize_notices files log cropped_images log' :
  crop_images files log = (Ok cropped_images, log') ->
  exists added,
    log' = log ++ added /\
    0 <= count_large files <= len files /\
    len (filter is_info added) <= count_large files /\
    (filter is_error added = [] ->
     len (filter is_info added) = count_large files).
Proof.
  intros H. rewrite crop_images_eq in H. injection H as _ <-.
  exists (flat_map notices_of files). split; [reflexivity|].
  pose proof (count_large_notices files 0) as Hc. cbv zeta in Hc.
  fold (count_large files) in Hc. destruct Hc as (H1 & H2 & H3).
  repeat split; try lia. intros Herr. specialize (H3 Herr). lia.
Qed.

(** *** The page *)

Lemma preview_images_spec l : forall i shown r,
  preview_images (enumerate_from i l) = (shown, r) ->
  filter is_preview shown = shown /\
  (List.length shown <= List.length l)%nat /\
  (r = Ok tt <-> forall f, In f l -> content f <> None) /\
  (r = Ok tt -> List.length shown = List.length l).
Proof.
  induction l as [|f l IH]; intros i shown r H; cbn in H.
  - injection H as <- <-. cbn. repeat split; auto.
  - unfold Image_open in H. destruct (content f) as [img|] eqn:Hf.
    + destruct (preview_images (enumerate_from (i + 1) l)) as [shown' r'] eqn:E.
      injection H as <- <-.
      destruct (IH _ _ _ E) as (Hp & Hlen & Hok & Hall).
      cbn [filter is_preview List.length]. rewrite Hp.
      split; [reflexivity|]. split; [lia|]. split.
      * rewrite Hok. split.
        -- intros Hl g [<-|Hg]; [congruence | auto].
        -- intros Hl g Hg. apply Hl. right. exact Hg.
      * intros Hr. rewrite (Hall Hr). reflexivity.
    + injection H as <- <-. cbn [filter List.length].
      split; [reflexivity|]. split; [lia|]. split.
      * split; [discriminate|]. intros Hl. exfalso.
        apply (Hl f); [left; reflexivity | exact Hf].
      * discriminate.
Qed.

Lemma slice_first {A} (l : list A) k :
  0 <= k -> slice l 0 k = firstn (Z.to_nat k) l.
Proof.
  intros Hk. change k with (0 + k) at 1.
  rewrite slice_window by (unfold len; lia). reflexivity.
Qed.

(** X13. Lines 188-203: with the preview switched on, the upload column
    shows at most four pictures; it ends without an exception exactly when
    each of the first four uploads decodes, and then shows one picture for
    each of them; and it tells how many more uploads there are exactly when
    it ended without an exception and there are more than four. *)
Theorem preview_outcome files page r :
  files <> [] ->
  upload_column true files = (page, r) ->
  len (filter is_preview page) <= Z.min 4 (len files) /\
  (r = Ok tt <-> forall f, In f (firstn 4 files) -> content f <> None) /\
  (r = Ok tt -> len (filter is_preview page) = Z.min 4 (len files)) /\
  (forall k, In (st_info_more k) page <->
             r = Ok tt /\ 4 < len files /\ k = len files - 4).
Proof.
  intros Hne H. unfold upload_column in H.
  destruct files as [|f0 files0]; [contradiction|].
  set (files := f0 :: files0) in *.
  rewrite slice_first in H by lia. change (Z.to_nat 4) with 4%nat in H.
  unfold enumerate in H.
  destruct (preview_images (enumerate_from 0 (firstn 4 files)))
    as [shown r0] eqn:E.
  destruct (preview_images_spec _ _ _ _ E) as (Hp & Hlen & Hok & Hall).
  rewrite length_firstn in Hlen, Hall.
  assert (Hnone : forall k, ~ In (st_info_more k) shown).
  { intros k Hin. rewrite <- Hp in Hin. apply filter_In in Hin.
    destruct Hin as [_ Hin]. discriminate. }
  destruct r0 as [[]|e]; apply pair_equal_spec in H; destruct H as [<- <-].
  - cbn [filter is_preview]. rewrite filter_app, Hp.
    assert (Hmore : filter is_preview
                      (if len files >? 4
                       then [st_info_more (len files - 4)] else []) = []).
    { destruct (_ >? 4); reflexivity. }
    rewrite Hmore, app_nil_r. unfold len in *.
    rewrite (Hall eq_refl).
    split; [lia|]. split; [exact Hok|]. split; [lia|].
    intros k. split.
    + intros [H|[H|H]]; try discriminate.
      apply in_app_iff in H. destruct H as [H|H]; [destruct (Hnone _ H)|].
      destruct (Z.gtb_spec (Z.of_nat (List.length files)) 4);
        simpl in H; [|destruct H].
      destruct H as [H|[]]. injection H as <-. auto.
    + intros (_ & Hgt & ->). right. right. apply in_app_iff. right.
      destruct (Z.gtb_spec (Z.of_nat (List.length files)) 4);
        [left; reflexivity | lia].
  - cbn [filter is_preview]. rewrite Hp. unfold len in *.
    split; [lia|]. split.
    + rewrite <- Hok. split; discriminate.
    + split; [discriminate|]. intros k. split.
      * intros [H|[H|H]]; try discriminate. destruct (Hnone _ H).
      * intros [H _]. discriminate.
Qed.

Lemma downloads_of_app a b :
  downloads_of (a ++ b) = downloads_of a ++ downloads_of b.
Proof. apply flat_map_app. Qed.

Lemma archives_of_app a b :
  archives_of (a ++ b) = archives_of a ++ archives_of b.
Proof. apply flat_map_app. Qed.

Lemma downloads_of_notices l : downloads_of (map st_notice l) = [].
Proof. induction l; [reflexivity | assumption]. Qed.

Lemma archives_of_notices l : archives_of (map st_notice l) = [].
Proof. induction l; [reflexivity | assumption]. Qed.

(** *** The archive *)

Lemma rfold_app {A S} (f : S -> A -> result S) l1 : forall l2 acc,
  rfold (l1 ++ l2) f acc = rbind (rfold l1 f acc) (rfold l2 f).
Proof.
  induction l1 as [|x l1 IH]; intros l2 acc.
  - rewrite app_nil_l. reflexivity.
  - rewrite <- app_comm_cons. cbn [rfold].
    destruct (f acc x); cbn [rbind]; [apply IH | reflexivity].
Qed.

Lemma Image_save_PNG_ok img :
  encodable img -> Image_save_PNG save_PNG img = Ok (save_PNG img).
Proof.
  intros (Hw & Hh & Hm). unfold Image_save_PNG. rewrite Hm. cbn [negb].
  destruct (Z.leb_spec (width img) 0); [lia|].
  destruct (Z.leb_spec (height img) 0); [lia|]. reflexivity.
Qed.

Lemma Image_save_PNG_inv img data :
  Image_save_PNG save_PNG img = Ok data ->
  encodable img /\ data = save_PNG img.
Proof.
  unfold Image_save_PNG, encodable.
  destruct (PNG_mode (mode img)); cbn [negb]; [|discriminate].
  destruct (Z.leb_spec (width img) 0); [discriminate|].
  destruct (Z.leb_spec (height img) 0); [discriminate|]. cbn [orb].
  intros Heq. injection Heq as <-. repeat split; assumption.
Qed.

Lemma Image_save_PNG_empty img :
  PNG_mode (mode img) = true -> width img <= 0 \/ height img <= 0 ->
  Image_save_PNG save_PNG img = Raise ValueError.
Proof.
  intros Hm Hzero. unfold Image_save_PNG. rewrite Hm. cbn [negb].
  destruct (Z.leb_spec (width img) 0); [reflexivity|].
  destruct (Z.leb_spec (height img) 0); [reflexivity|]. lia.
Qed.

Lemma write_sheet_ok zip_file entry :
  writable entry ->
  write_sheet save_PNG zip_file entry =
  Ok {| filelist := filelist zip_file
                    ++ [(arcname (snd entry), save_PNG (fst entry))] |}.
Proof.
  destruct entry as [sheet filename].
  intros (Henc & Hname & Hlen). cbn [fst snd] in *.
  unfold write_sheet. rewrite (Image_save_PNG_ok _ Henc).
  cbn [rbind]. unfold writestr.
  destruct (String.eqb_spec (arcname filename) EmptyString); [contradiction|].
  destruct (Z.ltb_spec 65535 (Z.of_nat (String.length (arcname filename))));
    [lia|].
  reflexivity.
Qed.

Lemma write_sheet_inv zip_file entry zip_file' :
  write_sheet save_PNG zip_file entry = Ok zip_file' ->
  writable entry /\
  zip_file' =
  {| filelist := filelist zip_file
                 ++ [(arcname (snd entry), save_PNG (fst entry))] |}.
Proof.
  destruct entry as [sheet filename]. unfold writable.
  cbn [fst snd]. unfold write_sheet.
  destruct (Image_save_PNG save_PNG sheet) as [data|e] eqn:Hsave;
    cbn [rbind]; [|discriminate].
  apply Image_save_PNG_inv in Hsave. destruct Hsave as [Henc ->].
  unfold writestr.
  destruct (String.eqb_spec (arcname filename) EmptyString); [discriminate|].
  destruct (Z.ltb_spec 65535 (Z.of_nat (String.length (arcname filename))));
    [discriminate|].
  intros Heq. injection Heq as <-.
  split; [split; [exact Henc | split; assumption] | reflexivity].
Qed.

Lemma zip_from sheets : forall zip_file,
  Forall writable sheets ->
  rfold sheets (write_sheet save_PNG) zip_file =
  Ok {| filelist :=
          filelist zip_file
          ++ map (fun s => (arcname (snd s), save_PNG (fst s))) sheets |}.
Proof.
  induction sheets as [|s sheets IH]; intros zip_file H.
  - cbn. rewrite app_nil_r. destruct zip_file. reflexivity.
  - inversion H as [|? ? Hs Hrest]; subst.
    cbn [rfold map]. rewrite write_sheet_ok by assumption. cbn [rbind].
    rewrite IH by assumption. cbn [filelist]. rewrite <- app_assoc.
    reflexivity.
Qed.

Lemma zip_from_inv sheets : forall zip_file zip_file',
  rfold sheets (write_sheet save_PNG) zip_file = Ok zip_file' ->
  Forall writable sheets /\
  zip_file' =
  {| filelist :=
       filelist zip_file
       ++ map (fun s => (arcname (snd s), save_PNG (fst s))) sheets |}.
Proof.
  induction sheets as [|s sheets IH]; intros zip_file zip_file' H.
  - cbn in H. injection H as <-. split; [constructor|].
    cbn. rewrite app_nil_r. destruct zip_file. reflexivity.
  - cbn [rfold] in H.
    destruct (write_sheet save_PNG zip_file s) as [z|e] eqn:Hs;
      cbn [rbind] in H; [|discriminate].
    apply write_sheet_inv in Hs. destruct Hs as [Hs ->].
    apply IH in H. destruct H as [Hrest ->]. split; [constructor; assumption|].
    cbn [filelist map]. rewrite <- app_assoc. reflexivity.
Qed.

(** Writing after what an archive holds already. *)
Lemma zip_after sheets : forall zip_file zip_file0,
  rfold sheets (write_sheet save_PNG)
    {| filelist := filelist zip_file ++ filelist zip_file0 |} =
  rbind (rfold sheets (write_sheet save_PNG) zip_file0)
    (fun zip_file2 =>
       Ok {| filelist := filelist zip_file ++ filelist zip_file2 |}).
Proof.
  induction sheets as [|[sheet filename] sheets IH];
    intros zip_file zip_file0; cbn [rfold rbind]; [reflexivity|].
  unfold write_sheet at 1 3.
  destruct (Image_save_PNG save_PNG sheet) as [data|e]; cbn [rbind];
    [|reflexivity].
  unfold writestr. destruct (String.eqb _ _); [reflexivity|].
  destruct (_ <? _); [reflexivity|]. cbn [rbind filelist].
  rewrite <- app_assoc.
  apply (IH zip_file
           {| filelist := filelist zip_file0 ++ [(arcname filename, data)] |}).
Qed.

(** *** The file names of the sheets in an archive *)

Lemma arcname_append s1 s2 :
  arcname s1 = s1 ->
  arcname (String.append s1 s2) = String.append s1 (arcname s2).
Proof.
  induction s1 as [|c s1 IH]; intros H; [reflexivity|].
  cbn [arcname String.append] in *.
  destruct (Ascii.eqb c "000"); [discriminate|].
  injection H as H. rewrite IH by assumption. reflexivity.
Qed.

Lemma arcname_numeral d :
  arcname (NilEmpty.string_of_uint d) = NilEmpty.string_of_uint d.
Proof. induction d; cbn; congruence. Qed.

Lemma arcname_zeros k : arcname (zeros k) = zeros k.
Proof. induction k as [|k IH]; cbn; congruence. Qed.

Lemma arcname_format_02d n : 0 <= n -> arcname (format_02d n) = format_02d n.
Proof.
  intros Hn. destruct n as [|p|p]; try lia; unfold format_02d, zfill, digits;
    rewrite arcname_append by apply arcname_zeros;
    rewrite arcname_numeral; reflexivity.
Qed.

Lemma arcname_sheet_filename k :
  1 <= k -> arcname (sheet_filename k) = sheet_filename k.
Proof.
  intros Hk. unfold sheet_filename. destruct (k =? 1); [reflexivity|].
  rewrite arcname_append by reflexivity.
  rewrite arcname_append by (apply arcname_format_02d; lia). reflexivity.
Qed.

Lemma sheet_filename_nonempty k : sheet_filename k <> EmptyString.
Proof. unfold sheet_filename. destruct (k =? 1); discriminate. Qed.

Lemma numeral_length d :
  String.length (NilEmpty.string_of_uint d) = Decimal.nb_digits d.
Proof. induction d; cbn; congruence. Qed.

Lemma nb_digits_double d :
  (Decimal.nb_digits (Decimal.Little.double d) <= S (Decimal.nb_digits d)
   /\ Decimal.nb_digits (Decimal.Little.succ_double d)
      <= S (Decimal.nb_digits d))%nat.
Proof. induction d; cbn; lia. Qed.

Lemma nb_digits_little p :
  (Decimal.nb_digits (Pos.to_little_uint p) <= Pos.size_nat p)%nat.
Proof.
  induction p as [p IH|p IH|]; cbn [Pos.to_little_uint Pos.size_nat].
  - pose proof (proj2 (nb_digits_double (Pos.to_little_uint p))). lia.
  - pose proof (proj1 (nb_digits_double (Pos.to_little_uint p))). lia.
  - cbn. lia.
Qed.

Lemma size_nat_size p : Z.of_nat (Pos.size_nat p) = Zpos (Pos.size p).
Proof. induction p; cbn [Pos.size_nat Pos.size]; lia. Qed.

Lemma digits_short n :
  1 <= n < 2 ^ 53 -> (String.length (digits (Z.to_N n)) <= 53)%nat.
Proof.
  intros Hn. destruct n as [|p|p]; try lia.
  unfold digits. cbn [Z.to_N N.to_uint]. unfold Pos.to_uint.
  rewrite numeral_length, DecimalFacts.nb_digits_rev.
  pose proof (nb_digits_little p) as Hd.
  pose proof (size_nat_size p) as Hs.
  pose proof (digits2_bounds p) as [Hl _]. rewrite digits2_pos_size in Hl.
  destruct (Z_le_gt_dec (Zpos (Pos.size p)) 53) as [|Hbig]; [lia|].
  assert (2 ^ 53 <= 2 ^ (Zpos (Pos.size p) - 1))
    by (apply Z.pow_le_mono_r; lia).
  lia.
Qed.

Lemma zeros_length k : String.length (zeros k) = k.
Proof. induction k as [|k IH]; cbn; congruence. Qed.

Lemma sheet_filename_length k :
  1 <= k < 2 ^ 53 ->
  Z.of_nat (String.length (sheet_filename k)) <= 65535.
Proof.
  intros Hk. unfold sheet_filename.
  destruct (k =? 1); [cbn; lia|].
  rewrite !length_append. destruct k as [|p|p]; try lia.
  unfold format_02d, zfill. rewrite length_append, zeros_length.
  pose proof (digits_short (Zpos p) Hk). cbn [String.length]. lia.
Qed.

Lemma sheet_filename_writable sheet k :
  encodable sheet -> 1 <= k < 2 ^ 53 -> writable (sheet, sheet_filename k).
Proof.
  intros Hpix Hk. unfold writable. cbn [fst snd].
  rewrite arcname_sheet_filename by lia.
  split; [assumption|]. split; [apply sheet_filename_nonempty|].
  apply sheet_filename_length. assumption.
Qed.

(** The sheets of a run carry the names of their numbers. *)
Lemma make_sheets_named cropped_images sheets :
  make_sheets cropped_images = Ok sheets ->
  Forall (fun s => exists k, 1 <= k <= len sheets /\ snd s = sheet_filename k)
    sheets.
Proof.
  intros H. apply make_sheets_filenames in H.
  assert (Hgen : forall (l : list (Image * string)) ks,
             map snd l = map (fun k => sheet_filename (Z.of_nat k + 1)) ks ->
             Forall (fun s => exists k, In k ks /\
                       snd s = sheet_filename (Z.of_nat k + 1)) l).
  { induction l as [|s l IH]; intros [|k ks] Hm; try discriminate;
      constructor.
    - injection Hm as Hs _. exists k. split; [left; reflexivity | exact Hs].
    - injection Hm as _ Hm. apply IH in Hm.
      eapply Forall_impl; [|exact Hm].
      intros s' (j & Hj & Hname). exists j. split; [right|]; assumption. }
  apply Hgen in H. eapply Forall_impl; [|exact H].
  intros s (k & Hk & Hname). apply in_seq in Hk.
  exists (Z.of_nat k + 1). unfold len. split; [lia | exact Hname].
Qed.

Lemma make_sheets_names_NoDup cropped_images sheets :
  make_sheets cropped_images = Ok sheets -> NoDup (map snd sheets).
Proof.
  intros H. rewrite (make_sheets_filenames _ _ H).
  apply NoDup_map_injective; [|apply seq_NoDup].
  intros x y _ _ Hxy. apply sheet_filename_inj in Hxy; lia.
Qed.

(** *** The block of the start button *)

Lemma sheet_expanders_spec sheets : forall i shown r,
  sheet_expanders (enumerate_from i sheets) = (shown, r) ->
  archives_of shown = [] /\
  (forall w, In w shown -> is_sheet_widget w = true) /\
  (r = Ok tt <-> Forall (fun s => encodable (fst s)) sheets) /\
  (r = Ok tt ->
   downloads_of shown = map (fun s => (snd s, save_PNG (fst s))) sheets) /\
  (forall s rest, sheets = s :: rest ->
     PNG_mode (mode (fst s)) = true ->
     width (fst s) <= 0 \/ height (fst s) <= 0 ->
     shown = [st_expander (i + 1) (snd s) (i =? 0)] /\ r = Raise ValueError).
Proof.
  induction sheets as [|[sheet filename] sheets IH]; intros i shown r H.
  - cbn in H. injection H as <- <-.
    split; [reflexivity|]. split; [intros w []|].
    split; [split; [constructor | reflexivity]|].
    split; [reflexivity | discriminate].
  - cbn [enumerate_from sheet_expanders] in H.
    destruct (Image_save_PNG save_PNG sheet) as [data|e] eqn:Hsave.
    + apply Image_save_PNG_inv in Hsave. destruct Hsave as [Henc ->].
      destruct (sheet_expanders (enumerate_from (i + 1) sheets))
        as [shown' r'] eqn:E.
      injection H as <- <-.
      destruct (IH _ _ _ E) as (Ha & Hkind & Hok & Hd & _).
      split; [exact Ha|]. split; [|split; [|split]].
      * intros w [<-|[<-|[<-|Hin]]]; try reflexivity. apply Hkind. exact Hin.
      * rewrite Hok. split.
        -- intros Hall. constructor; [exact Henc | exact Hall].
        -- intros Hall. inversion Hall. assumption.
      * intros Hr. specialize (Hd Hr). cbn [map fst snd].
        change (downloads_of (?a :: ?b :: st_download_button ?d ?f :: ?l))
          with ((f, d) :: downloads_of l).
        rewrite Hd. reflexivity.
      * intros s rest Heq _ Hzero. injection Heq as <- _. exfalso.
        destruct Henc as (Hw & Hh & _). cbn [fst] in Hzero. lia.
    + injection H as <- <-. split; [reflexivity|].
      split; [intros w [<-|[]]; reflexivity|].
      split; [split; [discriminate|];
              intros Hall; inversion Hall as [|? ? Henc _]; subst;
              cbn [fst] in Henc;
              rewrite (Image_save_PNG_ok _ Henc) in Hsave; discriminate|].
      split; [discriminate|].
      intros s rest Heq Hm Hzero. injection Heq as <- _. cbn [fst snd] in *.
      rewrite (Image_save_PNG_empty _ Hm Hzero) in Hsave.
      injection Hsave as <-. split; reflexivity.
Qed.

(** What the block shows when the sheets of the run have pixels and names
    that an archive takes. *)
Lemma show_sheets_ok sheets :
  Forall writable sheets ->
  (forall s, In s sheets -> arcname (snd s) = snd s) ->
  exists expanders,
    archives_of expanders = [] /\
    (forall w, In w expanders -> is_sheet_widget w = true) /\
    downloads_of expanders = map (fun s => (snd s, save_PNG (fst s))) sheets /\
    show_sheets sheets =
    (match sheets with
     | [] => [st_error_no_images]
     | _ =>
         st_success_sheets (len sheets) :: st_header_sheets :: expanders
         ++ (if len sheets >? 1
             then [st_divider; st_subheader_zip;
                   st_zip_download
                     (getvalue
                        {| filelist :=
                             map (fun s => (snd s, save_PNG (fst s)))
                               sheets |})
                     "emo_sheets.zip"]
             else [])
     end, Ok tt).
Proof.
  intros Hall Hnames. unfold show_sheets.
  destruct sheets as [|s0 rest].
  { exists []. repeat split. intros w []. }
  set (sheets := s0 :: rest) in *.
  destruct (sheet_expanders (enumerate sheets)) as [shown r] eqn:E.
  destruct (sheet_expanders_spec _ _ _ _ E) as (Ha & Hkind & Hok & Hd & _).
  assert (Hr : r = Ok tt).
  { apply Hok. eapply Forall_impl; [|exact Hall]. intros s Hs. apply Hs. }
  subst r. exists shown.
  split; [exact Ha|]. split; [exact Hkind|]. split; [apply Hd; reflexivity|].
  destruct (len sheets >? 1).
  - unfold create_zip_file, zip_sheets. rewrite zip_from by assumption.
    cbn [rbind filelist ZipFile_new]. rewrite app_nil_l.
    rewrite (map_ext_in _ (fun s => (snd s, save_PNG (fst s))))
      by (intros s Hs; rewrite Hnames by assumption; reflexivity).
    rewrite app_comm_cons, app_comm_cons. reflexivity.
  - rewrite app_nil_r. reflexivity.
Qed.

(** The archive is the last thing the block shows, after every sheet got
    its button. *)
Lemma show_sheets_zip sheets results r data file_name :
  show_sheets sheets = (results, r) ->
  In (st_zip_download data file_name) results ->
  r = Ok tt /\ file_name = "emo_sheets.zip" /\ 1 < len sheets /\
  create_zip_file save_PNG getvalue sheets = Ok data /\
  downloads_of results = map (fun s => (snd s, save_PNG (fst s))) sheets.
Proof.
  unfold show_sheets. destruct sheets as [|s0 rest].
  { intros H. injection H as <- <-. intros [H|[]]. discriminate. }
  set (sheets := s0 :: rest).
  destruct (sheet_expanders (enumerate sheets)) as [shown r0] eqn:E.
  destruct (sheet_expanders_spec _ _ _ _ E) as (_ & Hkind & _ & Hd & _).
  assert (Hnot : ~ In (st_zip_download data file_name) shown).
  { intros Hin. apply Hkind in Hin. discriminate. }
  destruct r0 as [[]|e].
  2:{ intros H. injection H as <- <-.
      intros [H|[H|H]]; [discriminate | discriminate | contradiction]. }
  specialize (Hd eq_refl).
  destruct (Z.gtb_spec (len sheets) 1) as [Hmany|Hone].
  - destruct (create_zip_file save_PNG getvalue sheets) as [zip_data|e];
      intros H; injection H as <- <-;
      intros [H|[H|H]]; try discriminate;
      apply in_app_iff in H; destruct H as [H|H]; try contradiction.
    + destruct H as [H|[H|[H|[]]]]; try discriminate.
      injection H as <- <-.
      split; [reflexivity|]. split; [reflexivity|]. split; [assumption|].
      split; [reflexivity|].
      change (downloads_of (?a :: ?b :: ?l)) with (downloads_of l).
      rewrite downloads_of_app, Hd. apply app_nil_r.
    + destruct H as [H|[H|[]]]; discriminate.
  - intros H. injection H as <- <-.
    intros [H|[H|H]]; [discriminate | discriminate | contradiction].
Qed.

Lemma sheet_of_size cropped_images k :
  0 < columns -> 0 < rows -> 0 <= k ->
  k * max_images_per_sheet < len cropped_images ->
  width (fst (sheet_of cropped_images k)) = crop_width * columns /\
  exists r, 1 <= r <= rows /\
            height (fst (sheet_of cropped_images k)) = crop_height * r.
Proof.
  intros Hc Hr Hk Hlt.
  assert (HC : 0 < max_images_per_sheet) by (unfold max_images_per_sheet; nia).
  pose proof (sheet_tiles_length cropped_images k Hk HC Hlt) as Hlen.
  unfold sheet_of. cbn [fst].
  destruct (paste_all_size (enumerate (sheet_tiles cropped_images k))
              (canvas (len (sheet_tiles cropped_images k))))
    as (-> & -> & _).
  cbn [width height canvas]. split; [reflexivity|].
  set (n := len (sheet_tiles cropped_images k)) in *.
  exists (ceil_div n columns). split; [|reflexivity].
  pose proof (ceil_div_bounds n columns Hc).
  pose proof (ceil_div_pos n columns Hc ltac:(lia)).
  assert (n <= columns * rows) by (unfold max_images_per_sheet in *; lia).
  split; [lia|].
  assert (Hlt' : (ceil_div n columns - 1) * columns < rows * columns) by lia.
  apply Z.mul_lt_mono_pos_r in Hlt'; lia.
Qed.

(** The sheets of a run that returned: as wide as the grid, one to [rows]
    tile rows high, never more of them than uploads. *)
Lemma returned_sheets files log sheets log' :
  0 < columns -> 0 < rows -> max_images_per_sheet < 2 ^ 53 ->
  process_images files log = (Ok sheets, log') ->
  len sheets <= len files /\
  Forall (fun s => width (fst s) = crop_width * columns /\
                   exists r, 1 <= r <= rows /\
                             height (fst s) = crop_height * r) sheets.
Proof.
  intros Hc Hr Hcap Hrun.
  assert (HC : 0 < max_images_per_sheet) by (unfold max_images_per_sheet; nia).
  destruct (process_images_returned_length _ _ _ _ _ _ Hc Hr Hcap
              (crop_images_eq files log) Hrun) as [_ Hlen].
  destruct (process_images_inv _ _ _ _ Hc Hr Hcap Hrun)
    as (tiles & Hcrop & _ & Hsheets & _).
  rewrite crop_images_eq in Hcrop. injection Hcrop as <- _.
  pose proof (cropped_images_length files) as Hle.
  pose proof (ceil_div_bounds (len (flat_map new_tiles files))
                max_images_per_sheet HC) as Hb.
  split.
  - rewrite Hlen.
    destruct (Z.eq_dec (len (flat_map new_tiles files)) 0) as [H0|H0].
    + rewrite H0. unfold ceil_div. cbn. unfold len. lia.
    + assert (Hpos : 0 < len (flat_map new_tiles files))
        by (unfold len in *; lia).
      pose proof (ceil_div_pos _ _ HC Hpos) as Hcd.
      assert ((ceil_div (len (flat_map new_tiles files))
                 max_images_per_sheet - 1) * 1
              <= (ceil_div (len (flat_map new_tiles files))
                    max_images_per_sheet - 1) * max_images_per_sheet)
        by (apply Z.mul_le_mono_nonneg_l; lia).
      lia.
  - rewrite Hsheets. apply Forall_forall. intros s Hs.
    apply in_map_iff in Hs. destruct Hs as (k & <- & Hk).
    apply in_seq in Hk. apply sheet_of_size; try assumption; [lia | nia].
Qed.

Lemma process_images_mode files log sheets log' :
  process_images files log = (Ok sheets, log') ->
  Forall (fun s => mode (fst s) = "RGBA") sheets.
Proof.
  intros Hrun. rewrite process_images_eq in Hrun. injection Hrun as Hrun _.
  apply make_sheets_each in Hrun. eapply Forall_impl; [|exact Hrun].
  intros s (i & Hs). eapply make_sheet_mode. exact Hs.
Qed.

Lemma len_nil_inv {A} (l : list A) : len l = 0 -> l = [].
Proof. destruct l; [reflexivity | unfold len; cbn; lia]. Qed.

(** The information column of a positive grid does not raise. *)
Lemma info_column_ok files :
  0 < columns -> 0 < rows -> max_images_per_sheet < 2 ^ 53 ->
  len files < 2 ^ 53 ->
  exists information, info_column files = Ok information.
Proof.
  intros Hc Hr Hcap Hn. unfold info_column.
  destruct files as [|f files']; [eexists; reflexivity|].
  set (l := f :: files') in *.
  destruct (truediv_ceil_ok (len l) (columns * rows)) as (q & -> & Hq);
    [split; [unfold len; lia | exact Hn] | split; [nia | exact Hcap] |].
  cbn [rbind]. rewrite Hq. cbn [rbind]. eexists. reflexivity.
Qed.

(** What a click shows after a run that returned sheets with pixels. *)
Lemma create_sheets_ok files sheets shown :
  0 < columns -> 0 < rows -> max_images_per_sheet < 2 ^ 53 ->
  len files < 2 ^ 53 -> 0 < crop_width -> 0 < crop_height ->
  process_images files [] = (Ok sheets, shown) ->
  exists expanders,
    archives_of expanders = [] /\
    (forall w, In w expanders -> is_sheet_widget w = true) /\
    downloads_of expanders = map (fun s => (snd s, save_PNG (fst s))) sheets /\
    create_sheets files =
    map st_notice shown ++
    match sheets with
    | [] => [st_error_no_images]
    | _ =>
        st_success_sheets (len sheets) :: st_header_sheets :: expanders
        ++ (if len sheets >? 1
            then [st_divider; st_subheader_zip;
                  st_zip_download
                    (getvalue
                       {| filelist :=
                            map (fun s => (snd s, save_PNG (fst s)))
                              sheets |})
                    "emo_sheets.zip"]
            else [])
    end.
Proof.
  intros Hc Hr Hcap Hn Hw Hh Hrun.
  destruct (returned_sheets _ _ _ _ Hc Hr Hcap Hrun) as [Hlen Hsize].
  assert (Hmake : make_sheets (flat_map new_tiles files) = Ok sheets).
  { rewrite process_images_eq in Hrun. injection Hrun as Hmake _.
    exact Hmake. }
  pose proof (make_sheets_named _ _ Hmake) as Hnamed.
  pose proof (process_images_mode _ _ _ _ Hrun) as Hmode.
  assert (Hboth : Forall (fun s => writable s /\ arcname (snd s) = snd s)
                    sheets).
  { rewrite Forall_forall in *. intros [sheet filename] Hs.
    destruct (Hsize _ Hs) as (Hwd & r & Hrr & Hht).
    destruct (Hnamed _ Hs) as (k & Hk & Hname).
    pose proof (Hmode _ Hs) as Hm. cbn [fst snd] in *.
    subst filename. split.
    - apply sheet_filename_writable; [|lia].
      split; [rewrite Hwd; nia|]. split; [rewrite Hht; nia|].
      rewrite Hm. reflexivity.
    - apply arcname_sheet_filename. lia. }
  destruct (show_sheets_ok sheets) as (expanders & Ha & Hkind & Hd & Hshow).
  { eapply Forall_impl; [|exact Hboth]. intros s Hs. apply Hs. }
  { rewrite Forall_forall in Hboth. intros s Hs. apply Hboth. exact Hs. }
  exists expanders. split; [exact Ha|]. split; [exact Hkind|].
  split; [exact Hd|].
  unfold create_sheets. rewrite Hrun, Hshow. reflexivity.
Qed.

(** What a click shows after a run that returned sheets without pixels:
    the picture of the first sheet cannot be encoded. *)
Lemma create_sheets_empty files sheets shown :
  0 < columns -> 0 < rows -> max_images_per_sheet < 2 ^ 53 ->
  crop_width = 0 \/ crop_height = 0 ->
  process_images files [] = (Ok sheets, shown) ->
  sheets <> [] ->
  exists filename,
    create_sheets files =
    map st_notice shown
    ++ [st_success_sheets (len sheets); st_header_sheets;
        st_expander 1 filename true; st_error_exception ValueError].
Proof.
  intros Hc Hr Hcap Hzero Hrun Hne.
  destruct (returned_sheets _ _ _ _ Hc Hr Hcap Hrun) as [_ Hsize].
  destruct sheets as [|s0 rest]; [contradiction|].
  set (sheets := s0 :: rest) in *.
  pose proof (process_images_mode _ _ _ _ Hrun) as Hmode.
  assert (Hm : PNG_mode (mode (fst s0)) = true).
  { inversion Hmode as [|? ? Hm _]; subst. rewrite Hm. reflexivity. }
  assert (Hno : width (fst s0) <= 0 \/ height (fst s0) <= 0).
  { inversion Hsize as [|? ? (Hwd & r & Hrr & Hht) _]; subst.
    destruct Hzero as [Hz|Hz]; [left; rewrite Hwd | right; rewrite Hht];
      rewrite Hz; lia. }
  unfold create_sheets. rewrite Hrun. unfold show_sheets. fold sheets.
  destruct (sheet_expanders (enumerate sheets)) as [shown' r] eqn:E.
  destruct (sheet_expanders_spec _ _ _ _ E) as (_ & _ & _ & _ & Hfirst).
  destruct (Hfirst s0 rest eq_refl Hm Hno) as [-> ->].
  exists (snd s0). reflexivity.
Qed.

(** X14. Lines 176-290: with uploads, a positive grid and fewer than
    [2 ^ 53] uploads, the information column does not raise, so that a click
    on the start button, when the preview did not raise, puts the block of
    the button after the two columns and the script goes on.  After a run
    that returned, the block shows exactly the notices of the image loop,
    and it reports that no image could be processed exactly when the loop
    collected no tile.  With a crop size of at least one pixel each way the
    block never ends in the exception message: it announces the number of
    sheets, the ceiling of the number of tiles by the capacity of a sheet,
    puts one download button per sheet, and offers the archive, once,
    exactly when the tiles exceed the capacity of one sheet.  With a crop
    width or height of zero and at least one tile, the sheets have no pixel:
    the block ends in the exception message at the picture of the first
    sheet, with no download button and no archive. *)
Theorem create_sheets_outcome files cropped_images shown sheets shown' :
  0 < columns -> 0 < rows -> max_images_per_sheet < 2 ^ 53 ->
  len files < 2 ^ 53 ->
  crop_images files [] = (Ok cropped_images, shown) ->
  process_images files [] = (Ok sheets, shown') ->
  let page := create_sheets files in
  let n := ceil_div (len cropped_images) max_images_per_sheet in
  (files <> [] ->
   forall show_preview,
     snd (upload_column show_preview files) = Ok tt ->
     exists information,
       info_column files = Ok information /\
       main show_preview true files =
       (fst (upload_column show_preview files) ++ information ++ page,
        Ok tt)) /\
  (forall x, In (st_notice x) page <-> In x shown) /\
  (In st_error_no_images page <-> cropped_images = []) /\
  (0 < crop_width -> 0 < crop_height ->
   (forall e, ~ In (st_error_exception e) page) /\
   (forall k, In (st_success_sheets k) page <-> cropped_images <> [] /\ k = n) /\
   len (downloads_of page) = n /\
   len (archives_of page) =
   (if max_images_per_sheet <? len cropped_images then 1 else 0)) /\
  (cropped_images <> [] -> crop_width = 0 \/ crop_height = 0 ->
   In (st_error_exception ValueError) page /\
   downloads_of page = [] /\ archives_of page = []).
Proof.
  intros Hc Hr Hcap Hfiles Hcrop Hrun page n.
  split.
  { intros Hne show_preview Hup.
    destruct (info_column_ok files Hc Hr Hcap Hfiles) as (information & Hinfo).
    exists information. split; [exact Hinfo|].
    unfold main. destruct (upload_column show_preview files) as [uploads r].
    cbn [fst snd] in *. subst r. rewrite Hinfo.
    destruct files as [|f files']; [contradiction | reflexivity]. }
  destruct (process_images_returned_length _ _ _ _ _ _ Hc Hr Hcap Hcrop Hrun)
    as [-> Hlen].
  fold n in Hlen.
  assert (HC : 0 < max_images_per_sheet) by (unfold max_images_per_sheet; nia).
  pose proof (ceil_div_bounds (len cropped_images) _ HC) as Hb. fold n in Hb.
  assert (Hnonneg : 0 <= len cropped_images) by (unfold len; lia).
  assert (Hempty : sheets = [] <-> cropped_images = []).
  { split; intros ->.
    - apply len_nil_inv. change (len []) with 0 in Hlen. nia.
    - apply len_nil_inv. rewrite Hlen. unfold n, ceil_div. reflexivity. }
  assert (Hdims : cropped_images <> [] -> 0 <= crop_width /\ 0 <= crop_height).
  { intros Hne.
    destruct (process_images_inv _ _ _ _ Hc Hr Hcap Hrun)
      as (tiles & Hcrop' & Hwc & _).
    rewrite Hcrop in Hcrop'. injection Hcrop' as <-.
    destruct cropped_images as [|t ?]; [contradiction|].
    inversion Hwc as [|? ? (_ & _ & ? & ?) _]. split; assumption. }
  assert (Hnot : forall w, (forall x, w <> st_notice x) ->
                           ~ In w (map st_notice shown)).
  { intros w Hw Hin. apply in_map_iff in Hin.
    destruct Hin as (x & <- & _). apply (Hw x). reflexivity. }
  assert (Hcases :
    (cropped_images = [] /\
     page = map st_notice shown ++ [st_error_no_images]) \/
    (cropped_images <> [] /\ 0 < crop_width /\ 0 < crop_height /\
     exists expanders,
       archives_of expanders = [] /\
       (forall w, In w expanders -> is_sheet_widget w = true) /\
       len (downloads_of expanders) = n /\
       page = map st_notice shown
              ++ st_success_sheets n :: st_header_sheets :: expanders
              ++ (if n >? 1
                  then [st_divider; st_subheader_zip;
                        st_zip_download
                          (getvalue
                             {| filelist :=
                                  map (fun s => (snd s, save_PNG (fst s)))
                                    sheets |})
                          "emo_sheets.zip"]
                  else [])) \/
    (cropped_images <> [] /\ (crop_width = 0 \/ crop_height = 0) /\
     exists filename,
       page = map st_notice shown
              ++ [st_success_sheets n; st_header_sheets;
                  st_expander 1 filename true;
                  st_error_exception ValueError])).
  { destruct cropped_images as [|t tiles] eqn:Etiles.
    - left. split; [reflexivity|].
      assert (sheets = []) by (apply Hempty; reflexivity). subst sheets.
      unfold page, create_sheets. rewrite Hrun. reflexivity.
    - right. rewrite <- Etiles in *.
      assert (Hne : cropped_images <> []) by (rewrite Etiles; discriminate).
      assert (Hsne : sheets <> []) by (intros E; apply Hne, Hempty, E).
      destruct (Hdims Hne) as [Hw0 Hh0].
      destruct (Z_lt_le_dec 0 crop_width) as [Hw|Hw];
        [destruct (Z_lt_le_dec 0 crop_height) as [Hh|Hh]|].
      + left. split; [exact Hne|]. split; [exact Hw|]. split; [exact Hh|].
        destruct (create_sheets_ok _ _ _ Hc Hr Hcap Hfiles Hw Hh Hrun)
          as (expanders & Ha & Hkind & Hd & Hpage).
        exists expanders. split; [exact Ha|]. split; [exact Hkind|].
        split; [rewrite Hd; unfold len in *; rewrite length_map; exact Hlen|].
        unfold page. rewrite Hpage, Hlen.
        destruct sheets; [contradiction | reflexivity].
      + right. split; [exact Hne|].
        assert (Hz : crop_width = 0 \/ crop_height = 0) by (right; lia).
        split; [exact Hz|].
        destruct (create_sheets_empty _ _ _ Hc Hr Hcap Hz Hrun Hsne)
          as (filename & Hpage).
        exists filename. unfold page. rewrite Hpage, Hlen. reflexivity.
      + right. split; [exact Hne|].
        assert (Hz : crop_width = 0 \/ crop_height = 0) by (left; lia).
        split; [exact Hz|].
        destruct (create_sheets_empty _ _ _ Hc Hr Hcap Hz Hrun Hsne)
          as (filename & Hpage).
        exists filename. unfold page. rewrite Hpage, Hlen. reflexivity. }
  clearbody page.
  destruct Hcases as [(Hnil & ->)|[(Hne & Hw & Hh & expanders & Ha & Hkind
                                     & Hd & ->)
                                  |(Hne & Hzero & filename & ->)]].
  - (* no tile *)
    split; [|split; [|split]].
    + intros x. rewrite in_app_iff. split.
      * intros [H|[H|[]]]; [|discriminate].
        apply in_map_iff in H. destruct H as (y & Hy & Hin).
        injection Hy as <-. exact Hin.
      * intros H. left. apply in_map. exact H.
    + split; [intros _; exact Hnil|].
      intros _. apply in_app_iff. right. left. reflexivity.
    + intros Hw Hh. subst cropped_images.
      assert (Hn0 : n = 0) by reflexivity.
      split; [|split; [|split]].
      * intros e H. apply in_app_iff in H. destruct H as [H|[H|[]]];
          [|discriminate]. revert H. apply Hnot. discriminate.
      * intros k. split.
        -- intros H. apply in_app_iff in H. destruct H as [H|[H|[]]];
             [|discriminate]. exfalso. revert H. apply Hnot. discriminate.
        -- intros [Hne _]. contradiction.
      * rewrite downloads_of_app, downloads_of_notices. rewrite Hn0.
        reflexivity.
      * rewrite archives_of_app, archives_of_notices.
        change (len []) with 0.
        destruct (Z.ltb_spec max_images_per_sheet 0); [lia | reflexivity].
    + intros Hne. contradiction.
  - (* sheets with pixels *)
    assert (Hzip : forall w,
              In w (if n >? 1
                    then [st_divider; st_subheader_zip;
                          st_zip_download
                            (getvalue
                               {| filelist :=
                                    map (fun s => (snd s, save_PNG (fst s)))
                                      sheets |})
                            "emo_sheets.zip"]
                    else []) ->
              w = st_divider \/ w = st_subheader_zip \/
              exists d f, w = st_zip_download d f).
    { intros w H. destruct (n >? 1); [|destruct H].
      destruct H as [<-|[<-|[<-|[]]]]; eauto. }
    split; [|split; [|split]].
    + intros x. rewrite in_app_iff. split.
      * intros [H|[H|[H|H]]]; try discriminate.
        -- apply in_map_iff in H. destruct H as (y & Hy & Hin).
           injection Hy as <-. exact Hin.
        -- apply in_app_iff in H. destruct H as [H|H].
           ++ apply Hkind in H. discriminate.
           ++ apply Hzip in H. destruct H as [H|[H|(? & ? & H)]];
                discriminate.
      * intros H. left. apply in_map. exact H.
    + split; [|intros E; contradiction].
      intros H. exfalso. apply in_app_iff in H.
      destruct H as [H|[H|[H|H]]]; try discriminate.
      * revert H. apply Hnot. discriminate.
      * apply in_app_iff in H. destruct H as [H|H].
        -- apply Hkind in H. discriminate.
        -- apply Hzip in H. destruct H as [H|[H|(? & ? & H)]]; discriminate.
    + intros _ _. split; [|split; [|split]].
      * intros e H. apply in_app_iff in H.
        destruct H as [H|[H|[H|H]]]; try discriminate.
        -- revert H. apply Hnot. discriminate.
        -- apply in_app_iff in H. destruct H as [H|H].
           ++ apply Hkind in H. discriminate.
           ++ apply Hzip in H. destruct H as [H|[H|(? & ? & H)]];
                discriminate.
      * intros k. rewrite in_app_iff. split.
        -- intros [H|[H|[H|H]]]; try discriminate.
           ++ exfalso. revert H. apply Hnot. discriminate.
           ++ injection H as <-. split; [exact Hne | reflexivity].
           ++ exfalso. apply in_app_iff in H. destruct H as [H|H].
              ** apply Hkind in H. discriminate.
              ** apply Hzip in H. destruct H as [H|[H|(? & ? & H)]];
                   discriminate.
        -- intros [_ ->]. right. left. reflexivity.
      * rewrite downloads_of_app, downloads_of_notices, app_nil_l.
        change (downloads_of (?a :: ?b :: ?l)) with (downloads_of l).
        rewrite downloads_of_app.
        assert (Hz : downloads_of
                       (if n >? 1
                        then [st_divider; st_subheader_zip;
                              st_zip_download
                                (getvalue
                                   {| filelist :=
                                        map (fun s =>
                                               (snd s, save_PNG (fst s)))
                                          sheets |})
                                "emo_sheets.zip"]
                        else []) = [])
          by (destruct (n >? 1); reflexivity).
        rewrite Hz, app_nil_r. exact Hd.
      * rewrite archives_of_app, archives_of_notices, app_nil_l.
        change (archives_of (?a :: ?b :: ?l)) with (archives_of l).
        rewrite archives_of_app, Ha, app_nil_l.
        destruct (Z.gtb_spec n 1), (Z.ltb_spec max_images_per_sheet
                                      (len cropped_images));
          try reflexivity; nia.
    + intros _ Hzero. lia.
  - (* sheets without pixels *)
    split; [|split; [|split]].
    + intros x. rewrite in_app_iff. split.
      * intros [H|[H|[H|[H|[H|[]]]]]]; try discriminate.
        apply in_map_iff in H. destruct H as (y & Hy & Hin).
        injection Hy as <-. exact Hin.
      * intros H. left. apply in_map. exact H.
    + split; [|intros E; contradiction].
      intros H. exfalso. apply in_app_iff in H.
      destruct H as [H|[H|[H|[H|[H|[]]]]]]; try discriminate.
      revert H. apply Hnot. discriminate.
    + intros Hw Hh. lia.
    + intros _ _. split; [|split].
      * apply in_app_iff. right. right. right. right. left. reflexivity.
      * rewrite downloads_of_app, downloads_of_notices. reflexivity.
      * rewrite archives_of_app, archives_of_notices. reflexivity.
Qed.

(** X15. Lines 256-287 and 89-103: when the page offers the archive, its
    file name is [emo_sheets.zip]; the archive holds, in the order of the
    page, exactly the file names and the PNG bytes of the download buttons
    of the sheets; there are at least two of them, and no two have the same
    file name. *)
Theorem zip_matches_downloads files data file_name :
  In (st_zip_download data file_name) (create_sheets files) ->
  let entries := downloads_of (create_sheets files) in
  data = getvalue {| filelist := entries |} /\
  file_name = "emo_sheets.zip" /\
  2 <= len entries /\
  NoDup (map fst entries).
Proof.
  unfold create_sheets. rewrite process_images_eq.
  destruct (make_sheets (flat_map new_tiles files)) as [sheets|e] eqn:Hm.
  2:{ intros H. apply in_app_iff in H. destruct H as [H|[H|[]]];
        [|discriminate].
      apply in_map_iff in H. destruct H as (? & H & _). discriminate. }
  destruct (show_sheets sheets) as [results r] eqn:Hshow.
  intros H.
  assert (Hin : In (st_zip_download data file_name) results).
  { apply in_app_iff in H. destruct H as [H|H].
    - apply in_map_iff in H. destruct H as (? & H & _). discriminate.
    - destruct r; [exact H|]. apply in_app_iff in H.
      destruct H as [H|[H|[]]]; [exact H | discriminate]. }
  destruct (show_sheets_zip _ _ _ _ _ Hshow Hin)
    as (-> & -> & Hmany & Hzip & Hd).
  cbv zeta. rewrite downloads_of_app, downloads_of_notices, app_nil_l, Hd.
  split; [|split; [reflexivity|split]].
  - unfold create_zip_file, zip_sheets in Hzip.
    destruct (rfold sheets (write_sheet save_PNG) ZipFile_new)
      as [zip_file|] eqn:Hz; cbn [rbind] in Hzip; [|discriminate].
    injection Hzip as <-. apply zip_from_inv in Hz. destruct Hz as [_ ->].
    cbn [filelist ZipFile_new]. rewrite app_nil_l. do 2 f_equal.
    apply map_ext_in. intros s Hs.
    pose proof (make_sheets_named _ _ Hm) as Hnamed.
    rewrite Forall_forall in Hnamed.
    destruct (Hnamed s Hs) as (k & Hk & ->).
    rewrite arcname_sheet_filename by lia. reflexivity.
  - unfold len in *. rewrite length_map. lia.
  - rewrite map_map. cbn [fst].
    apply (make_sheets_names_NoDup _ _ Hm).
Qed.

(** X16. Lines 118-169 with 10-87 and 205-290: for every batch, with any
    values the sidebar accepts, the information column is computed without
    an exception, a click on the start button never ends in the exception
    message, and every sheet is between 50 and 5000 pixels wide and high. *)
Theorem sidebar_settings_run files :
  sidebar_values -> len files < 2 ^ 53 ->
  (exists shown, info_column files = Ok shown) /\
  (forall e, ~ In (st_error_exception e) (create_sheets files)) /\
  (forall sheet filename,
      In (sheet, filename) (returned (process_images files [])) ->
      50 <= width sheet <= 5000 /\ 50 <= height sheet <= 5000).
Proof.
  intros Hside Hn.
  destruct (sidebar_fits Hside) as (Hc & Hr & Hcap & Hfit & Hw0 & Hh0).
  destruct Hside as (Hw & Hh & Hcols & Hrows & _ & _).
  destruct (process_images_sheets files [] Hc Hr Hcap Hfit)
    as (tiles & shown & _ & _ & Hrun).
  split; [|split].
  - unfold info_column. destruct files as [|f files']; [eexists; reflexivity|].
    set (l := f :: files') in *.
    destruct (truediv_ceil_ok (len l) (columns * rows)) as (q & -> & Hq);
      [split; [unfold len; lia | exact Hn] | split; [nia | exact Hcap] |].
    cbn [rbind]. rewrite Hq. cbn [rbind]. eexists. reflexivity.
  - intros e.
    destruct (create_sheets_ok _ _ _ Hc Hr Hcap Hn Hw0 Hh0 Hrun)
      as (expanders & _ & Hkind & _ & ->).
    intros H. apply in_app_iff in H. destruct H as [H|H].
    + apply in_map_iff in H. destruct H as (? & H & _). discriminate.
    + destruct (map _ _) as [|s0 rest] in H.
      * destruct H as [H|[]]. discriminate.
      * destruct H as [H|[H|H]]; try discriminate.
        apply in_app_iff in H. destruct H as [H|H].
        -- apply Hkind in H. discriminate.
        -- destruct (_ >? 1); [|destruct H].
           destruct H as [H|[H|[H|[]]]]; discriminate.
  - intros sheet filename. unfold returned. rewrite Hrun. cbn [fst].
    intros H. apply in_map_iff in H. destruct H as (k & Hs & Hk).
    apply in_seq in Hk.
    assert (HC : 0 < max_images_per_sheet)
      by (unfold max_images_per_sheet; nia).
    pose proof (ceil_div_bounds (len tiles) max_images_per_sheet HC).
    destruct (sheet_of_size tiles (Z.of_nat k)) as (Hwd & r & Hrr & Hht);
      [lia | lia | lia | nia |].
    rewrite Hs in Hwd, Hht. cbn [fst] in Hwd, Hht. rewrite Hwd, Hht. nia.
Qed.

(** ** The claims about the archive *)

(** C8, as amended.  For pairs whose sheets have pixels, in a mode PNG can
    hold, and whose file names are not empty, hold no NUL character and are
    at most 65535 bytes long,
    the archive has exactly one entry per (sheet, file name) pair, in the
    order of the pairs; the entry of a pair carries its file name and the
    PNG encoding of its sheet (PNG keeps an RGBA raster as it is), so the
    names and the contents of the archive are those of the sheets encoded
    one by one, and the bytes returned are those of this archive.  For any
    list, [create_zip_file] returns exactly when every pair can be written,
    and the entries then carry what [ZipInfo] keeps of the file names. *)
Theorem archive_entries sheets :
  (Forall writable sheets ->
   (forall s, In s sheets -> arcname (snd s) = snd s) ->
   exists zip_file,
     zip_sheets save_PNG sheets = Ok zip_file /\
     let entries := filelist zip_file in
     entries = map (fun s => (snd s, save_PNG (fst s))) sheets /\
     List.length entries = List.length sheets /\
     map fst entries = map snd sheets /\
     map snd entries = map save_PNG (map fst sheets) /\
     (forall k sheet filename,
         nth_error sheets k = Some (sheet, filename) ->
         nth_error entries k = Some (filename, save_PNG sheet)) /\
     create_zip_file save_PNG getvalue sheets =
     Ok (getvalue
           {| filelist := map (fun s => (snd s, save_PNG (fst s))) sheets |}))
  /\
  ((exists data, create_zip_file save_PNG getvalue sheets = Ok data) <->
   Forall writable sheets) /\
  (forall zip_file,
      zip_sheets save_PNG sheets = Ok zip_file ->
      filelist zip_file =
      map (fun s => (arcname (snd s), save_PNG (fst s))) sheets).
Proof.
  split; [|split].
  - intros Hall Hnames. eexists. unfold create_zip_file, zip_sheets.
    rewrite zip_from by assumption.
    split; [reflexivity|]. cbv zeta. cbn [rbind filelist ZipFile_new].
    rewrite app_nil_l.
    rewrite (map_ext_in _ (fun s => (snd s, save_PNG (fst s))))
      by (intros s Hs; rewrite Hnames by assumption; reflexivity).
    split; [reflexivity|]. split; [apply length_map|].
    split; [rewrite map_map; reflexivity|].
    split; [rewrite !map_map; reflexivity|].
    split; [|reflexivity].
    intros k sheet filename H. rewrite nth_error_map, H. reflexivity.
  - unfold create_zip_file, zip_sheets. split.
    + intros (data & H).
      destruct (rfold sheets (write_sheet save_PNG) ZipFile_new)
        as [zip_file|] eqn:Hz; [|discriminate].
      apply zip_from_inv in Hz. apply Hz.
    + intros Hall. rewrite zip_from by assumption. eexists. reflexivity.
  - intros zip_file H. unfold zip_sheets in H. apply zip_from_inv in H.
    destruct H as [_ ->]. reflexivity.
Qed.

(** X17. Lines 95-100: archiving composes over lists of sheets: the archive
    of one list followed by another holds the entries of the first followed
    by those of the second, repeated file names included, and it is refused
    where the first list or else the second is. *)
Theorem archive_of_appended sheets1 sheets2 :
  zip_sheets save_PNG (sheets1 ++ sheets2) =
  (zip_file1 <- zip_sheets save_PNG sheets1 ;;
   zip_file2 <- zip_sheets save_PNG sheets2 ;;
   Ok {| filelist := filelist zip_file1 ++ filelist zip_file2 |})%py.
Proof.
  unfold zip_sheets. rewrite rfold_app.
  destruct (rfold sheets1 (write_sheet save_PNG) ZipFile_new)
    as [zip_file1|e]; cbn [rbind]; [|reflexivity].
  rewrite <- zip_after. cbn [filelist ZipFile_new]. rewrite app_nil_r.
  destruct zip_file1. reflexivity.
Qed.

End SheetBuilder.

(** ** Concrete batches *)

(** A few values of the float operations: [1 / 3] is [0x1.5555555555555p-2],
    a quotient too large for a float raises, one too small is zero, and
    [math.ceil] and [int] differ on [2.5] and agree on [-3.5]. *)
Example float_values :
  truediv 1 3 = Ok (S754_finite false 6004799503160661 (-54)) /\
  truediv (10 ^ 400) 3 = Raise OverflowError /\
  truediv 1 (10 ^ 400) = Ok (S754_zero false) /\
  truediv 5 0 = Raise ZeroDivisionError /\
  (x <- truediv 10 4 ;; math_ceil x)%py = Ok 3 /\
  (x <- truediv 10 4 ;; int_of_float x)%py = Ok 2 /\
  (x <- truediv (-7) 2 ;; math_ceil x)%py = Ok (-3) /\
  (x <- truediv (-7) 2 ;; int_of_float x)%py = Ok (-3).
Proof. repeat split; vm_compute; reflexivity. Qed.

(** C4. A square upload of 539 x 539 pixels under the default
    [max_width = 400]: the exact scaled height is [539 * 400 / 539 = 400],
    but the binary64 quotient [400 / 539] lies below the exact ratio, its
    product with 539 rounds to the float just below 400, and [int] truncates
    it: the image is resized to 400 x 399. *)
Theorem resized_height_one_below :
  let f := upload "face.png" "RGBA" 539 539 in
  exists img,
    load_image nearest 400 f [] =
    (Ok (img, 400, 399), [info_resized "face.png" 539 539 400 399]) /\
    width img = 400 /\ height img = 399 /\
    truediv 400 539 = Ok (S754_finite false 6684377925596283 (-53)) /\
    mul_int_float 539 (S754_finite false 6684377925596283 (-53)) =
    Ok (S754_finite false 7036874417766399 (-44)) /\
    int_of_float (S754_finite false 7036874417766399 (-44)) = Ok 399 /\
    539 * 400 / 539 = 400 /\ (539 * 400) mod 539 = 0.
Proof.
  cbv zeta. eexists. split; [vm_compute; reflexivity|]. repeat split.
Qed.

(** C7 does not hold as stated: with one tile per sheet, a batch of a
    hundred uploads gives a hundred sheets, the hundredth is named
    ["Emo_sheet_100.png"], and no two characters between ["Emo_sheet_"] and
    [".png"] give that name. *)
Lemma hundredth_sheet_name :
  let run :=
    process_images nearest mix 50 50 1 1 400 0
      (repeat (upload "face.png" "RGBA" 100 100) 100) [] in
  List.length (returned run) = 100%nat /\
  option_map snd (nth_error (returned run) 99) = Some "Emo_sheet_100.png" /\
  forall d1 d2 : ascii,
    "Emo_sheet_100.png" <>
    String.append "Emo_sheet_" (String d1 (String d2 ".png")).
Proof.
  cbv zeta. split; [vm_compute; reflexivity|].
  split; [vm_compute; reflexivity|].
  intros d1 d2 H. cbn in H. discriminate.
Qed.

(** C8 does not hold as stated for every list of pairs: a pair with an
    empty file name makes [writestr] raise; of a file name with a NUL
    character the entry keeps the part before it only; and a sheet without
    pixels, or in a mode the PNG writer does not know, cannot be
    encoded. *)
Lemma unnamed_sheet_not_archived :
  let sheet := plain "RGBA" 144 144 (0, 0, 0, 0) in
  (forall save_PNG getvalue,
      create_zip_file save_PNG getvalue [(sheet, EmptyString)]
      = Raise IndexError) /\
  (forall save_PNG,
      zip_sheets save_PNG [(sheet, String "a" (String "000" "b"))]
      = Ok {| filelist := [("a", save_PNG sheet)] |}) /\
  (forall save_PNG getvalue,
      create_zip_file save_PNG getvalue
        [(plain "RGBA" 0 144 (0, 0, 0, 0), "Emo_sheet.png")]
      = Raise ValueError) /\
  (forall save_PNG getvalue,
      create_zip_file save_PNG getvalue
        [(plain "CMYK" 144 144 (0, 0, 0, 0), "Emo_sheet.png")]
      = Raise OSError).
Proof.
  cbv zeta. split; [|split; [|split]].
  - intros save_PNG getvalue. reflexivity.
  - intros save_PNG. reflexivity.
  - intros save_PNG getvalue. reflexivity.
  - intros save_PNG getvalue. reflexivity.
Qed.

(** The three scenarios of the specification. *)

Example ten_uploads_two_sheets :
  let run :=
    process_images nearest mix 144 144 4 2 400 0
      (repeat (upload "face.png" "RGB" 300 300) 10) [] in
  crop_box 144 144 0 300 = (78, 20, 222, 164) /\
  map (fun s => (size (fst s), snd s)) (returned run) =
  [((576, 288), "Emo_sheet.png"); ((576, 144), "Emo_sheet_02.png")] /\
  snd run = [].
Proof. cbv zeta. repeat split; vm_compute; reflexivity. Qed.

Example small_upload_is_skipped :
  process_images nearest mix 144 144 4 2 400 0
    [upload "face.png" "RGB" 100 100] [] =
  (Ok [], [warning_too_small "face.png" 100 100 144 144]).
Proof. vm_compute. reflexivity. Qed.

Example wide_upload_is_halved :
  let run :=
    process_images nearest mix 144 144 4 2 400 0
      [upload "face.png" "RGB" 800 600] [] in
  crop_box 144 144 0 400 = (128, 20, 272, 164) /\
  map (fun s => (size (fst s), snd s)) (returned run) =
  [((576, 144), "Emo_sheet.png")] /\
  snd run = [info_resized "face.png" 800 600 400 300].
Proof. cbv zeta. repeat split; vm_compute; reflexivity. Qed.

(** The theorems above at a batch of three 300 x 300 uploads, cropped to
    144 x 144 and laid two to a sheet. *)

Lemma three_uploads_run :
  let files := repeat (upload "a.png" "RGB" 300 300) 3 in
  exists cropped_images sheets,
    crop_images nearest 144 144 400 0 files [] = (Ok cropped_images, []) /\
    len cropped_images = 3 /\
    process_images nearest mix 144 144 2 1 400 0 files [] = (Ok sheets, []) /\
    len sheets = 2.
Proof.
  cbv zeta.
  assert (Hcrop : exists cropped_images,
             crop_images nearest 144 144 400 0
               (repeat (upload "a.png" "RGB" 300 300) 3) []
             = (Ok cropped_images, []) /\ len cropped_images = 3).
  { eexists. split; [vm_compute; reflexivity | reflexivity]. }
  destruct Hcrop as (cropped_images & Hcrop & Hn).
  assert (Hfit : canvas_fits 144 144 2 1) by (split; vm_compute; discriminate).
  destruct (process_images_length nearest mix 144 144 2 1 400 0 _ _ _ _
              eq_refl eq_refl eq_refl Hfit Hcrop) as (sheets & Hrun & Hlen).
  exists cropped_images, sheets.
  split; [exact Hcrop|]. split; [exact Hn|]. split; [exact Hrun|].
  rewrite Hlen, Hn. vm_compute. reflexivity.
Qed.

Lemma tile_is_crop_rectangle_witness :
  exists t,
    crop_image nearest 144 144 400 0 (upload "a.png" "RGB" 300 300) []
    = (Ok (Some t), []) /\
    width t = 144 /\ height t = 144 /\
    getpixel t 0 0 = (200, 150, 100, 255).
Proof.
  eexists. split; [vm_compute; reflexivity|].
  destruct (tile_is_crop_rectangle nearest 144 144 400 0
              (upload "a.png" "RGB" 300 300) [] [] _ [] eq_refl)
    as (img & _ & _ & _ & Hw & Hh & _).
  split; [exact Hw|]. split; [exact Hh|]. reflexivity.
Defined.

Lemma crop_box_inside_image_witness :
  let img := plain "RGBA" 300 300 (200, 150, 100, 255) in
  (0 < 144 /\ 0 < 144 /\
   too_small 144 144 0 (width img) (height img) = false /\
   crop_box 144 144 0 (width img) = (78, 20, 222, 164)) /\
  0 <= 78 /\ 222 <= width img /\ 0 <= 20 /\ 20 = 20 /\ 20 < 164 /\
  164 <= height img.
Proof.
  cbv zeta. split; [repeat split|].
  pose proof (crop_box_inside_image 144 144 0
                (plain "RGBA" 300 300 (200, 150, 100, 255)) 78 20 222 164
                eq_refl eq_refl eq_refl eq_refl)
    as (H1 & H2 & H3 & H4 & H5 & H6 & _).
  repeat split; assumption.
Defined.

Lemma skipped_and_failed_uploads_witness :
  let a := upload "a.png" "RGB" 300 300 in
  let small := upload "small.png" "RGB" 100 100 in
  let broken := broken_upload "notes.txt" in
  (too_small 144 144 0 100 100 = true /\
   fst (process_images nearest mix 144 144 2 1 400 0 [a; small; a] []) =
   fst (process_images nearest mix 144 144 2 1 400 0 [a; a] []) /\
   snd (process_images nearest mix 144 144 2 1 400 0 [a; small; a] []) =
   [warning_too_small "small.png" 100 100 144 144]) /\
  (crop_image nearest 144 144 400 0 broken [] =
   (Raise UnidentifiedImageError, []) /\
   fst (process_images nearest mix 144 144 2 1 400 0 [a; broken; a] []) =
   fst (process_images nearest mix 144 144 2 1 400 0 [a; a] []) /\
   snd (process_images nearest mix 144 144 2 1 400 0 [a; broken; a] []) =
   [error_processing "notes.txt" UnidentifiedImageError]).
Proof.
  cbv zeta. split.
  - split; [reflexivity|].
    destruct (skipped_and_failed_uploads nearest mix 144 144 2 1 400 0
                [upload "a.png" "RGB" 300 300]
                (upload "small.png" "RGB" 100 100)
                [upload "a.png" "RGB" 300 300] []) as [Hskip _].
    destruct (Hskip _ 100 100 [] eq_refl eq_refl) as (H1 & H2 & _).
    split; [exact H1 | exact H2].
  - split; [reflexivity|].
    destruct (skipped_and_failed_uploads nearest mix 144 144 2 1 400 0
                [upload "a.png" "RGB" 300 300]
                (broken_upload "notes.txt")
                [upload "a.png" "RGB" 300 300] []) as [_ Hfail].
    destruct (Hfail UnidentifiedImageError [] eq_refl) as (H1 & H2 & _).
    split; [exact H1 | exact H2].
Defined.

Lemma sheet_count_witness :
  let files := repeat (upload "a.png" "RGB" 300 300) 3 in
  exists cropped_images sheets,
    (0 < 2 /\ 0 < 1 /\ max_images_per_sheet 2 1 < 2 ^ 53 /\
     crop_images nearest 144 144 400 0 files [] = (Ok cropped_images, []) /\
     process_images nearest mix 144 144 2 1 400 0 files [] = (Ok sheets, []))
    /\
    len cropped_images = 3 /\
    len sheets = ceil_div (len cropped_images) (max_images_per_sheet 2 1).
Proof.
  cbv zeta.
  destruct three_uploads_run as (cropped_images & sheets & Hcrop & Hn & Hrun & _).
  exists cropped_images, sheets.
  split; [repeat split; try reflexivity; assumption|]. split; [exact Hn|].
  destruct (sheet_count nearest mix 144 144 2 1 400 0 _ _ _ _
              eq_refl eq_refl eq_refl Hcrop) as (Hret & _).
  exact (proj1 (proj2 (Hret sheets [] Hrun))).
Defined.

Lemma tile_placement_witness :
  let files := repeat (upload "a.png" "RGB" 300 300) 3 in
  exists cropped_images sheets tile,
    (crop_images nearest 144 144 400 0 files [] = (Ok cropped_images, []) /\
     process_images nearest mix 144 144 2 1 400 0 files [] = (Ok sheets, []) /\
     nth_error cropped_images (Z.to_nat (0 * max_images_per_sheet 2 1 + 1))
     = Some tile) /\
    exists sheet filename,
      nth_error sheets (Z.to_nat 0) = Some (sheet, filename) /\
      getpixel sheet (1 mod 2 * 144 + 5) (1 / 2 * 144 + 7) =
      mix (alpha (getpixel tile 5 7)) (0, 0, 0, 0) (getpixel tile 5 7).
Proof.
  cbv zeta.
  destruct three_uploads_run
    as (cropped_images & sheets & Hcrop & Hn & Hrun & _).
  destruct (nth_error cropped_images
              (Z.to_nat (0 * max_images_per_sheet 2 1 + 1)))
    as [tile|] eqn:Hnth.
  - exists cropped_images, sheets, tile.
    split; [repeat split; assumption|].
    destruct (tile_placement nearest mix 144 144 2 1 400 0 _ _ _ _ _ _ 0 1 _
                eq_refl eq_refl eq_refl Hcrop Hrun ltac:(lia)
                ltac:(unfold max_images_per_sheet; lia) Hnth)
      as (sheet & filename & Hsheet & Hpix).
    exists sheet, filename. split; [exact Hsheet|].
    apply Hpix; lia.
  - exfalso. apply nth_error_None in Hnth. unfold len in Hn.
    change (Z.to_nat (0 * max_images_per_sheet 2 1 + 1)) with 1%nat in Hnth.
    lia.
Defined.

Lemma sheet_dimensions_witness :
  let files := repeat (upload "a.png" "RGB" 300 300) 3 in
  exists cropped_images sheets,
    (0 < 2 /\ 0 < 1 /\ max_images_per_sheet 2 1 < 2 ^ 53 /\
     crop_images nearest 144 144 400 0 files [] = (Ok cropped_images, []) /\
     process_images nearest mix 144 144 2 1 400 0 files [] = (Ok sheets, []))
    /\
    forall k sheet filename,
      nth_error sheets k = Some (sheet, filename) ->
      width sheet = 144 * 2 /\
      height sheet =
      144 * ceil_div (len (sheet_tiles 2 1 cropped_images (Z.of_nat k))) 2.
Proof.
  cbv zeta.
  destruct three_uploads_run
    as (cropped_images & sheets & Hcrop & _ & Hrun & _).
  exists cropped_images, sheets.
  split; [repeat split; try reflexivity; assumption|].
  intros k sheet filename Hnth.
  destruct (sheet_dimensions nearest mix 144 144 2 1 400 0 _ _ _ _ _ _
              eq_refl eq_refl eq_refl Hcrop Hrun k sheet filename Hnth)
    as (_ & _ & Hw & Hh & _).
  split; [exact Hw | exact Hh].
Defined.

Lemma sheet_names_witness :
  let files := repeat (upload "a.png" "RGB" 300 300) 3 in
  exists sheets sheet filename,
    (process_images nearest mix 144 144 2 1 400 0 files [] = (Ok sheets, []) /\
     nth_error sheets 1 = Some (sheet, filename)) /\
    filename = "Emo_sheet_02.png".
Proof.
  cbv zeta.
  destruct three_uploads_run as (cropped_images & sheets & _ & _ & Hrun & Hlen2).
  unfold len in Hlen2.
  destruct (nth_error sheets 1) as [[sheet filename]|] eqn:Hnth.
  - exists sheets, sheet, filename. split; [split; [exact Hrun|exact Hnth]|].
    destruct (sheet_names nearest mix 144 144 2 1 400 0 _ _ _ _ _ _ _ Hrun Hnth)
      as (_ & H2 & _).
    apply H2. cbn. lia.
  - exfalso. apply nth_error_None in Hnth. lia.
Defined.

Lemma sheet_names_distinct_witness :
  let files := repeat (upload "a.png" "RGB" 300 300) 3 in
  exists sheets,
    process_images nearest mix 144 144 2 1 400 0 files [] = (Ok sheets, []) /\
    len sheets = 2 /\
    NoDup (map snd sheets).
Proof.
  cbv zeta.
  destruct three_uploads_run as (cropped_images & sheets & _ & _ & Hrun & Hlen).
  exists sheets. split; [exact Hrun|]. split; [exact Hlen|].
  exact (sheet_names_distinct nearest mix 144 144 2 1 400 0 _ _ _ _ Hrun).
Defined.

(** The archive of two sheets of a run, for an encoder and a serialiser that
    keep nothing. *)
Lemma archive_entries_witness :
  let sheet := plain "RGBA" 288 144 (0, 0, 0, 0) in
  let sheets := [(sheet, "Emo_sheet.png"); (sheet, "Emo_sheet_02.png")] in
  (Forall writable sheets /\
   forall s, In s sheets -> arcname (snd s) = snd s) /\
  exists zip_file,
    zip_sheets (fun _ => []) sheets = Ok zip_file /\
    map fst (filelist zip_file) = ["Emo_sheet.png"; "Emo_sheet_02.png"] /\
    create_zip_file (fun _ => []) (fun _ => []) sheets = Ok [].
Proof.
  cbv zeta.
  assert (Hall : Forall writable
                   [(plain "RGBA" 288 144 (0, 0, 0, 0), "Emo_sheet.png");
                    (plain "RGBA" 288 144 (0, 0, 0, 0), "Emo_sheet_02.png")]).
  { repeat constructor; try discriminate; cbn; lia. }
  assert (Hnames : forall s,
             In s [(plain "RGBA" 288 144 (0, 0, 0, 0), "Emo_sheet.png");
                   (plain "RGBA" 288 144 (0, 0, 0, 0), "Emo_sheet_02.png")] ->
             arcname (snd s) = snd s).
  { intros s [<-|[<-|[]]]; reflexivity. }
  split; [split; assumption|].
  destruct (archive_entries (fun _ => []) (fun _ => [])
              [(plain "RGBA" 288 144 (0, 0, 0, 0), "Emo_sheet.png");
               (plain "RGBA" 288 144 (0, 0, 0, 0), "Emo_sheet_02.png")])
    as (Hok & _).
  destruct (Hok Hall Hnames) as (zip_file & Hzip & _ & _ & Hfst & _ & _ & Hdata).
  exists zip_file. split; [exact Hzip|]. split; [exact Hfst | exact Hdata].
Defined.

Lemma ceil_of_float_quotient_witness :
  (0 <= 10 < 2 ^ 53 /\ 0 < 4 < 2 ^ 53) /\
  exists q k,
    truediv 10 4 = Ok q /\ math_ceil q = Ok k /\ (k - 1) * 4 < 10 <= k * 4.
Proof.
  assert (Hn : 0 <= 10 < 2 ^ 53) by (split; [discriminate | reflexivity]).
  assert (Hc : 0 < 4 < 2 ^ 53) by (split; reflexivity).
  split; [split; assumption|].
  exact (ceil_of_float_quotient 10 4 Hn Hc).
Defined.

Lemma crop_box_centring_witness :
  (crop_box 144 144 0 301 = (78, 20, 222, 164) /\ 0 = 0) /\
  222 - 78 = 144 /\
  -1 <= (301 - 222) - 78 <= 1 /\
  (too_small 144 144 0 301 300 = false <-> 144 <= 301 /\ 20 + 144 <= 300).
Proof.
  split; [split; reflexivity|].
  destruct (crop_box_centring 144 144 0 301 300 78 20 222 164 eq_refl)
    as (Hwidth & _ & Hcentred).
  destruct (Hcentred eq_refl) as (Hmargin & Hcheck).
  split; [exact Hwidth|]. split; [exact Hmargin | exact Hcheck].
Defined.

Lemma effective_image_witness :
  exists img log',
    load_image nearest 400 (upload "wide.png" "RGB" 800 600) []
    = (Ok (img, 400, 300), log') /\
    400 = width img /\ 300 = height img /\ width img <= 400 /\
    mode img = "RGBA".
Proof.
  assert (H : exists img log',
             load_image nearest 400 (upload "wide.png" "RGB" 800 600) []
             = (Ok (img, 400, 300), log')).
  { do 2 eexists. vm_compute. reflexivity. }
  destruct H as (img & log' & H). exists img, log'.
  split; [exact H|].
  exact (effective_image nearest 400 _ _ _ _ _ _ H).
Defined.

Lemma narrow_max_width_witness :
  let files := [upload "a.png" "RGB" 2000 2000; upload "b.png" "RGBA" 500 600] in
  (200 < 500 /\ max_images_per_sheet 4 2 <> 0) /\
  fst (crop_images nearest 500 500 200 0 files []) = Ok [] /\
  fst (process_images nearest mix 500 500 4 2 200 0 files []) = Ok [].
Proof.
  cbv zeta. split; [split; [reflexivity | discriminate]|].
  destruct (narrow_max_width nearest mix 500 500 4 2 200 0
              [upload "a.png" "RGB" 2000 2000; upload "b.png" "RGBA" 500 600]
              [] eq_refl ltac:(discriminate)) as (H1 & H2 & _).
  split; [exact H1 | exact H2].
Defined.

Lemma rgba_throughout_witness :
  let files := [upload "a.png" "RGB" 300 300; upload "b.png" "L" 300 300] in
  exists sheets log',
    process_images nearest mix 144 144 2 1 400 0 files [] = (Ok sheets, log') /\
    Forall (fun s => mode (fst s) = "RGBA") sheets.
Proof.
  cbv zeta.
  destruct (process_images_length nearest mix 144 144 2 1 400 0
              [upload "a.png" "RGB" 300 300; upload "b.png" "L" 300 300] [] _ _
              eq_refl eq_refl eq_refl
              ltac:(split; vm_compute; discriminate)
              (crop_images_eq nearest 144 144 400 0 _ _))
    as (sheets & Hrun & _).
  exists sheets. eexists. split; [exact Hrun|].
  exact (proj1 (rgba_throughout nearest mix 144 144 2 1 400 0 _ _ _ _ Hrun)).
Defined.

Lemma uploads_accounted_witness :
  let files := [upload "a.png" "RGB" 300 300; upload "small.png" "RGB" 100 100;
                broken_upload "notes.txt"] in
  exists cropped_images log',
    crop_images nearest 144 144 400 0 files [] = (Ok cropped_images, log') /\
    exists added,
      log' = [] ++ added /\
      len files =
      len cropped_images + len (filter is_warning added)
        + len (filter is_error added).
Proof.
  cbv zeta. do 2 eexists. split; [apply crop_images_eq|].
  exact (uploads_accounted nearest 144 144 400 0 _ _ _ _
           (crop_images_eq nearest 144 144 400 0 _ _)).
Defined.

Lemma crop_images_app_witness :
  let files1 := [upload "a.png" "RGB" 300 300] in
  let files2 := [upload "small.png" "RGB" 100 100; upload "b.png" "RGB" 300 300] in
  exists tiles1 log1 tiles2 shown2,
    (crop_images nearest 144 144 400 0 files1 [] = (Ok tiles1, log1) /\
     crop_images nearest 144 144 400 0 files2 [] = (Ok tiles2, shown2)) /\
    crop_images nearest 144 144 400 0 (files1 ++ files2) []
    = (Ok (tiles1 ++ tiles2), log1 ++ shown2).
Proof.
  cbv zeta. do 4 eexists.
  split; [split; apply crop_images_eq|].
  exact (crop_images_app nearest 144 144 400 0 _ _ _ _ _ _ _
           (crop_images_eq nearest 144 144 400 0 _ _)
           (crop_images_eq nearest 144 144 400 0 _ _)).
Defined.

Lemma sheets_partition_tiles_witness :
  let cropped_images := repeat (plain "RGBA" 144 144 (0, 0, 0, 255)) 3 in
  0 < max_images_per_sheet 2 1 /\
  exists starts,
    range 0 (len cropped_images) (max_images_per_sheet 2 1) = Ok starts /\
    List.concat (map (fun sheet_index =>
                   slice cropped_images sheet_index
                     (sheet_index + max_images_per_sheet 2 1)) starts)
    = cropped_images.
Proof.
  cbv zeta. split; [reflexivity|].
  destruct (sheets_partition_tiles 2 1
              (repeat (plain "RGBA" 144 144 (0, 0, 0, 255)) 3) eq_refl)
    as (starts & Hrange & Hconcat & _).
  exists starts. split; [exact Hrange | exact Hconcat].
Defined.

Lemma sheet_height_bound_witness :
  let files := repeat (upload "a.png" "RGB" 300 300) 5 in
  exists sheets sheet filename,
    (0 < 2 /\ 0 < 2 /\ max_images_per_sheet 2 2 < 2 ^ 53 /\
     process_images nearest mix 144 144 2 2 400 0 files [] = (Ok sheets, []) /\
     nth_error sheets 0 = Some (sheet, filename)) /\
    144 <= height sheet <= 144 * 2 /\
    height sheet = 144 * 2.
Proof.
  cbv zeta.
  destruct (process_images_length nearest mix 144 144 2 2 400 0
              (repeat (upload "a.png" "RGB" 300 300) 5) [] _ []
              eq_refl eq_refl eq_refl
              ltac:(split; vm_compute; discriminate) eq_refl)
    as (sheets & Hrun & Hlen).
  assert (Hlen2 : len sheets = 2) by (rewrite Hlen; vm_compute; reflexivity).
  unfold len in Hlen2.
  destruct (nth_error sheets 0) as [[sheet filename]|] eqn:Hnth.
  - exists sheets, sheet, filename.
    split; [repeat split; [exact Hrun | exact Hnth]|].
    destruct (sheet_height_bound nearest mix 144 144 2 2 400 0 _ _ _ _ _ _ _
                eq_refl eq_refl eq_refl Hrun Hnth) as (_ & Hbound & Hfull).
    split; [exact Hbound|]. apply Hfull. lia.
  - exfalso. apply nth_error_None in Hnth. lia.
Defined.

Lemma nonpositive_capacity_witness :
  let files := [upload "a.png" "RGB" 300 300] in
  (max_images_per_sheet 0 2 = 0 /\ max_images_per_sheet (-1) 2 < 0 /\
   files <> []) /\
  fst (process_images nearest mix 144 144 0 2 400 0 files [])
  = Raise ValueError /\
  snd (main nearest mix 144 144 0 2 400 0 (fun _ => []) (fun _ => [])
         false true files)
  = Raise ZeroDivisionError /\
  fst (process_images nearest mix 144 144 (-1) 2 400 0 files []) = Ok [].
Proof.
  cbv zeta.
  assert (Hne : [upload "a.png" "RGB" 300 300] <> []) by discriminate.
  split; [split; [reflexivity | split; [reflexivity | exact Hne]]|].
  destruct (nonpositive_capacity nearest mix 144 144 0 2 400 0
              (fun _ => []) (fun _ => [])
              [upload "a.png" "RGB" 300 300] []) as [Hzero _].
  destruct (nonpositive_capacity nearest mix 144 144 (-1) 2 400 0
              (fun _ => []) (fun _ => [])
              [upload "a.png" "RGB" 300 300] []) as [_ Hneg].
  destruct (Hzero eq_refl) as [H0 Hpage]. destruct (Hneg eq_refl) as [H1 _].
  destruct (Hpage false true) as [_ Hmain].
  destruct (Hmain Hne) as [_ Hend].
  rewrite H0, H1, Hend. repeat split; reflexivity.
Defined.

Lemma predicted_sheet_count_witness :
  let files := repeat (upload "a.png" "RGB" 300 300) 3 in
  (files <> [] /\ 0 < 2 /\ 0 < 1 /\ max_images_per_sheet 2 1 < 2 ^ 53 /\
   len files < 2 ^ 53) /\
  exists more sheets,
    info_column 2 1 400 files =
    Ok (st_metric_total 3 :: st_metric_sheets 2 :: st_metric_per_sheet 2
          :: more) /\
    process_images nearest mix 144 144 2 1 400 0 files [] = (Ok sheets, []) /\
    len sheets <= 2.
Proof.
  cbv zeta.
  split; [split; [discriminate | repeat split]|].
  destruct three_uploads_run as (cropped_images & sheets & _ & _ & Hrun & _).
  destruct (predicted_sheet_count nearest mix 144 144 2 1 400 0
              (repeat (upload "a.png" "RGB" 300 300) 3) []
              ltac:(discriminate) eq_refl eq_refl eq_refl eq_refl)
    as (more & Hinfo & _ & Hbound).
  exists more, sheets.
  split; [exact Hinfo|]. split; [exact Hrun|].
  exact (proj1 (Hbound sheets [] Hrun)).
Defined.

Lemma large_images_and_resize_notices_witness :
  let files := [upload "wide.png" "RGB" 800 600; upload "a.png" "RGB" 300 300] in
  exists cropped_images log',
    crop_images nearest 144 144 400 0 files [] = (Ok cropped_images, log') /\
    exists added,
      log' = [] ++ added /\
      len (filter is_info added) <= count_large 400 files.
Proof.
  cbv zeta. do 2 eexists. split; [apply crop_images_eq|].
  destruct (large_images_and_resize_notices nearest 144 144 400 0 _ _ _ _
              (crop_images_eq nearest 144 144 400 0
                 [upload "wide.png" "RGB" 800 600; upload "a.png" "RGB" 300 300]
                 []))
    as (added & Hlog & _ & Hle & _).
  exists added. split; [exact Hlog | exact Hle].
Defined.

Lemma preview_outcome_witness :
  let files := repeat (upload "a.png" "RGB" 300 300) 6 in
  exists page r,
    (files <> [] /\ upload_column 400 true files = (page, r)) /\
    len (filter is_preview page) <= Z.min 4 (len files) /\
    (In (st_info_more 2) page <->
     r = Ok tt /\ 4 < len files /\ 2 = len files - 4).
Proof.
  cbv zeta. do 2 eexists.
  assert (Hne : repeat (upload "a.png" "RGB" 300 300) 6 <> [])
    by discriminate.
  split; [split; [exact Hne | apply surjective_pairing]|].
  destruct (preview_outcome 400 _ _ _ Hne
              (surjective_pairing
                 (upload_column 400 true
                    (repeat (upload "a.png" "RGB" 300 300) 6))))
    as (Hle & _ & _ & Hmore).
  split; [exact Hle | exact (Hmore 2)].
Defined.

Lemma create_sheets_outcome_witness :
  let files := repeat (upload "a.png" "RGB" 300 300) 3 in
  let page := create_sheets nearest mix 144 144 2 1 400 0
                (fun _ => []) (fun _ => []) files in
  exists cropped_images sheets,
    (0 < 2 /\ 0 < 1 /\ max_images_per_sheet 2 1 < 2 ^ 53 /\
     len files < 2 ^ 53 /\
     crop_images nearest 144 144 400 0 files [] = (Ok cropped_images, []) /\
     process_images nearest mix 144 144 2 1 400 0 files [] = (Ok sheets, []))
    /\
    (forall e, ~ In (st_error_exception e) page) /\
    len (downloads_of page) =
    ceil_div (len cropped_images) (max_images_per_sheet 2 1).
Proof.
  cbv zeta.
  destruct three_uploads_run
    as (cropped_images & sheets & Hcrop & _ & Hrun & _).
  exists cropped_images, sheets.
  split; [repeat split; try reflexivity; assumption|].
  destruct (create_sheets_outcome nearest mix 144 144 2 1 400 0
              (fun _ => []) (fun _ => [])
              (repeat (upload "a.png" "RGB" 300 300) 3) _ _ _ _
              eq_refl eq_refl eq_refl eq_refl Hcrop Hrun)
    as (_ & _ & _ & Hsized & _).
  destruct (Hsized eq_refl eq_refl) as (Hnever & _ & Hdown & _).
  split; [exact Hnever | exact Hdown].
Defined.

Lemma zip_matches_downloads_witness :
  let files := repeat (upload "a.png" "RGB" 300 300) 3 in
  let page := create_sheets nearest mix 144 144 2 1 400 0
                (fun _ => []) (fun _ => []) files in
  exists data,
    In (st_zip_download data "emo_sheets.zip") page /\
    2 <= len (downloads_of page) /\
    NoDup (map fst (downloads_of page)).
Proof.
  cbv zeta.
  destruct three_uploads_run as (cropped_images & sheets & _ & _ & Hrun & Hlen).
  destruct (create_sheets_ok nearest mix 144 144 2 1 400 0
              (fun _ => []) (fun _ => [])
              (repeat (upload "a.png" "RGB" 300 300) 3) _ _
              eq_refl eq_refl eq_refl eq_refl eq_refl eq_refl Hrun)
    as (expanders & _ & _ & _ & Hpage).
  assert (Hin : In (st_zip_download [] "emo_sheets.zip")
                  (create_sheets nearest mix 144 144 2 1 400 0
                     (fun _ => []) (fun _ => [])
                     (repeat (upload "a.png" "RGB" 300 300) 3))).
  { rewrite Hpage. apply in_app_iff. right.
    destruct sheets as [|s0 rest]; [discriminate Hlen|].
    right. right. apply in_app_iff. right. rewrite Hlen.
    right. right. left. reflexivity. }
  exists []. split; [exact Hin|].
  destruct (zip_matches_downloads nearest mix 144 144 2 1 400 0
              (fun _ => []) (fun _ => []) _ _ _ Hin)
    as (_ & _ & Hmany & Hnames).
  split; [exact Hmany | exact Hnames].
Defined.

Lemma sidebar_settings_run_witness :
  let files := repeat (upload "a.png" "RGB" 300 300) 3 in
  (sidebar_values 144 144 4 2 400 0 /\ len files < 2 ^ 53) /\
  (exists shown, info_column 4 2 400 files = Ok shown) /\
  forall e,
    ~ In (st_error_exception e)
        (create_sheets nearest mix 144 144 4 2 400 0
           (fun _ => []) (fun _ => []) files).
Proof.
  cbv zeta.
  assert (Hside : sidebar_values 144 144 4 2 400 0)
    by (unfold sidebar_values; repeat split; discriminate).
  split; [split; [exact Hside | reflexivity]|].
  destruct (sidebar_settings_run nearest mix 144 144 4 2 400 0
              (fun _ => []) (fun _ => [])
              (repeat (upload "a.png" "RGB" 300 300) 3) Hside eq_refl)
    as (Hinfo & Hnever & _).
  split; [exact Hinfo | exact Hnever].
Defined.
